(** * full_stack_dr_plans_precheck: a shallow embedding and its properties

    The development follows [src/full_stack_dr_plans_precheck.py].

    - Python [str] values are modelled by [string]: sequences of code points
      below 256.  On that range the class [\d] of the [re] module is exactly
      ['0'..'9'].
    - The three compiled patterns are kept as syntax trees and run by a small
      backtracking matcher that follows [re.match]: anchored at the start of
      the subject, greedy repetition, [$] accepting the end of the subject or
      the position just before one final newline.
    - Effects (files, clock, logger, vendor SDK, [sys.exit], exceptions) are
      threaded through a state-and-outcome monad over an explicit [world];
      the vendor service is an arbitrary environment [env]. *)

From Stdlib Require Import Ascii String List ZArith Bool Lia.
From stdpp Require Import base option list gmap strings pretty.

Local Open Scope string_scope.
Local Open Scope list_scope.

(** ** Regular expressions as the [re] module compiles them *)

Module Re.

(** One-character matchers. *)
Inductive cclass :=
| Lit (c : ascii)                      (* a literal, also an escaped [\.] *)
| OneOf (ranges : list (ascii * ascii)) (* [[a-z0-9]] *)
| NoneOf (cs : list ascii)             (* [[^.]] *)
| Digit.                               (* [\d] *)

Inductive node :=
| At_beginning                          (* [^] *)
| At_end                                (* [$] *)
| Char (c : cclass)
| Repeat (lo : nat) (hi : option nat) (c : cclass). (* [c{lo,hi}], [+] is [{1,}] *)

Definition pattern := list node.

Definition in_range (c : ascii) (r : ascii * ascii) : bool :=
  (N_of_ascii (fst r) <=? N_of_ascii c)%N && (N_of_ascii c <=? N_of_ascii (snd r))%N.

Definition ascii_eqb (a b : ascii) : bool := Ascii.eqb a b.

Definition accepts (cl : cclass) (c : ascii) : bool :=
  match cl with
  | Lit a => ascii_eqb a c
  | OneOf rs => existsb (in_range c) rs
  | NoneOf cs => negb (existsb (ascii_eqb c) cs)
  | Digit => in_range c ("0", "9")%char
  end.

Definition newline : string := String (ascii_of_nat 10) EmptyString.

(** [$] without MULTILINE: end of subject, or just before a final newline. *)
Definition at_end (s : string) : bool :=
  String.eqb s EmptyString || String.eqb s newline.

Definition may_take (hi : option nat) : bool :=
  match hi with Some 0 => false | _ => true end.

(** Greedy repetition of a one-character matcher, with backtracking into the
    continuation [k].  [bos] tells whether the position is still the
    beginning of the subject. *)
Fixpoint rep (cl : cclass) (lo : nat) (hi : option nat)
    (k : bool -> string -> bool) (bos : bool) (s : string) : bool :=
  match s with
  | String c s' =>
      if may_take hi && accepts cl c
      then rep cl (pred lo) (option_map pred hi) k false s'
           || (Nat.eqb lo 0 && k bos s)
      else Nat.eqb lo 0 && k bos s
  | EmptyString => Nat.eqb lo 0 && k bos s
  end.

Fixpoint run (p : pattern) : bool -> string -> bool :=
  match p with
  | [] => fun _ _ => true
  | At_beginning :: p' => fun bos s => bos && run p' bos s
  | At_end :: p' => fun bos s => at_end s && run p' bos s
  | Char cl :: p' => fun _ s =>
      match s with
      | String c s' => accepts cl c && run p' false s'
      | EmptyString => false
      end
  | Repeat lo hi cl :: p' => fun bos s => rep cl lo hi (run p') bos s
  end.

(** [pattern.match(s)] seen as a truth value. *)
Definition matches (p : pattern) (s : string) : bool := run p true s.

Fixpoint lits (s : string) : pattern :=
  match s with
  | EmptyString => []
  | String c s' => Char (Lit c) :: lits s'
  end.

End Re.

(** ** Constants *)

Definition not_dot : Re.cclass := Re.NoneOf ["."%char].
Definition lower_alnum : Re.cclass := Re.OneOf [("a", "z"); ("0", "9")]%char.

(** The tail [[^.]+\.[^.]+\.[^.]+$] shared by both identifier patterns. *)
Definition ocid_tail : Re.pattern :=
  [Re.Repeat 1 None not_dot; Re.Char (Re.Lit "."); Re.Repeat 1 None not_dot;
   Re.Char (Re.Lit "."); Re.Repeat 1 None not_dot; Re.At_end].

(** [r'^ocid1\.drprotectiongroup\.[^.]+\.[^.]+\.[^.]+$'] *)
Definition DRPG_OCID_PATTERN : Re.pattern :=
  Re.At_beginning :: Re.lits "ocid1.drprotectiongroup." ++ ocid_tail.

(** [r'^ocid1\.onstopic\.[^.]+\.[^.]+\.[^.]+$'] *)
Definition TOPIC_OCID_PATTERN : Re.pattern :=
  Re.At_beginning :: Re.lits "ocid1.onstopic." ++ ocid_tail.

(** [r'^[a-z0-9]{2}-[a-z0-9]+-\d{1}$'] *)
Definition REGION_PATTERN : Re.pattern :=
  [Re.At_beginning; Re.Repeat 2 (Some 2) lower_alnum; Re.Char (Re.Lit "-");
   Re.Repeat 1 None lower_alnum; Re.Char (Re.Lit "-");
   Re.Repeat 1 (Some 1) Re.Digit; Re.At_end].

Definition REGION_MAPPING : gmap string string :=
  <["iad" := "us-ashburn-1"]> (<["phx" := "us-phoenix-1"]> ∅).

(** ** Utility functions *)

Definition is_valid_ocid (ocid : string) (pattern : Re.pattern) : bool :=
  Re.matches pattern ocid.

(** [None] is Python's [None], the result of [dict.get] on a missing key. *)
Definition normalize_region (region : string) : option string :=
  if Re.matches REGION_PATTERN region then Some region
  else REGION_MAPPING !! region.

(** [s.split(sep)] for a one-character separator. *)
Fixpoint split (sep : ascii) (s : string) : list string :=
  match s with
  | EmptyString => [EmptyString]
  | String c s' =>
      if Re.ascii_eqb c sep then EmptyString :: split sep s'
      else match split sep s' with
           | x :: xs => String c x :: xs
           | [] => [String c EmptyString]
           end
  end.


(** ** Vendor data, as far as the script reads it *)

Record drpg := {
  drpg_id : string;
  drpg_display_name : string;
  drpg_role : string;
  drpg_lifecycle_state : string;
  drpg_peer_id : option string;       (* [None] when the SDK model has no peer *)
  drpg_peer_region : option string;
}.

Record plan := {
  plan_id : string;
  plan_display_name : string;
  plan_type : string;
  plan_lifecycle_state : string;
}.

Record execution := {
  execution_id : string;
  execution_lifecycle_state : string;
}.

(** [class DrPlanType(Enum)] *)
Inductive DrPlanType := SWITCHOVER | FAILOVER | START_DRILL | STOP_DRILL.

Definition DrPlanType_value (t : DrPlanType) : string :=
  match t with
  | SWITCHOVER => "SWITCHOVER"
  | FAILOVER => "FAILOVER"
  | START_DRILL => "START_DRILL"
  | STOP_DRILL => "STOP_DRILL"
  end.

Definition DrPlanType_members : list DrPlanType :=
  [SWITCHOVER; FAILOVER; START_DRILL; STOP_DRILL].

(** [DrPlanType(value)]: lookup by value, [None] where Python raises
    [ValueError]. *)
Definition DrPlanType_lookup (value : string) : option DrPlanType :=
  find (fun t => String.eqb (DrPlanType_value t) value) DrPlanType_members.

Definition DrPlanType_eqb (a b : DrPlanType) : bool :=
  String.eqb (DrPlanType_value a) (DrPlanType_value b).

(** The four [*PrecheckExecutionOptionDetails] models. *)
Inductive precheck_options :=
| SwitchoverPrecheckExecutionOptionDetails
| FailoverPrecheckExecutionOptionDetails
| StartDrillPrecheckExecutionOptionDetails
| StopDrillPrecheckExecutionOptionDetails.

(** ** Exceptions and outcomes *)

(** [ServiceError] carries [e.message]; every exception has its [str(e)]. *)
Inductive exn :=
| ServiceError (message : string) (text : string)
| OtherError (cls : string) (text : string).

Definition exn_str (e : exn) : string :=
  match e with ServiceError _ t => t | OtherError _ t => t end.

Definition TypeError := OtherError "TypeError".
Definition ValueError := OtherError "ValueError".
Definition IndexError := OtherError "IndexError".
Definition AttributeError := OtherError "AttributeError".
Definition FileNotFoundError := OtherError "FileNotFoundError".

(** How a call ends: a value, an exception of class [Exception], or the
    [SystemExit] of [sys.exit], which [except Exception] does not catch. *)
Inductive outcome (A : Type) :=
| Ret (a : A)
| Raise (e : exn)
| Exit (code : Z).
Arguments Ret {A} a.
Arguments Raise {A} e.
Arguments Exit {A} code.

(** Exit status of the interpreter for the outcome of the main function. *)
Definition exit_status {A} (o : outcome A) : Z :=
  match o with Ret _ => 0 | Raise _ => 1 | Exit c => c end.

(** ** The world *)

Inductive level := INFO | WARNING | ERROR.

Inductive waitable := WExecution (e : execution) | WDrpg (d : drpg).

(** What the run does to its surroundings.  Vendor calls are recorded with
    the client's configuration text, their arguments and their answer. *)
Inductive event :=
| EvLog (lvl : level) (msg : string)
| EvSigner (r : option exn)
| EvGetDrpg (cfg : string) (id : option string) (r : exn + drpg)
| EvListPlans (cfg : string) (id : string) (lifecycle : option string)
    (r : exn + list plan)
| EvCreateExecution (cfg : string) (plan : string) (opts : precheck_options)
    (r : exn + execution)
| EvGetExecution (cfg : string) (id : string) (r : exn + execution)
| EvWaitUntil (cfg : string) (on : waitable) (property state : string)
    (r : option exn)
| EvPublish (cfg : string) (topic body title : string) (r : option exn).

(** - [now]: logical time, advanced by every clock read, log record and
      vendor call;
    - [files]: the files of [base_dir] (region files), path to text;
    - [logs]: the files of [base_dir/logs], kept apart from [files];
    - [err_handler]: the file the ERROR-only handler of the logger writes to;
    - [trace]: the events so far, most recent first. *)
Record world := {
  now : nat;
  files : gmap string string;
  logs : gmap string string;
  err_handler : option string;
  trace : list event;
}.

(** Everything the script cannot decide: the clock, the log formatter and
    the vendor, each answer possibly depending on the time of the call. *)
Record env := {
  clock : nat -> string;
  render : nat -> level -> string -> bool -> string;
  new_signer : nat -> option exn;
  get_dr_protection_group : nat -> string -> option string -> exn + drpg;
  list_dr_plans : nat -> string -> string -> option string -> exn + list plan;
  create_dr_plan_execution :
    nat -> string -> string -> precheck_options -> exn + execution;
  get_dr_plan_execution : nat -> string -> string -> exn + execution;
  wait_until : nat -> string -> waitable -> string -> string -> option exn;
  publish_message : nat -> string -> string -> string -> string -> option exn;
}.

(** ** The monad of effects *)

Definition M (A : Type) : Type := world -> outcome A * world.

Definition ret {A} (a : A) : M A := fun w => (Ret a, w).

Definition bind {A B} (m : M A) (k : A -> M B) : M B :=
  fun w =>
    match m w with
    | (Ret a, w') => k a w'
    | (Raise e, w') => (Raise e, w')
    | (Exit c, w') => (Exit c, w')
    end.

Notation "'let*' x ':=' c1 'in' c2" := (bind c1 (fun x => c2))
  (at level 10, x pattern, c1 at level 100, c2 at level 200).

Definition raise {A} (e : exn) : M A := fun w => (Raise e, w).

(** [sys.exit(code)] *)
Definition sys_exit {A} (code : Z) : M A := fun w => (Exit code, w).

(** [try: m  except Exception as e: h e] *)
Definition try_except {A} (m : M A) (h : exn -> M A) : M A :=
  fun w =>
    match m w with
    | (Raise e, w') => h e w'
    | r => r
    end.

Definition when (b : bool) (m : M unit) : M unit :=
  if b then m else ret tt.

Definition tick : M nat :=
  fun w => (Ret (now w),
            {| now := S (now w); files := files w; logs := logs w;
               err_handler := err_handler w; trace := trace w |}).

Definition emit (ev : event) : M unit :=
  fun w => (Ret tt,
            {| now := now w; files := files w; logs := logs w;
               err_handler := err_handler w; trace := ev :: trace w |}).

Definition nl : string := Re.newline.

(** [base / name] *)
Definition path_join (base name : string) : string := base +:+ "/" +:+ name.

(** Python truthiness of a [str] or [None]. *)
Definition nonempty (o : option string) : option string :=
  match o with
  | Some s => if String.eqb s EmptyString then None else Some s
  | None => None
  end.

(** [f"{x}"] for a value that is a [str] or [None]. *)
Definition py_str (o : option string) : string :=
  match o with Some s => s | None => "None" end.

(** [xs[i]] *)
Definition index {A} (xs : list A) (i : nat) : M A :=
  match xs !! i with
  | Some x => ret x
  | None => raise (IndexError "list index out of range")
  end.

(** *** Files *)

Definition write_text (path text : string) : M unit :=
  fun w => (Ret tt,
            {| now := now w; files := <[path := text]> (files w);
               logs := logs w; err_handler := err_handler w;
               trace := trace w |}).

Definition file_exists (path : string) : M bool :=
  fun w => (Ret (bool_decide (is_Some (files w !! path))), w).

Definition unlink (path : string) : M unit :=
  fun w =>
    match files w !! path with
    | Some _ =>
        (Ret tt,
         {| now := now w; files := delete path (files w); logs := logs w;
            err_handler := err_handler w; trace := trace w |})
    | None => (Raise (FileNotFoundError path), w)
    end.

Definition read_text (path : string) : M string :=
  fun w =>
    match files w !! path with
    | Some t => (Ret t, w)
    | None => (Raise (FileNotFoundError path), w)
    end.

Definition log_read_text (path : string) : M string :=
  fun w =>
    match logs w !! path with
    | Some t => (Ret t, w)
    | None => (Raise (FileNotFoundError path), w)
    end.

Definition log_exists (path : string) : M bool :=
  fun w => (Ret (bool_decide (is_Some (logs w !! path))), w).

(** [path.stat().st_size] *)
Definition log_size (path : string) : M nat :=
  let* t := log_read_text path in ret (String.length t).

Definition log_unlink (path : string) : M unit :=
  fun w =>
    match logs w !! path with
    | Some _ =>
        (Ret tt,
         {| now := now w; files := files w; logs := delete path (logs w);
            err_handler := err_handler w; trace := trace w |})
    | None => (Raise (FileNotFoundError path), w)
    end.

(** Opening a file in append mode: created empty when missing, kept when
    present. *)
Definition touch (path : string) (ls : gmap string string) : gmap string string :=
  match ls !! path with
  | Some _ => ls
  | None => <[path := EmptyString]> ls
  end.

(** [logging.FileHandler(path)] opens [path] in append mode; the handler
    becomes the ERROR-only handler of the logger. *)
Definition open_error_handler (path : string) : M unit :=
  fun w =>
    (Ret tt,
     {| now := now w; files := files w; logs := touch path (logs w);
        err_handler := Some path; trace := trace w |}).

(** What the ERROR-only handler does to the log files: it appends to its
    file (nothing is written once that file is gone). *)
Definition append_to (handler : option string) (text : string)
    (ls : gmap string string) : gmap string string :=
  match handler with
  | Some p => alter (fun t => t +:+ text) p ls
  | None => ls
  end.

Definition append_error_log (text : string) : M unit :=
  fun w =>
    (Ret tt,
     {| now := now w; files := files w;
        logs := append_to (err_handler w) text (logs w);
        err_handler := err_handler w; trace := trace w |}).

Arguments bind {A B} m k w /.
Arguments ret {A} a w /.
Arguments raise {A} e w /.
Arguments sys_exit {A} code w /.
Arguments try_except {A} m h w /.
Arguments when b m /.
Arguments tick w /.
Arguments emit ev w /.
Arguments index {A} xs i /.
Arguments write_text path text w /.
Arguments file_exists path w /.
Arguments unlink path w /.
Arguments read_text path w /.
Arguments log_read_text path w /.
Arguments log_exists path w /.
Arguments log_size path /.
Arguments log_unlink path w /.
Arguments open_error_handler path w /.
Arguments append_error_log text w /.

(** ** The script *)

Section Script.

Variable E : env.

(** *** Clock, logger and vendor calls *)

(** [time.strftime("%Y%m%d%H%M%S")] *)
Definition strftime : M string :=
  let* t := tick in ret (clock E t).

(** [logger.info], [logger.warning], [logger.error]: the record is emitted
    (console and persistent log), and an ERROR record is appended, rendered,
    to the file of the ERROR-only handler. *)
Definition log (lvl : level) (msg : string) (exc_info : bool) : M unit :=
  let* t := tick in
  let* _ := emit (EvLog lvl msg) in
  match lvl with
  | ERROR => append_error_log (render E t lvl msg exc_info)
  | _ => ret tt
  end.

Definition of_answer {A} (r : exn + A) : M A :=
  match r with inl e => raise e | inr a => ret a end.

Definition of_status (r : option exn) : M unit :=
  match r with Some e => raise e | None => ret tt end.

(** [oci.auth.signers.InstancePrincipalsSecurityTokenSigner()] *)
Definition InstancePrincipalsSecurityTokenSigner : M unit :=
  let* t := tick in
  let r := new_signer E t in
  let* _ := emit (EvSigner r) in
  of_status r.

(** [oci.config.from_file(str(path), profile_name="REGION")]: the
    configuration is identified with the text of the file. *)
Definition config_from_file (path : string) : M string := read_text path.

Definition client_get_dr_protection_group (client : string)
    (id : option string) : M drpg :=
  let* t := tick in
  let r := get_dr_protection_group E t client id in
  let* _ := emit (EvGetDrpg client id r) in
  of_answer r.

Definition client_list_dr_plans (client id : string)
    (lifecycle_state : option string) : M (list plan) :=
  let* t := tick in
  let r := list_dr_plans E t client id lifecycle_state in
  let* _ := emit (EvListPlans client id lifecycle_state r) in
  of_answer r.

Definition client_create_dr_plan_execution (client plan_id : string)
    (opts : precheck_options) : M execution :=
  let* t := tick in
  let r := create_dr_plan_execution E t client plan_id opts in
  let* _ := emit (EvCreateExecution client plan_id opts r) in
  of_answer r.

Definition client_get_dr_plan_execution (client id : string) : M execution :=
  let* t := tick in
  let r := get_dr_plan_execution E t client id in
  let* _ := emit (EvGetExecution client id r) in
  of_answer r.

Definition oci_wait_until (client : string) (on : waitable)
    (property state : string) : M unit :=
  let* t := tick in
  let r := wait_until E t client on property state in
  let* _ := emit (EvWaitUntil client on property state r) in
  of_status r.

Definition client_publish_message (client topic body title : string) : M unit :=
  let* t := tick in
  let r := publish_message E t client topic body title in
  let* _ := emit (EvPublish client topic body title r) in
  of_status r.

(** *** [setup_logger] (the persistent log and the console are the [EvLog]
    events of the trace) *)
Definition setup_logger (drpg_ocid base_dir : string) : M string :=
  let logs_dir := path_join base_dir "logs" in
  let* timestamp := strftime in
  let error_log :=
    path_join logs_dir (drpg_ocid +:+ "_" +:+ timestamp +:+ "_error.log") in
  let* _ := open_error_handler error_log in
  ret error_log.

(** *** [prepare_region_file] *)
Definition region_config (region : string) : string :=
  "[REGION]" +:+ nl +:+ "region = " +:+ region +:+ nl.

Definition prepare_region_file (region base_dir ocid : string) : M string :=
  let* timestamp := strftime in
  let region_file := path_join base_dir (ocid +:+ "." +:+ timestamp) in
  let* _ := write_text region_file (region_config region) in
  ret region_file.

(** *** [get_drpg_details] *)
Definition get_drpg_details (drpg_ocid : option string) (client : string)
    : M (option drpg) :=
  try_except
    (let* r := client_get_dr_protection_group client drpg_ocid in
     ret (Some r))
    (fun e =>
       let* _ :=
         match e with
         | ServiceError message _ =>
             log ERROR ("Service error: " +:+ message) true
         | OtherError _ _ =>
             log ERROR ("Unexpected error: " +:+ exn_str e) true
         end in
       ret None).

(** *** [list_active_dr_plans] *)

Definition transitional_states : gset string :=
  {[ "CREATING"; "UPDATING"; "DELETING" ]}.

Definition is_transitional (state : string) : bool :=
  bool_decide (state ∈ transitional_states).

(** What the function returns: a lifecycle state ([str]), the list of the
    active plans, or [None]. *)
Inductive plans_result :=
| PlansState (state : string)
| PlansList (items : list plan)
| PlansNone.

(** The [for plan in all_dr_plans.data.items] loop; [Some state] is its
    [return plan.lifecycle_state]. *)
Fixpoint scan_transitional (items : list plan) : M (option string) :=
  match items with
  | [] => ret None
  | plan :: items' =>
      if is_transitional (plan_lifecycle_state plan)
      then
        let* _ := log ERROR ("Found transitional plan: " +:+ plan_display_name plan
                             +:+ " in state " +:+ plan_lifecycle_state plan) false in
        ret (Some (plan_lifecycle_state plan))
      else scan_transitional items'
  end.

Definition list_active_dr_plans (drpg_ocid client : string) : M plans_result :=
  try_except
    (let* all_dr_plans := client_list_dr_plans client drpg_ocid None in
     let* found := scan_transitional all_dr_plans in
     match found with
     | Some state => ret (PlansState state)
     | None =>
         let* active_plans := client_list_dr_plans client drpg_ocid (Some "ACTIVE") in
         let* _ := log INFO ("Found " +:+ pretty (length active_plans)
                             +:+ " active DR plans.") false in
         ret (PlansList active_plans)
     end)
    (fun e =>
       let* _ := log ERROR ("Failed to list DR plans: " +:+ exn_str e) true in
       ret PlansNone).

(** *** [send_notification] *)

Definition notification_body (drpg_name drpg_ocid log_text : string) : string :=
  drpg_name +:+ ": " +:+ drpg_ocid +:+ nl +:+ nl +:+ log_text.

Definition notification_subject (drpg_name drpg_ocid : string) : string :=
  "FSDR Precheck Failed for " +:+ drpg_name +:+ " - " +:+ drpg_ocid.

(** The body of the [try] block. *)
Definition send_notification_try (drpg_name drpg_ocid topic_ocid error_log
    base_dir : string) : M unit :=
  let* log_text := log_read_text error_log in
  let content := notification_body drpg_name drpg_ocid log_text in
  let* topic_region_code := index (split "." topic_ocid) 3 in
  let region := normalize_region topic_region_code in
  match nonempty region with
  | None =>
      let* _ := log ERROR "Unable to determine valid region for the topic." false in
      sys_exit 1
  | Some region =>
      let* region_file := prepare_region_file region base_dir topic_ocid in
      let* config := config_from_file region_file in
      let client := config in
      let subject := notification_subject drpg_name drpg_ocid in
      let* _ := client_publish_message client topic_ocid content subject in
      unlink region_file
  end.

Definition send_notification (drpg_name drpg_ocid topic_ocid error_log
    base_dir : string) : M unit :=
  try_except
    (send_notification_try drpg_name drpg_ocid topic_ocid error_log base_dir)
    (fun e => log ERROR ("Failed to send notification: " +:+ exn_str e) true).

(** *** [run_prechecks] *)

(** [len(dr_plans)] *)
Definition py_len (v : plans_result) : M nat :=
  match v with
  | PlansState state => ret (String.length state)
  | PlansList items => ret (length items)
  | PlansNone => raise (TypeError "object of type 'NoneType' has no len()")
  end.

(** [normalize_region(peer_region)]: [REGION_PATTERN.match(None)] raises. *)
Definition normalize_region_py (region : option string) : M (option string) :=
  match region with
  | Some r => ret (normalize_region r)
  | None => raise (TypeError "expected string or bytes-like object")
  end.

(** The block
    [region_file.unlink(); if topic_ocid: send_notification(...); sys.exit(1)]
    of lines 208-211, 219-222, 238-241, 251-254, 260-263 and 267-270. *)
Definition release_notify_exit {A} (region_file drpg_name drpg_ocid : string)
    (topic_ocid : option string) (error_log base_dir : string) : M A :=
  let* _ := unlink region_file in
  let* _ :=
    match nonempty topic_ocid with
    | Some topic => send_notification drpg_name drpg_ocid topic error_log base_dir
    | None => ret tt
    end in
  sys_exit 1.

(** Lines 273-302: the body of [for plan in dr_plans]. *)
Definition precheck_plan (standby_ocid dr_client : string) (plan : plan) : M unit :=
  let* ty :=
    match DrPlanType_lookup (plan_type plan) with
    | Some t => ret t
    | None => raise (ValueError ("'" +:+ plan_type plan +:+ "' is not a valid DrPlanType"))
    end in
  let* _ := log INFO ("Running precheck for " +:+ DrPlanType_value ty
                      +:+ " plan: " +:+ plan_display_name plan) false in
  let* options :=
    if DrPlanType_eqb ty SWITCHOVER
    then ret SwitchoverPrecheckExecutionOptionDetails
    else if DrPlanType_eqb ty FAILOVER
    then ret FailoverPrecheckExecutionOptionDetails
    else if DrPlanType_eqb ty START_DRILL
    then ret StartDrillPrecheckExecutionOptionDetails
    else if DrPlanType_eqb ty STOP_DRILL
    then ret StopDrillPrecheckExecutionOptionDetails
    else
      let* _ := log ERROR ("Unknown plan type: " +:+ plan_type plan) false in
      sys_exit 1 in
  let* execution := client_create_dr_plan_execution dr_client (plan_id plan) options in
  let* started := client_get_dr_plan_execution dr_client (execution_id execution) in
  let* _ := oci_wait_until dr_client (WExecution started) "lifecycle_state" "IN_PROGRESS" in
  let* group := get_drpg_details (Some standby_ocid) dr_client in
  let* _ :=
    match group with
    | Some d => oci_wait_until dr_client (WDrpg d) "lifecycle_state" "ACTIVE"
    | None => raise (AttributeError "'NoneType' object has no attribute 'data'")
    end in
  let* final_status := client_get_dr_plan_execution dr_client (execution_id execution) in
  if String.eqb (execution_lifecycle_state final_status) "SUCCEEDED"
  then log INFO ("Precheck passed: " +:+ plan_display_name plan) false
  else log ERROR ("Precheck failed: " +:+ plan_display_name plan) false.

Fixpoint precheck_plans (standby_ocid dr_client : string) (dr_plans : list plan)
    : M unit :=
  match dr_plans with
  | [] => ret tt
  | plan :: rest =>
      let* _ := precheck_plan standby_ocid dr_client plan in
      precheck_plans standby_ocid dr_client rest
  end.

(** Lines 304-310. *)
Definition finalize (topic_ocid : option string) (error_log base_dir region_file
    standby_name standby_ocid : string) : M unit :=
  let* present := log_exists error_log in
  let* size := if present then log_size error_log else ret 0 in
  let* _ :=
    match nonempty topic_ocid with
    | Some topic =>
        when (present && Nat.ltb 0 size)
          (send_notification standby_name standby_ocid topic error_log base_dir)
    | None => ret tt
    end in
  let* there := file_exists region_file in
  let* _ := when there (unlink region_file) in
  let* still := log_exists error_log in
  when still (log_unlink error_log).

(** Lines 265-310: the dispatch on the type of [dr_plans]. *)
Definition process_plans (topic_ocid : option string) (error_log base_dir
    region_file dr_client standby_name standby_ocid : string)
    (dr_plans : plans_result) : M unit :=
  match dr_plans with
  | PlansState state =>
      let* _ := log ERROR ("First transitional state found: " +:+ state) false in
      release_notify_exit region_file standby_name standby_ocid topic_ocid
        error_log base_dir
  | PlansList items =>
      let* _ := precheck_plans standby_ocid dr_client items in
      finalize topic_ocid error_log base_dir region_file standby_name standby_ocid
  | PlansNone => ret tt
  end.

(** Lines 243-310: everything after the standby view is fixed. *)
Definition precheck_standby (topic_ocid : option string) (error_log base_dir
    region_file dr_client : string) (standby : drpg) : M unit :=
  let standby_ocid := drpg_id standby in
  let standby_name := drpg_display_name standby in
  let standby_state := drpg_lifecycle_state standby in
  let* _ := log INFO ("Standby DRPG: " +:+ standby_name +:+ " (" +:+ standby_ocid
                      +:+ ") is " +:+ standby_state) false in
  let* _ :=
    if negb (String.eqb standby_state "ACTIVE")
    then
      let* _ := log ERROR "Standby DRPG is not active." false in
      release_notify_exit region_file standby_name standby_ocid topic_ocid
        error_log base_dir
    else ret tt in
  let* dr_plans := list_active_dr_plans standby_ocid dr_client in
  let* n := py_len dr_plans in
  let* _ :=
    if Nat.eqb n 0
    then
      let* _ := log ERROR ("No Active DR plans found in " +:+ standby_name +:+ ".") false in
      release_notify_exit region_file standby_name standby_ocid topic_ocid
        error_log base_dir
    else ret tt in
  process_plans topic_ocid error_log base_dir region_file dr_client
    standby_name standby_ocid dr_plans.

(** Lines 224-241: the [if role == "PRIMARY"] block; it yields the new
    [region_file], [dr_client] and [drpg]. *)
Definition switch_to_peer (topic_ocid : option string) (error_log base_dir
    region_file : string) (primary : drpg) : M (string * string * drpg) :=
  let peer_ocid := drpg_peer_id primary in
  let peer_region := drpg_peer_region primary in
  let* _ := log WARNING "DRPG is PRIMARY, switching to PEER." false in
  let* _ := unlink region_file in
  let* region := normalize_region_py peer_region in
  match nonempty region with
  | None =>
      let* _ := log ERROR "Unknown peer region." false in
      let* _ := unlink region_file in
      sys_exit 1
  | Some region =>
      let* region_file := prepare_region_file region base_dir (py_str peer_ocid) in
      let* config := config_from_file region_file in
      let dr_client := config in
      let* peer := get_drpg_details peer_ocid dr_client in
      match peer with
      | None =>
          let* _ := log ERROR "Failed to get peer DRPG details." false in
          release_notify_exit region_file EmptyString (py_str peer_ocid) topic_ocid
            error_log base_dir
      | Some peer => ret (region_file, dr_client, peer)
      end
  end.

Definition run_prechecks (drpg_ocid : string) (topic_ocid : option string)
    (base_dir : string) : M unit :=
  let* error_log := setup_logger drpg_ocid base_dir in
  let* _ :=
    when (negb (is_valid_ocid drpg_ocid DRPG_OCID_PATTERN))
      (let* _ := log ERROR ("Invalid DRPG OCID format: " +:+ drpg_ocid) false in
       sys_exit 1) in
  let* _ :=
    match nonempty topic_ocid with
    | Some topic =>
        when (negb (is_valid_ocid topic TOPIC_OCID_PATTERN))
          (let* _ := log ERROR ("Invalid Notification Topic OCID format: "
                                +:+ topic) false in
           sys_exit 1)
    | None => ret tt
    end in
  let* region_code := index (split "." drpg_ocid) 3 in
  match nonempty (normalize_region region_code) with
  | None =>
      let* _ := log ERROR "Unable to determine region for DRPG." false in
      sys_exit 1
  | Some region =>
      let* region_file := prepare_region_file region base_dir drpg_ocid in
      let* _ := InstancePrincipalsSecurityTokenSigner in
      let* config := config_from_file region_file in
      let dr_client := config in
      let* fetched := get_drpg_details (Some drpg_ocid) dr_client in
      match fetched with
      | None =>
          release_notify_exit region_file EmptyString drpg_ocid topic_ocid error_log base_dir
      | Some group =>
          let role := drpg_role group in
          let* _ :=
            if String.eqb role "UNCONFIGURED"
            then
              let* _ := log ERROR "DRPG is unconfigured." false in
              release_notify_exit region_file (drpg_display_name group) drpg_ocid
                topic_ocid error_log base_dir
            else ret tt in
          let* (region_file, dr_client, standby) :=
            if String.eqb role "PRIMARY"
            then switch_to_peer topic_ocid error_log base_dir region_file group
            else ret (region_file, dr_client, group) in
          precheck_standby topic_ocid error_log base_dir region_file dr_client standby
      end
  end.

End Script.

Arguments strftime E /.
Arguments log E lvl msg exc_info /.
Arguments of_answer {A} r /.
Arguments of_status r /.
Arguments InstancePrincipalsSecurityTokenSigner E /.
Arguments config_from_file path /.
Arguments client_get_dr_protection_group E client id /.
Arguments client_list_dr_plans E client id lifecycle_state /.
Arguments client_create_dr_plan_execution E client plan_id opts /.
Arguments client_get_dr_plan_execution E client id /.
Arguments oci_wait_until E client on property state /.
Arguments client_publish_message E client topic body title /.
Arguments setup_logger E drpg_ocid base_dir /.
Arguments prepare_region_file E region base_dir ocid /.
Arguments get_drpg_details E drpg_ocid client /.
Arguments py_len v /.
Arguments normalize_region_py region /.

(** The process: the interpreter runs [run_prechecks] and turns its outcome
    into an exit status. *)
Definition initial_world : world :=
  {| now := 0; files := ∅; logs := ∅; err_handler := None; trace := [] |}.

(** ** Vocabulary of the statements *)

(** *** The languages of the patterns, spelled out *)

Fixpoint str_all (f : ascii -> bool) (s : string) : bool :=
  match s with
  | EmptyString => true
  | String c s' => f c && str_all f s'
  end.

Definition within (hi : option nat) (n : nat) : Prop :=
  match hi with None => True | Some h => n <= h end.

Definition after (bos : bool) (a : string) : bool :=
  match a with EmptyString => bos | String _ _ => false end.

Definition dot_free (x : string) : Prop := ~ In "."%char (list_ascii_of_string x).

(** One dot-delimited segment: not empty, no dot. *)
Definition segment (x : string) : Prop := x <> EmptyString /\ dot_free x.

(** The identifier shape: the fixed prefix, then three segments. *)
Definition ocid_shape (prefix s : string) : Prop :=
  exists a b c, s = prefix +:+ a +:+ "." +:+ b +:+ "." +:+ c /\
    segment a /\ segment b /\ segment c.

Definition is_lower_alnum (c : ascii) : bool := Re.accepts lower_alnum c.
Definition is_digit (c : ascii) : bool := Re.accepts Re.Digit c.

(** The canonical region shape, as [REGION_PATTERN] accepts it: two
    characters of [[a-z0-9]], a dash, one or more of [[a-z0-9]], a dash, one
    digit, and whatever [$] tolerates after it (nothing, or one newline). *)
Definition region_shape (s : string) : Prop :=
  exists a w d tail, s = a +:+ "-" +:+ w +:+ "-" +:+ String d tail /\
    String.length a = 2 /\ str_all is_lower_alnum a = true /\
    w <> EmptyString /\ str_all is_lower_alnum w = true /\
    is_digit d = true /\ (tail = EmptyString \/ tail = nl).

(** *** Observations on traces *)

(** Events that are no call to the disaster-recovery service. *)
Definition quiet (ev : event) : Prop :=
  match ev with
  | EvLog _ _ | EvPublish _ _ _ _ _ => True
  | _ => False
  end.

Definition is_publish (ev : event) : bool :=
  match ev with EvPublish _ _ _ _ _ => true | _ => false end.

Definition created_of (ev : event) : option string :=
  match ev with EvCreateExecution _ p _ _ => Some p | _ => None end.

(** The plans for which an execution was requested, in the order of the
    requests. *)
Definition created (tr : list event) : list string := omap created_of (rev tr).

Definition fetch_of (ev : event) : option (string * option string * (exn + drpg)) :=
  match ev with EvGetDrpg cfg id r => Some (cfg, id, r) | _ => None end.

(** The protection-group fetches, first to last. *)
Definition fetches (tr : list event) : list (string * option string * (exn + drpg)) :=
  omap fetch_of (rev tr).

(** A path that [prepare_region_file] can give the notifier. *)
Definition notifier_file (base_dir topic p : string) : Prop :=
  exists ts, p = path_join base_dir (topic +:+ "." +:+ ts).

(** The region segment of the topic identifier resolves. *)
Definition topic_region_known (topic : string) : Prop :=
  exists code r, split "." topic !! 3 = Some code /\
    nonempty (normalize_region code) = Some r.

(** The first plan in a transitional state, by the words of the spec. *)
Definition first_transitional (items : list plan) : option plan :=
  find (fun p => is_transitional (plan_lifecycle_state p)) items.

(** Events of the orchestrator before the standby view is fixed. *)
Definition head_event (ev : event) : Prop :=
  match ev with
  | EvLog _ _ | EvPublish _ _ _ _ _ | EvSigner _ | EvGetDrpg _ _ _ => True
  | _ => False
  end.

(** Events of the plan loop, run with client [client] on group [sid]. *)
Definition loop_event (sid client : string) (ev : event) : Prop :=
  match ev with
  | EvLog _ _ => True
  | EvCreateExecution cfg _ _ _ | EvGetExecution cfg _ _
  | EvWaitUntil cfg _ _ _ _ => cfg = client
  | EvGetDrpg cfg id _ => cfg = client /\ id = Some sid
  | _ => False
  end.

(** Events of everything that follows the choice of the standby view. *)
Definition dr_event (sid client : string) (ev : event) : Prop :=
  match ev with
  | EvLog _ _ | EvPublish _ _ _ _ _ => True
  | EvListPlans cfg id _ _ => cfg = client /\ id = sid
  | EvCreateExecution cfg _ _ _ | EvGetExecution cfg _ _
  | EvWaitUntil cfg _ _ _ _ => cfg = client
  | EvGetDrpg cfg id _ => cfg = client /\ id = Some sid
  | EvSigner _ => False
  end.

(** What the notifier may add to the trace, [text] being what the error log
    held when it was called. *)
Definition notifier_event (name id topic : string) (text : option string)
    (ev : event) : Prop :=
  match ev with
  | EvLog _ _ => True
  | EvPublish _ t b ti _ =>
      t = topic /\ exists tx, text = Some tx /\
        b = notification_body name id tx /\ ti = notification_subject name id
  | _ => False
  end.

(** Every file left is a configuration written by the notifier. *)
Definition only_notifier_files (base_dir : string) (topic : option string)
    (fs : gmap string string) : Prop :=
  forall p, is_Some (fs !! p) ->
    exists t, nonempty topic = Some t /\ notifier_file base_dir t p.

(** After the first fetch, the run works on the peer [group] points to, in
    region [r]: the second fetch asks for the peer with the configuration of
    [r]; every plan listing is made with that configuration on the group the
    second fetch returned, which was ACTIVE; so is every execution call and
    every later fetch. *)
Definition served_by_peer (group : drpg) (r : string) (tr : list event) : Prop :=
  exists answer,
    fetches tr !! 1 = Some (region_config r, drpg_peer_id group, answer) /\
    (forall ev, In ev tr ->
       match ev with
       | EvListPlans cfg id _ _ =>
           cfg = region_config r /\
           exists peer, answer = inr peer /\ id = drpg_id peer /\
             drpg_lifecycle_state peer = "ACTIVE"
       | EvCreateExecution cfg _ _ _ | EvGetExecution cfg _ _
       | EvWaitUntil cfg _ _ _ _ => cfg = region_config r
       | _ => True
       end) /\
    (forall i f, 2 <= i -> fetches tr !! i = Some f ->
       exists peer a, answer = inr peer /\
         f = (region_config r, Some (drpg_id peer), a)).

(** *** Summaries of the calls, used by the proofs

    What one call of [send_notification] does to the world. *)
Definition notifier_post (name id topic el base : string) (w : world)
    (o : outcome unit) (w' : world) : Prop :=
  (o = Ret tt \/ o = Exit 1%Z) /\
  (exists evs, trace w' = evs ++ trace w /\
     Forall (notifier_event name id topic (logs w !! el)) evs /\
     (is_Some (logs w !! el) -> topic_region_known topic ->
      exists cfg b ti r, In (EvPublish cfg topic b ti r) evs)) /\
  (forall p, is_Some (files w' !! p) ->
     is_Some (files w !! p) \/ notifier_file base topic p) /\
  err_handler w' = err_handler w /\
  (forall p, is_Some (logs w' !! p) <-> is_Some (logs w !! p)) /\
  (o = Exit 1%Z -> ~ topic_region_known topic).

(** The four ways [list_active_dr_plans] ends, with the events of each. *)
Definition listing_case (id client : string) (res : plans_result)
    (evs : list event) : Prop :=
  (exists e, res = PlansNone /\
     evs = [EvLog ERROR ("Failed to list DR plans: " +:+ exn_str e);
            EvListPlans client id None (inl e)]) \/
  (exists items p msg, res = PlansState (plan_lifecycle_state p) /\
     first_transitional items = Some p /\
     evs = [EvLog ERROR msg; EvListPlans client id None (inr items)]) \/
  (exists items e, res = PlansNone /\ first_transitional items = None /\
     evs = [EvLog ERROR ("Failed to list DR plans: " +:+ exn_str e);
            EvListPlans client id (Some "ACTIVE") (inl e);
            EvListPlans client id None (inr items)]) \/
  (exists items active msg, res = PlansList active /\
     first_transitional items = None /\
     evs = [EvLog INFO msg; EvListPlans client id (Some "ACTIVE") (inr active);
            EvListPlans client id None (inr items)]).

(** What [precheck_standby] guarantees, [evs] being the events it adds. *)
Definition tail_post (topic : option string) (el base rf client : string)
    (standby : drpg) (w : world) (o : outcome unit) (w' : world)
    (evs : list event) : Prop :=
  Forall (dr_event (drpg_id standby) client) evs /\
  ((exists cfg id lc r, In (EvListPlans cfg id lc r) evs) ->
     drpg_lifecycle_state standby = "ACTIVE") /\
  (forall cfg id lc e, In (EvListPlans cfg id lc (inl e)) evs ->
     o = Raise (TypeError "object of type 'NoneType' has no len()") /\
     files w' = files w /\
     Forall (fun ev => is_publish ev = false) evs /\
     In (EvLog ERROR ("Failed to list DR plans: " +:+ exn_str e)) evs) /\
  (forall cfg id pre p post,
     In (EvListPlans cfg id (Some "ACTIVE") (inr (pre ++ p :: post))) evs ->
     DrPlanType_lookup (plan_type p) = None ->
     (exists e, o = Raise e) /\
     exists k, k <= length pre /\
       omap created_of (rev evs) = map plan_id (take k pre)) /\
  (forall c, o = Exit c ->
     c = 1%Z /\
     ((forall t, nonempty topic = Some t -> topic_region_known t) ->
      (forall p, is_Some (files w' !! p) ->
         (p <> rf /\ is_Some (files w !! p)) \/
         exists t, nonempty topic = Some t /\ notifier_file base t p) /\
      (forall t, nonempty topic = Some t ->
         exists cfg b ti r, In (EvPublish cfg t b ti r) evs))).

(** The run ended before the standby view was fixed. *)
Definition head_stop (topic : option string) (base : string) (w0 : world)
    (o : outcome unit) (w' : world) : Prop :=
  Forall head_event (trace w') /\
  (forall c, o = Exit c ->
     c = 1%Z /\
     (fetches (trace w') = [] ->
        files w' = files w0 /\
        Forall (fun ev => is_publish ev = false) (trace w')) /\
     (fetches (trace w') <> [] -> files w0 = ∅ ->
        (forall t, nonempty topic = Some t -> topic_region_known t) ->
        only_notifier_files base topic (files w') /\
        forall t, nonempty topic = Some t ->
          exists cfg b ti r, In (EvPublish cfg t b ti r) (trace w'))) /\
  (forall cfg0 id0 group pr r,
     fetches (trace w') !! 0 = Some (cfg0, id0, inr group) ->
     drpg_role group = "PRIMARY" -> drpg_peer_region group = Some pr ->
     normalize_region pr = Some r -> served_by_peer group r (trace w')).

(** The run fixed its standby view and went on with [precheck_standby]. *)
Definition tail_entered (E : env) (drpg_ocid : string) (topic : option string)
    (base : string) (w0 : world) (o : outcome unit) (w' : world) : Prop :=
  exists el rf client standby w1,
    precheck_standby E topic el base rf client standby w1 = (o, w') /\
    is_Some (files w1 !! rf) /\ is_Some (logs w1 !! el) /\
    (files w0 = ∅ -> forall p, is_Some (files w1 !! p) -> p = rf) /\
    ((exists cfg0,
        trace w1 = [EvGetDrpg cfg0 (Some drpg_ocid) (inr standby); EvSigner None] /\
        client = cfg0 /\ drpg_role standby <> "PRIMARY") \/
     (exists cfg0 group pr r,
        trace w1 = [EvGetDrpg (region_config r) (drpg_peer_id group) (inr standby);
                    EvLog WARNING "DRPG is PRIMARY, switching to PEER.";
                    EvGetDrpg cfg0 (Some drpg_ocid) (inr group); EvSigner None] /\
        client = region_config r /\ drpg_role group = "PRIMARY" /\
        drpg_peer_region group = Some pr /\
        nonempty (normalize_region pr) = Some r)).

(** ** Scripted environments for the examples *)

Module Demo.

Definition drpg_ocid : string := "ocid1.drprotectiongroup.oc1.iad.aaaa".
Definition peer_ocid : string := "ocid1.drprotectiongroup.oc1.phx.bbbb".
Definition topic_ocid : string := "ocid1.onstopic.oc1.phx.tttt".
(** A topic whose region segment is a short code outside [REGION_MAPPING]. *)
Definition far_topic_ocid : string := "ocid1.onstopic.oc1.fra.tttt".
Definition base_dir : string := "/opt/fsdr".

Definition group (id name role state : string) (peer : option (string * string))
    : drpg :=
  {| drpg_id := id; drpg_display_name := name; drpg_role := role;
     drpg_lifecycle_state := state;
     drpg_peer_id := fst <$> peer; drpg_peer_region := snd <$> peer |}.

Definition standby_group : drpg :=
  group drpg_ocid "app-standby" "STANDBY" "ACTIVE" (Some (peer_ocid, "us-phoenix-1")).
Definition primary_group : drpg :=
  group drpg_ocid "app-primary" "PRIMARY" "ACTIVE" (Some (peer_ocid, "phx")).
Definition peer_group : drpg :=
  group peer_ocid "app-peer" "STANDBY" "ACTIVE" (Some (drpg_ocid, "us-ashburn-1")).
Definition unconfigured_group : drpg :=
  group drpg_ocid "app-new" "UNCONFIGURED" "ACTIVE" None.

Definition a_plan (id name type : string) : plan :=
  {| plan_id := id; plan_display_name := name; plan_type := type;
     plan_lifecycle_state := "ACTIVE" |}.

Definition switchover_plan : plan := a_plan "plan-1" "switch" "SWITCHOVER".
Definition failover_plan : plan := a_plan "plan-2" "fail" "FAILOVER".
Definition odd_plan : plan := a_plan "plan-3" "migrate" "MIGRATION".
Definition updating_plan : plan :=
  {| plan_id := "plan-4"; plan_display_name := "drill"; plan_type := "START_DRILL";
     plan_lifecycle_state := "UPDATING" |}.

Definition unavailable : exn :=
  ServiceError "Service unavailable" "{'status': 503, 'message': 'Service unavailable'}".

(** An environment that answers by argument only: [fetch] by identifier,
    [listing] by lifecycle filter, [publish] always the same. *)
Definition scripted (fetch : option string -> exn + drpg)
    (listing : option string -> exn + list plan) (publish : option exn) : env :=
  {| clock := fun _ => "20250101120000";
     render := fun _ _ msg _ => msg +:+ nl;
     new_signer := fun _ => None;
     get_dr_protection_group := fun _ _ id => fetch id;
     list_dr_plans := fun _ _ _ lifecycle => listing lifecycle;
     create_dr_plan_execution := fun _ _ plan _ =>
       inr {| execution_id := "exec-" +:+ plan;
              execution_lifecycle_state := "ACCEPTED" |};
     get_dr_plan_execution := fun _ _ id =>
       inr {| execution_id := id; execution_lifecycle_state := "SUCCEEDED" |};
     wait_until := fun _ _ _ _ _ => None;
     publish_message := fun _ _ _ _ _ => publish |}.

(** A standby group with the plans [plans], all ACTIVE. *)
Definition standby_with (plans : list plan) (publish : option exn) : env :=
  scripted (fun _ => inr standby_group) (fun _ => inr plans) publish.

(** An UNCONFIGURED group. *)
Definition unconfigured (publish : option exn) : env :=
  scripted (fun _ => inr unconfigured_group) (fun _ => inr []) publish.

(** A standby group whose plans cannot be listed. *)
Definition listing_fails : env :=
  scripted (fun _ => inr standby_group) (fun _ => inl unavailable) None.

(** A PRIMARY group and its peer in Phoenix. *)
Definition primary_with_peer (plans : list plan) : env :=
  scripted
    (fun id => if bool_decide (id = Some peer_ocid) then inr peer_group
               else inr primary_group)
    (fun _ => inr plans) None.

(** A world in which the error log of the run exists and holds [text]. *)
Definition with_error_log (path text : string) : world :=
  {| now := 0; files := ∅; logs := {[ path := text ]};
     err_handler := Some path; trace := [] |}.

End Demo.

(** ** Vocabulary of the further properties *)

(** [sep.join(pieces)] for a one-character separator. *)
Fixpoint join (sep : ascii) (pieces : list string) : string :=
  match pieces with
  | [] => EmptyString
  | [x] => x
  | x :: rest => x +:+ String sep (join sep rest)
  end.

(** The string holds no occurrence of [c]. *)
Definition free_of (c : ascii) (x : string) : Prop :=
  ~ In c (list_ascii_of_string x).

(** ** The handlers of the logger

    Level numbers of the [logging] module. *)
Definition levelno (l : level) : Z :=
  match l with INFO => 20 | WARNING => 30 | ERROR => 40 end.

(** [logger.setLevel(logging.DEBUG)] *)
Definition logger_level : Z := 10.

(** [class LevelFilter(logging.Filter)], with the level it is built for. *)
Record LevelFilter := { LevelFilter_level : Z }.

(** [LevelFilter.filter(record)], on the level number of the record. *)
Definition LevelFilter_filter (self : LevelFilter) (record_levelno : Z) : bool :=
  Z.eqb record_levelno (LevelFilter_level self).

Inductive sink := AllLog | ErrorLog | Console.

Record handler := {
  handler_sink : sink;
  handler_level : Z;
  handler_filters : list LevelFilter;
}.

Definition fh_all : handler :=
  {| handler_sink := AllLog; handler_level := levelno INFO; handler_filters := [] |}.
Definition fh_error : handler :=
  {| handler_sink := ErrorLog; handler_level := levelno ERROR;
     handler_filters := [ {| LevelFilter_level := levelno ERROR |} ] |}.
Definition ch : handler :=
  {| handler_sink := Console; handler_level := levelno INFO; handler_filters := [] |}.

(** The handlers [setup_logger] leaves on the logger (lines 69-90). *)
Definition setup_logger_handlers : list handler := [fh_all; fh_error; ch].

(** Whether a record of level number [n] handed to the logger is emitted by
    the handler: the logger is enabled for [n], [n] reaches the level of the
    handler, and every filter of the handler keeps the record. *)
Definition handler_emits (h : handler) (n : Z) : bool :=
  (logger_level <=? n)%Z && (handler_level h <=? n)%Z &&
  forallb (fun f => LevelFilter_filter f n) (handler_filters h).

(** The sinks a record of level number [n] is written to. *)
Definition sinks_of (n : Z) : list sink :=
  map handler_sink (List.filter (fun h => handler_emits h n) setup_logger_handlers).

(** *** Observations on the plan loop *)

(** The options lines 276-283 build for a plan type. *)
Definition options_for (t : DrPlanType) : precheck_options :=
  match t with
  | SWITCHOVER => SwitchoverPrecheckExecutionOptionDetails
  | FAILOVER => FailoverPrecheckExecutionOptionDetails
  | START_DRILL => StartDrillPrecheckExecutionOptionDetails
  | STOP_DRILL => StopDrillPrecheckExecutionOptionDetails
  end.

(** The execution request a plan calls for: its identifier with the options
    of its type; none when the type is outside the enumeration. *)
Definition request_of (p : plan) : option (string * precheck_options) :=
  option_map (fun t => (plan_id p, options_for t)) (DrPlanType_lookup (plan_type p)).

Definition request_ev (ev : event) : option (string * precheck_options) :=
  match ev with EvCreateExecution _ p opts _ => Some (p, opts) | _ => None end.

(** The execution requests made, first to last. *)
Definition requests (tr : list event) : list (string * precheck_options) :=
  omap request_ev (rev tr).

(** The exception a call of the plan loop ended with, for the calls the
    loop does not guard. *)
Definition failure_of (ev : event) : option exn :=
  match ev with
  | EvCreateExecution _ _ _ (inl e) | EvGetExecution _ _ (inl e) => Some e
  | EvWaitUntil _ _ _ _ (Some e) => Some e
  | _ => None
  end.

(** A fetch of the protection group that raised; [get_drpg_details] turns
    it into the absent value. *)
Definition failed_fetch (ev : event) : Prop :=
  exists cfg id e, ev = EvGetDrpg cfg id (inl e).

(** Why the plan loop can end with the exception [e]: a plan whose type is
    outside the enumeration, a call that raised [e], or a fetch of the group
    that came back absent. *)
Definition loop_breaker (plans : list plan) (evs : list event) (e : exn) : Prop :=
  (exists q, In q plans /\ DrPlanType_lookup (plan_type q) = None) \/
  exists ev, In ev evs /\ (failure_of ev = Some e \/ failed_fetch ev).

(** The line the loop logs for a plan whose precheck ran to its end. *)
Definition verdict (p : plan) (ev : event) : Prop :=
  ev = EvLog INFO ("Precheck passed: " +:+ plan_display_name p) \/
  ev = EvLog ERROR ("Precheck failed: " +:+ plan_display_name p).

(** *** The ways [precheck_standby] ends *)

(** The first line [precheck_standby] logs. *)
Definition standby_line (standby : drpg) : event :=
  EvLog INFO ("Standby DRPG: " +:+ drpg_display_name standby +:+ " ("
              +:+ drpg_id standby +:+ ") is " +:+ drpg_lifecycle_state standby).

(** What the block [unlink / notify if topic / sys.exit(1)] leaves behind,
    from a world [w] that holds the region file [rf]; [evN] are the events
    of the notifier. *)
Definition released (topic : option string) (el base rf : string)
    (w w' : world) (evN : list event) : Prop :=
  (forall p, is_Some (files w' !! p) ->
     (p <> rf /\ is_Some (files w !! p)) \/
     exists t, nonempty topic = Some t /\ notifier_file base t p) /\
  (forall p, is_Some (logs w' !! p) <-> is_Some (logs w !! p)) /\
  Forall quiet evN /\
  (nonempty topic = None -> evN = []) /\
  (forall t, nonempty topic = Some t -> topic_region_known t ->
     exists cfg b ti r, In (EvPublish cfg t b ti r) evN).

(** The two listing requests, most recent first, and the line before. *)
Definition listed (client : string) (standby : drpg) (items active : list plan)
    (msg : string) : list event :=
  [EvLog INFO msg;
   EvListPlans client (drpg_id standby) (Some "ACTIVE") (inr active);
   EvListPlans client (drpg_id standby) None (inr items);
   standby_line standby].

Definition len_of_None : exn := TypeError "object of type 'NoneType' has no len()".

(** The five ways [precheck_standby] ends, [evs] being the events it adds:
    the standby group is not ACTIVE; a listing request raised; a plan is in
    a transitional state; no plan is ACTIVE; the loop over the active plans
    was entered. *)
Definition standby_case (topic : option string) (el base rf client : string)
    (standby : drpg) (w : world) (o : outcome unit) (w' : world)
    (evs : list event) : Prop :=
  let sid := drpg_id standby in
  (drpg_lifecycle_state standby <> "ACTIVE" /\ o = Exit 1%Z /\
   exists evN,
     evs = evN ++ [EvLog ERROR "Standby DRPG is not active."; standby_line standby] /\
     released topic el base rf w w' evN) \/
  (drpg_lifecycle_state standby = "ACTIVE" /\ o = Raise len_of_None /\
   files w' = files w /\
   (forall p, is_Some (logs w' !! p) <-> is_Some (logs w !! p)) /\
   exists e,
     evs = [EvLog ERROR ("Failed to list DR plans: " +:+ exn_str e);
            EvListPlans client sid None (inl e); standby_line standby] \/
     exists items, first_transitional items = None /\
       evs = [EvLog ERROR ("Failed to list DR plans: " +:+ exn_str e);
              EvListPlans client sid (Some "ACTIVE") (inl e);
              EvListPlans client sid None (inr items); standby_line standby]) \/
  (drpg_lifecycle_state standby = "ACTIVE" /\ o = Exit 1%Z /\
   exists items p msg evN, first_transitional items = Some p /\
     evs = evN ++
       [EvLog ERROR ("First transitional state found: " +:+ plan_lifecycle_state p);
        EvLog ERROR msg; EvListPlans client sid None (inr items);
        standby_line standby] /\
     released topic el base rf w w' evN) \/
  (drpg_lifecycle_state standby = "ACTIVE" /\ o = Exit 1%Z /\
   exists items msg evN, first_transitional items = None /\
     evs = evN ++
       EvLog ERROR ("No Active DR plans found in " +:+ drpg_display_name standby +:+ ".")
       :: listed client standby items [] msg /\
     released topic el base rf w w' evN) \/
  (drpg_lifecycle_state standby = "ACTIVE" /\
   exists items active msg evL evF k,
     first_transitional items = None /\ active <> [] /\
     evs = evF ++ evL ++ listed client standby items active msg /\
     Forall (loop_event sid client) evL /\ Forall quiet evF /\
     k <= length active /\
     map Some (requests evL) = map request_of (take k active) /\
     (forall ev e, In ev evL -> failure_of ev = Some e ->
        o = Raise e /\ exists rest, evL = ev :: rest) /\
     (forall e, o = Raise e ->
        evF = [] /\ files w' = files w /\ loop_breaker active evL e /\
        forall p, is_Some (logs w' !! p) <-> is_Some (logs w !! p)) /\
     ((forall e, o <> Raise e) ->
        k = length active /\
        Forall (fun ev => failure_of ev = None) evL /\
        Forall (fun p => exists ev, In ev evL /\ verdict p ev) active /\
        (forall p, is_Some (files w' !! p) ->
           is_Some (files w !! p) \/
           exists t, nonempty topic = Some t /\ notifier_file base t p) /\
        ((o = Ret tt /\ files w' !! rf = None /\ logs w' !! el = None) \/
         (o = Exit 1%Z /\
          (exists t, nonempty topic = Some t /\ ~ topic_region_known t) /\
          forall p, is_Some (logs w' !! p) <-> is_Some (logs w !! p)))) /\
     (nonempty topic = None -> evF = [])).

(** *** The two parts of a run *)

(** The error log [setup_logger] opens for a run started in [w0]. *)
Definition error_log_of (E : env) (drpg_ocid base_dir : string) (w0 : world)
    : string :=
  path_join (path_join base_dir "logs")
    (drpg_ocid +:+ "_" +:+ clock E (now w0) +:+ "_error.log").

(** The run ended before the standby view was fixed: it did not return, its
    error log is still there; if the signer could not be built the run
    ended with that exception, before any fetch, leaving its region file;
    if a group was asked for, the request raised, or the group is
    UNCONFIGURED, both ending in [sys.exit(1)], or the group is PRIMARY; and
    without a topic nothing was published. *)
Definition stopped_early (E : env) (drpg_ocid : string) (topic : option string)
    (base : string) (w0 : world) (o : outcome unit) (w' : world) : Prop :=
  o <> Ret tt /\
  is_Some (logs w' !! error_log_of E drpg_ocid base w0) /\
  Forall head_event (trace w') /\
  (forall e, In (EvSigner (Some e)) (trace w') ->
     o = Raise e /\ trace w' = [EvSigner (Some e)] /\
     exists code region,
       split "." drpg_ocid !! 3 = Some code /\
       nonempty (normalize_region code) = Some region /\
       files w' = <[path_join base (drpg_ocid +:+ "." +:+ clock E (S (now w0)))
                    := region_config region]> (files w0)) /\
  (forall cfg id a, fetches (trace w') !! 0 = Some (cfg, id, a) ->
     match a with
     | inl _ => o = Exit 1%Z
     | inr group =>
         (drpg_role group = "UNCONFIGURED" /\ o = Exit 1%Z) \/
         drpg_role group = "PRIMARY"
     end) /\
  (nonempty topic = None -> Forall (fun ev => is_publish ev = false) (trace w')).

(** The run fixed its standby view, in world [w1], and went on with
    [precheck_standby]: on the group it fetched first, or, when that one is
    PRIMARY, on its peer. *)
Definition standby_entered (E : env) (drpg_ocid : string) (topic : option string)
    (base : string) (w0 : world) (o : outcome unit) (w' : world) : Prop :=
  exists rf client standby w1,
    precheck_standby E topic (error_log_of E drpg_ocid base w0) base rf client
      standby w1 = (o, w') /\
    is_Some (files w1 !! rf) /\
    is_Some (logs w1 !! error_log_of E drpg_ocid base w0) /\
    (files w0 = ∅ -> forall p, is_Some (files w1 !! p) -> p = rf) /\
    ((exists cfg0,
        trace w1 = [EvGetDrpg cfg0 (Some drpg_ocid) (inr standby); EvSigner None] /\
        client = cfg0 /\ drpg_role standby <> "PRIMARY" /\
        drpg_role standby <> "UNCONFIGURED") \/
     (exists cfg0 group pr r,
        trace w1 = [EvGetDrpg (region_config r) (drpg_peer_id group) (inr standby);
                    EvLog WARNING "DRPG is PRIMARY, switching to PEER.";
                    EvGetDrpg cfg0 (Some drpg_ocid) (inr group); EvSigner None] /\
        client = region_config r /\ drpg_role group = "PRIMARY" /\
        drpg_peer_region group = Some pr /\
        nonempty (normalize_region pr) = Some r)).

(** ** More scripted environments *)

Module Scenario.

(** [E] with every execution read back in state [state]. *)
Definition with_final_state (E : env) (state : string) : env :=
  {| clock := clock E; render := render E; new_signer := new_signer E;
     get_dr_protection_group := get_dr_protection_group E;
     list_dr_plans := list_dr_plans E;
     create_dr_plan_execution := create_dr_plan_execution E;
     get_dr_plan_execution := fun _ _ id =>
       inr {| execution_id := id; execution_lifecycle_state := state |};
     wait_until := wait_until E; publish_message := publish_message E |}.

(** [E] with a service that refuses to create executions. *)
Definition with_create_error (E : env) (e : exn) : env :=
  {| clock := clock E; render := render E; new_signer := new_signer E;
     get_dr_protection_group := get_dr_protection_group E;
     list_dr_plans := list_dr_plans E;
     create_dr_plan_execution := fun _ _ _ _ => inl e;
     get_dr_plan_execution := get_dr_plan_execution E;
     wait_until := wait_until E; publish_message := publish_message E |}.

(** [E] on a host without instance principal. *)
Definition with_signer_error (E : env) (e : exn) : env :=
  {| clock := clock E; render := render E; new_signer := fun _ => Some e;
     get_dr_protection_group := get_dr_protection_group E;
     list_dr_plans := list_dr_plans E;
     create_dr_plan_execution := create_dr_plan_execution E;
     get_dr_plan_execution := get_dr_plan_execution E;
     wait_until := wait_until E; publish_message := publish_message E |}.

Definition no_principal : exn :=
  OtherError "ConnectTimeout" "Failed to reach the instance metadata service".

End Scenario.

(** * Properties *)

(** ** The utility functions on examples *)

Example split_ocid :
  split "." "ocid1.onstopic.oc1.phx.abc" = ["ocid1"; "onstopic"; "oc1"; "phx"; "abc"].
Proof. reflexivity. Qed.

Example region_canonical : normalize_region "eu-frankfurt-1" = Some "eu-frankfurt-1".
Proof. vm_compute. reflexivity. Qed.

Example region_short : normalize_region "phx" = Some "us-phoenix-1".
Proof. vm_compute. reflexivity. Qed.

Example region_unknown : normalize_region "fra" = None.
Proof. vm_compute. reflexivity. Qed.

Example region_uppercase : normalize_region "US-ASHBURN-1" = None.
Proof. vm_compute. reflexivity. Qed.

Example drpg_ocid_accepted :
  is_valid_ocid "ocid1.drprotectiongroup.oc1.iad.aaaa" DRPG_OCID_PATTERN = true.
Proof. vm_compute. reflexivity. Qed.

Example drpg_ocid_short :
  is_valid_ocid "ocid1.drprotectiongroup.oc1.iad" DRPG_OCID_PATTERN = false.
Proof. vm_compute. reflexivity. Qed.

Example drpg_ocid_long :
  is_valid_ocid "ocid1.drprotectiongroup.oc1.iad.aaaa.b" DRPG_OCID_PATTERN = false.
Proof. vm_compute. reflexivity. Qed.

Example topic_is_no_drpg :
  is_valid_ocid "ocid1.onstopic.oc1.phx.tttt" DRPG_OCID_PATTERN = false.
Proof. vm_compute. reflexivity. Qed.

Example plan_type_known : DrPlanType_lookup "START_DRILL" = Some START_DRILL.
Proof. reflexivity. Qed.

Example plan_type_unknown : DrPlanType_lookup "MIGRATION" = None.
Proof. reflexivity. Qed.

(** ** The languages of the patterns *)

Lemma app_cons c a b : String c a +:+ b = String c (a +:+ b).
Proof. reflexivity. Qed.

Lemma app_empty_l b : EmptyString +:+ b = b.
Proof. reflexivity. Qed.

Lemma app_empty_r a : a +:+ EmptyString = a.
Proof. induction a as [|c a IH]; [reflexivity | rewrite app_cons; congruence]. Qed.

Lemma app_eq_empty a b : a +:+ b = EmptyString -> a = EmptyString /\ b = EmptyString.
Proof. destruct a; [auto | discriminate]. Qed.

Lemma after_false a : after false a = false.
Proof. destruct a; reflexivity. Qed.

Lemma rep_spec cl k s : forall lo hi bos,
  Re.rep cl lo hi k bos s = true <->
  exists a rest, s = a +:+ rest /\ lo <= String.length a /\
    within hi (String.length a) /\ str_all (Re.accepts cl) a = true /\
    k (after bos a) rest = true.
Proof.
  induction s as [|c s IH]; intros lo hi bos; cbn [Re.rep].
  - rewrite andb_true_iff, Nat.eqb_eq. split.
    + intros [-> Hk]. exists EmptyString, EmptyString. repeat split; auto.
      destruct hi; cbn; lia.
    + intros (a & rest & Heq & Hlo & _ & _ & Hk).
      symmetry in Heq. apply app_eq_empty in Heq as [-> ->].
      cbn in *. split; [lia | assumption].
  - assert (Hzero : Nat.eqb lo 0 && k bos (String c s) = true <->
      exists a rest, String c s = a +:+ rest /\ a = EmptyString /\ lo <= String.length a /\
        k (after bos a) rest = true).
    { rewrite andb_true_iff, Nat.eqb_eq. split.
      - intros [-> Hk]. exists EmptyString, (String c s). auto.
      - intros (a & rest & Heq & -> & Hlo & Hk).
        change (EmptyString +:+ rest) with rest in Heq. subst rest. cbn in *.
        split; [lia | assumption]. }
    destruct (Re.may_take hi && Re.accepts cl c) eqn:Ht.
    + apply andb_true_iff in Ht as [Hhi Hc].
      rewrite orb_true_iff, IH, Hzero. split.
      * intros [(a & rest & -> & Hlo & Hw & Hall & Hk) | (a & rest & Heq & -> & Hlo & Hk)];
          rewrite ?after_false in Hk.
        -- exists (String c a), rest. cbn. rewrite Hc, Hall. repeat split; auto.
           all: try lia; destruct hi as [[|h]|]; cbn in *; try discriminate; try lia; auto.

        -- exists EmptyString, rest. repeat split; auto. destruct hi; cbn; lia.
      * intros (a & rest & Heq & Hlo & Hw & Hall & Hk).
        destruct a as [|c' a].
        -- right. exists EmptyString, rest. auto.
        -- left. rewrite app_cons in Heq. injection Heq as -> ->.
           cbn in Hall. apply andb_true_iff in Hall as [_ Hall].
           exists a, rest. rewrite after_false. cbn in *. repeat split; auto.
           all: try lia; destruct hi as [[|h]|]; cbn in *; try discriminate; try lia; auto.
    + rewrite Hzero. split.
      * intros (a & rest & Heq & -> & Hlo & Hk). exists EmptyString, rest.
        repeat split; auto. destruct hi; cbn; lia.
      * intros (a & rest & Heq & Hlo & Hw & Hall & Hk).
        destruct a as [|c' a].
        -- exists EmptyString, rest. auto.
        -- exfalso. rewrite app_cons in Heq. injection Heq as -> ->.
           cbn in Hall. apply andb_true_iff in Hall as [Hc _].
           rewrite Hc, andb_true_r in Ht.
           destruct hi as [[|h]|]; cbn in *; try discriminate; lia.
Qed.

Lemma lits_spec p r : forall bos s,
  Re.run (Re.lits p ++ r) bos s = true <->
  exists rest, s = p +:+ rest /\ Re.run r (after bos p) rest = true.
Proof.
  induction p as [|c p IH]; intros bos s; cbn [Re.lits app Re.run].
  - split; [intros H; exists s; auto | intros (rest & -> & H); exact H].
  - destruct s as [|c' s].
    + split; [discriminate | intros (rest & Heq & _); discriminate].
    + cbn [Re.accepts]. unfold Re.ascii_eqb. rewrite andb_true_iff, Ascii.eqb_eq, IH.
      split.
      * intros [-> (rest & -> & H)]. exists rest. destruct p; auto.
      * intros (rest & Heq & H). rewrite app_cons in Heq. injection Heq as -> ->.
        split; auto. exists rest. destruct p; auto.
Qed.

Lemma run_lit c p bos s :
  Re.run (Re.Char (Re.Lit c) :: p) bos s = true <->
  exists rest, s = String c rest /\ Re.run p false rest = true.
Proof.
  cbn [Re.run]. destruct s as [|c' s].
  - split; [discriminate | intros (rest & Heq & _); discriminate].
  - cbn [Re.accepts]. unfold Re.ascii_eqb.
    rewrite andb_true_iff, Ascii.eqb_eq. split.
    + intros [-> H]. eauto.
    + intros (rest & Heq & H). injection Heq as -> ->. auto.
Qed.

Lemma at_end_spec s : Re.at_end s = true <-> s = EmptyString \/ s = nl.
Proof.
  unfold Re.at_end. rewrite orb_true_iff, !String.eqb_eq. reflexivity.
Qed.

Lemma not_dot_all x : str_all (Re.accepts not_dot) x = true <-> dot_free x.
Proof.
  unfold dot_free. induction x as [|c x IH]; cbn.
  - split; auto.
  - unfold Re.ascii_eqb. rewrite andb_true_iff, IH, orb_false_r, negb_true_iff, Ascii.eqb_neq.
    split.
    + intros [Hc Hx] [Heq | Hin]; [congruence | auto].
    + intros H. split; [intros ->; apply H; auto | intros Hin; apply H; auto].
Qed.

Lemma length_pos_nonempty x : 1 <= String.length x <-> x <> EmptyString.
Proof. destruct x; cbn; split; try congruence; try lia. Qed.

Lemma dot_free_app x y : dot_free x -> dot_free y -> dot_free (x +:+ y).
Proof.
  unfold dot_free. induction x as [|c x IH]; intros Hx Hy; [exact Hy|].
  rewrite app_cons. cbn in *. intros [Heq | Hin]; [auto|].
  apply IH; auto.
Qed.

Lemma rep_segment k bos s :
  Re.rep not_dot 1 None k bos s = true <->
  exists a rest, s = a +:+ rest /\ segment a /\ k false rest = true.
Proof.
  rewrite rep_spec. unfold segment. split.
  - intros (a & rest & -> & Hlen & _ & Hall & Hk).
    exists a, rest. rewrite <- length_pos_nonempty, <- not_dot_all.
    destruct a; [cbn in Hlen; lia | auto].
  - intros (a & rest & -> & [Hne Hfree] & Hk).
    exists a, rest. rewrite length_pos_nonempty, not_dot_all.
    destruct a; [congruence | cbn; auto].
Qed.

Lemma run_repeat lo hi cl p bos s :
  Re.run (Re.Repeat lo hi cl :: p) bos s = true <->
  exists a rest, s = a +:+ rest /\ lo <= String.length a /\
    within hi (String.length a) /\ str_all (Re.accepts cl) a = true /\
    Re.run p (after bos a) rest = true.
Proof. change (Re.run (Re.Repeat lo hi cl :: p) bos s) with (Re.rep cl lo hi (Re.run p) bos s). apply rep_spec. Qed.

Lemma run_segment p bos s :
  Re.run (Re.Repeat 1 None not_dot :: p) bos s = true <->
  exists a rest, s = a +:+ rest /\ segment a /\ Re.run p false rest = true.
Proof. apply rep_segment. Qed.

Lemma run_end bos s : Re.run [Re.At_end] bos s = true <-> s = EmptyString \/ s = nl.
Proof.
  change (Re.run [Re.At_end] bos s) with (Re.at_end s && true).
  rewrite andb_true_r. apply at_end_spec.
Qed.

Lemma run_beginning p s :
  Re.matches (Re.At_beginning :: p) s = Re.run p true s.
Proof. reflexivity. Qed.

Lemma ocid_tail_spec bos s :
  Re.run ocid_tail bos s = true <->
  exists a b c, s = a +:+ "." +:+ b +:+ "." +:+ c /\
    segment a /\ segment b /\ segment c.
Proof.
  unfold ocid_tail. rewrite run_segment. split.
  - intros (a & r1 & -> & Ha & H1).
    apply run_lit in H1 as (r2 & -> & H2).
    apply run_segment in H2 as (b & r3 & -> & Hb & H3).
    apply run_lit in H3 as (r4 & -> & H4).
    apply run_segment in H4 as (c & r5 & -> & Hc & H5).
    apply run_end in H5.
    exists a, b, (c +:+ r5). repeat split; try apply Ha; try apply Hb.
    + destruct c; [destruct Hc; congruence | discriminate].
    + apply dot_free_app; [apply Hc|].
      destruct H5 as [-> | ->]; unfold dot_free; cbn; intuition discriminate.
  - intros (a & b & c & -> & Ha & Hb & Hc).
    exists a, ("." +:+ b +:+ "." +:+ c). repeat split; try apply Ha.
    apply run_lit. exists (b +:+ "." +:+ c). split; [reflexivity|].
    apply run_segment. exists b, ("." +:+ c). repeat split; try apply Hb.
    apply run_lit. exists c. split; [reflexivity|].
    apply run_segment. exists c, EmptyString. repeat split; try apply Hc.
    symmetry. apply app_empty_r.
Qed.

Lemma ocid_pattern_spec prefix s :
  Re.matches (Re.At_beginning :: Re.lits prefix ++ ocid_tail) s = true <->
  ocid_shape prefix s.
Proof.
  rewrite run_beginning, lits_spec. unfold ocid_shape.
  split.
  - intros (rest & -> & H). apply ocid_tail_spec in H as (a & b & c & -> & H).
    exists a, b, c. auto.
  - intros (a & b & c & -> & H). eexists. split; [reflexivity|].
    apply ocid_tail_spec. exists a, b, c. auto.
Qed.


Lemma region_pattern_spec s :
  Re.matches REGION_PATTERN s = true <-> region_shape s.
Proof.
  unfold REGION_PATTERN, region_shape. rewrite run_beginning, run_repeat. split.
  - intros (a & r1 & -> & Hlo & Hhi & Ha & H1).
    apply run_lit in H1 as (r2 & -> & H2).
    apply run_repeat in H2 as (w & r3 & -> & Hw1 & _ & Hw & H3).
    apply run_lit in H3 as (r4 & -> & H4).
    apply run_repeat in H4 as (d & r5 & -> & Hd1 & Hd2 & Hd & H5).
    apply run_end in H5.
    destruct d as [|d [|? ?]]; cbn in Hd1, Hd2; try lia.
    cbn [str_all] in Hd. rewrite andb_true_r in Hd.
    exists a, w, d, r5. cbn in Hhi. repeat split; auto; try lia.
    apply length_pos_nonempty; auto.
  - intros (a & w & d & tail & -> & Hlen & Ha & Hne & Hw & Hd & Htail).
    exists a, ("-" +:+ w +:+ "-" +:+ String d tail). cbn [within]. repeat split; auto; try lia.
    apply run_lit. eexists; split; [reflexivity|].
    apply run_repeat. exists w, ("-" +:+ String d tail).
    repeat split; auto. { apply length_pos_nonempty; auto. }
    apply run_lit. eexists; split; [reflexivity|].
    apply run_repeat. exists (String d EmptyString), tail.
    cbn [str_all String.length within]. unfold is_digit in Hd. rewrite Hd. repeat split; auto.
    apply run_end; auto.
Qed.

Lemma region_mapping_cases k v :
  REGION_MAPPING !! k = Some v ->
  (k = "iad" /\ v = "us-ashburn-1") \/ (k = "phx" /\ v = "us-phoenix-1").
Proof.
  unfold REGION_MAPPING. rewrite lookup_insert. case_decide as H1.
  - intros [= <-]. auto.
  - rewrite lookup_insert. case_decide as H2.
    + intros [= <-]. auto.
    + rewrite lookup_empty. discriminate.
Qed.

Lemma normalize_region_nonempty s r :
  normalize_region s = Some r -> nonempty (Some r) = Some r.
Proof.
  unfold normalize_region. destruct (Re.matches REGION_PATTERN s) eqn:Hm.
  - intros [= <-]. apply region_pattern_spec in Hm
      as (a & w & d & tail & -> & Hlen & _).
    destruct a; [discriminate|]. reflexivity.
  - intros H. apply region_mapping_cases in H as [[_ ->] | [_ ->]]; reflexivity.
Qed.

(** ** Effects: tactics and summaries of the calls *)

Ltac mcbn :=
  cbn [bind ret raise sys_exit try_except when tick emit log strftime
       of_answer of_status write_text file_exists unlink read_text
       log_read_text log_exists log_size log_unlink open_error_handler
       append_error_log index config_from_file prepare_region_file
       client_publish_message client_get_dr_protection_group
       client_list_dr_plans client_create_dr_plan_execution
       client_get_dr_plan_execution oci_wait_until
       InstancePrincipalsSecurityTokenSigner setup_logger get_drpg_details
       py_len normalize_region_py
       now files logs err_handler trace fst snd] in *.

(** Case analysis on the innermost scrutinee that blocks a hypothesis. *)
Ltac scrutinee t :=
  lazymatch t with
  | context [match ?x with _ => _ end] =>
      lazymatch x with
      | context [match _ with _ => _ end] => scrutinee x
      | _ => x
      end
  end.

Ltac split_on H :=
  let T := type of H in
  let x := scrutinee T in
  destruct x eqn:?.


Ltac msteps H :=
  repeat (mcbn; rewrite ?lookup_insert_eq, ?lookup_delete_eq in H; split_on H);
  mcbn; rewrite ?lookup_insert_eq, ?lookup_delete_eq in H.

Ltac trace_ext :=
  first [ exists (@nil event); split; [reflexivity|]
        | eexists [_]; split; [reflexivity|]
        | eexists [_; _]; split; [reflexivity|]
        | eexists [_; _; _]; split; [reflexivity|]
        | eexists [_; _; _; _]; split; [reflexivity|] ].

Lemma append_to_is_Some h text ls p :
  is_Some (append_to h text ls !! p) <-> is_Some (ls !! p).
Proof.
  unfold append_to. destruct h as [q|]; [|reflexivity].
  rewrite lookup_alter. case_decide; [|reflexivity].
  subst. unfold is_Some. destruct (ls !! p); cbn; split; intros [x Hx]; eauto; discriminate.
Qed.

Lemma is_Some_insert_inv (m : gmap string string) k v p :
  is_Some (<[k := v]> m !! p) -> p = k \/ is_Some (m !! p).
Proof.
  rewrite lookup_insert. case_decide; auto.
Qed.

Lemma is_Some_delete_inv (m : gmap string string) k p :
  is_Some (delete k m !! p) -> p <> k /\ is_Some (m !! p).
Proof.
  rewrite lookup_delete. case_decide; [intros [? ?]; discriminate|auto].
Qed.

Section Effects.
Variable E : env.



Lemma send_notification_post name id topic el base w o w' :
  send_notification E name id topic el base w = (o, w') ->
  notifier_post name id topic el base w o w'.
Proof.
  intros H. unfold send_notification, send_notification_try in H.
  msteps H.
  all: injection H as <- <-; unfold notifier_post; mcbn.
  all: repeat match goal with |- _ /\ _ => split end.
  all: try solve [auto | intros; discriminate
                 | intros p; rewrite ?append_to_is_Some; reflexivity].
  all: try solve [intros _ (code & r & Hc & Hr); congruence].
  all: try solve [trace_ext; split;
                  [ repeat constructor; cbn; eauto
                  | first [ solve [intros _ _; cbn; eauto 8]
                          | solve [intros [? ?]; congruence]
                          | solve [intros _ (code & r & Hc & Hr); congruence] ] ] ].
  all: try solve [intros p Hp; repeat (apply is_Some_delete_inv in Hp as [_ Hp]);
                  apply is_Some_insert_inv in Hp as [-> | Hp];
                  [right; eexists; reflexivity | auto] ].
Qed.

Lemma scan_transitional_eq items w :
  scan_transitional E items w =
  match first_transitional items with
  | Some p =>
      bind (log E ERROR ("Found transitional plan: " +:+ plan_display_name p
                         +:+ " in state " +:+ plan_lifecycle_state p) false)
        (fun _ => ret (Some (plan_lifecycle_state p))) w
  | None => (Ret None, w)
  end.
Proof.
  induction items as [|p items IH]; [reflexivity|].
  cbn [scan_transitional first_transitional find].
  destruct (is_transitional (plan_lifecycle_state p)); [reflexivity|].
  exact IH.
Qed.


Lemma list_active_dr_plans_post id client w o w' :
  list_active_dr_plans E id client w = (o, w') ->
  files w' = files w /\ err_handler w' = err_handler w /\
  (forall p, is_Some (logs w' !! p) <-> is_Some (logs w !! p)) /\
  exists res evs, o = Ret res /\ trace w' = evs ++ trace w /\
    listing_case id client res evs.
Proof.
  intros H. unfold list_active_dr_plans in H. mcbn.
  destruct (list_dr_plans E (now w) client id None) as [e|items] eqn:H1; mcbn.
  2: rewrite scan_transitional_eq in H;
     destruct (first_transitional items) as [p|] eqn:Hf; mcbn.
  3: destruct (list_dr_plans E (S (now w)) client id (Some "ACTIVE"))
       as [e|active] eqn:H2; mcbn.
  all: injection H as <- <-; mcbn.
  all: repeat match goal with |- _ /\ _ => split end; auto.
  all: try solve [intros q; rewrite ?append_to_is_Some; reflexivity].
  all: do 2 eexists; split; [reflexivity|]; split;
       [ match goal with
         | |- ?a :: ?b :: ?c :: ?t = _ ++ ?t =>
           change (a :: b :: c :: t) with ([a; b; c] ++ t)
         | |- ?a :: ?b :: ?t = _ ++ ?t =>
           change (a :: b :: t) with ([a; b] ++ t) end; reflexivity |].
  - left. eauto.
  - right; left. eauto 6.
  - right; right; left. eauto 6.
  - right; right; right. eauto 8.
Qed.


Ltac enum_eqb H :=
  repeat match type of H with
  | context [DrPlanType_eqb ?a ?b] =>
      let v := eval vm_compute in (DrPlanType_eqb a b) in
      change (DrPlanType_eqb a b) with v in H
  end.

Lemma precheck_plan_post sid client p w o w' :
  precheck_plan E sid client p w = (o, w') ->
  (forall c, o <> Exit c) /\ files w' = files w /\
  err_handler w' = err_handler w /\
  (forall q, is_Some (logs w' !! q) <-> is_Some (logs w !! q)) /\
  exists evs, trace w' = evs ++ trace w /\
    Forall (loop_event sid client) evs /\
    (DrPlanType_lookup (plan_type p) = None -> evs = []) /\
    (omap created_of (rev evs) = [] \/ omap created_of (rev evs) = [plan_id p]) /\
    (o = Ret tt -> omap created_of (rev evs) = [plan_id p] /\
                   DrPlanType_lookup (plan_type p) <> None).
Proof.
  intros H. unfold precheck_plan in H.
  destruct (DrPlanType_lookup (plan_type p)) as [ty|] eqn:Hty.
  2:{ mcbn. injection H as <- <-. repeat split; auto; try discriminate.
      exists []. repeat split; auto. discriminate. }
  destruct ty; enum_eqb H; msteps H.
  all: injection H as <- <-; mcbn.
  all: repeat match goal with |- _ /\ _ => split end; auto; try discriminate.
  all: try solve [intros q; rewrite ?append_to_is_Some; reflexivity].
  all: match goal with
       | |- exists evs, ?tr = evs ++ ?t /\ _ =>
           let rec go l tr :=
             lazymatch tr with
             | t => exists (rev l)
             | ?a :: ?tr' => go (a :: l) tr'
             end in go (@nil event) tr
       end; cbn [rev app]; split; [reflexivity|].
  all: repeat match goal with |- _ /\ _ => split end; try discriminate.
  all: try solve [repeat constructor; cbn; auto].
  all: try solve [cbn; auto].
  all: try solve [intros _; cbn; auto].
Qed.

Lemma created_app evs1 evs2 :
  omap created_of (rev (evs2 ++ evs1)) =
  omap created_of (rev evs1) ++ omap created_of (rev evs2).
Proof. rewrite rev_app_distr, omap_app. reflexivity. Qed.

Lemma precheck_plans_post sid client plans : forall w o w',
  precheck_plans E sid client plans w = (o, w') ->
  (forall c, o <> Exit c) /\ files w' = files w /\
  err_handler w' = err_handler w /\
  (forall q, is_Some (logs w' !! q) <-> is_Some (logs w !! q)) /\
  exists evs, trace w' = evs ++ trace w /\
    Forall (loop_event sid client) evs /\
    exists k, k <= length plans /\
      omap created_of (rev evs) = map plan_id (take k plans) /\
      (forall i p, plans !! i = Some p ->
         DrPlanType_lookup (plan_type p) = None -> k <= i /\ o <> Ret tt).
Proof.
  induction plans as [|p rest IH]; intros w o w' H; cbn [precheck_plans] in H.
  - mcbn. injection H as <- <-. repeat split; auto; try discriminate.
    exists []. repeat split; auto. exists 0.
    split; [cbn; lia|]. split; [reflexivity|].
    intros i q Hq; rewrite lookup_nil in Hq; discriminate.
  - cbn [bind] in H.
    destruct (precheck_plan E sid client p w) as [o1 w1] eqn:H1.
    apply precheck_plan_post in H1
      as (Hx1 & Hf1 & Hh1 & Hl1 & evs1 & Ht1 & He1 & Hu1 & Hc1 & Hr1).
    destruct o1 as [[]|e|c].
    + apply IH in H as (Hx & Hf & Hh & Hl & evs & Ht & He & k & Hk & Hc & Hu).
      destruct Hr1 as [Hcr Hknown]; [reflexivity|].
      split; [assumption|]. split; [congruence|]. split; [congruence|].
      split; [intros q; rewrite Hl; apply Hl1|].
      exists (evs ++ evs1). rewrite Ht, Ht1, app_assoc.
      split; [reflexivity|]. split; [apply Forall_app; auto|].
      exists (S k). cbn [length take map]. rewrite created_app, Hcr, Hc.
      split; [lia|]. split; [reflexivity|].
      intros i q Hq Hun; destruct i as [|i]; cbn in Hq;
        [injection Hq as <-; congruence
        | apply (Hu _ _ Hq) in Hun as [? ?]; split; [lia | assumption] ].
    + injection H as <- <-.
      split; [discriminate|]. do 3 (split; [assumption|]).
      exists evs1. do 2 (split; [assumption|]).
      destruct (DrPlanType_lookup (plan_type p)) eqn:Hty.
      * destruct Hc1 as [Hc1|Hc1]; [exists 0 | exists 1]; cbn [length take map];
          rewrite Hc1; (split; [lia|]); (split; [reflexivity|]).
        all: intros i q Hq Hun; destruct i as [|i]; cbn in Hq;
             [injection Hq as <-; congruence | split; [lia | discriminate] ].
      * rewrite (Hu1 eq_refl). exists 0. cbn [length take map rev omap].
        split; [lia|]. split; [reflexivity|].
        intros i q Hq Hun. split; [lia | discriminate].
    + exfalso. eapply Hx1. reflexivity.
Qed.

Lemma notifier_event_quiet name id topic text ev :
  notifier_event name id topic text ev -> quiet ev.
Proof. destruct ev; cbn; auto. Qed.

Lemma exists_true (m : gmap string string) p v :
  m !! p = Some v -> bool_decide (is_Some (m !! p)) = true.
Proof. intros ->. apply bool_decide_eq_true. eauto. Qed.

Lemma exists_false (m : gmap string string) p :
  m !! p = None -> bool_decide (is_Some (m !! p)) = false.
Proof. intros ->. apply bool_decide_eq_false. intros [? ?]; discriminate. Qed.

Lemma lookup_cases (m : gmap string string) p :
  (exists v, m !! p = Some v) \/ m !! p = None.
Proof. destruct (m !! p); eauto. Qed.

Ltac case_exists H m p Hl :=
  destruct (lookup_cases m p) as [[? Hl] | Hl];
  [ rewrite ?(exists_true _ _ _ Hl) in H | rewrite ?(exists_false _ _ Hl) in H ];
  rewrite ?Hl in H.

Lemma release_notify_exit_post {A} rf name id topic el base w (o : outcome A) w' :
  release_notify_exit E rf name id topic el base w = (o, w') ->
  (files w !! rf = None -> o = Raise (FileNotFoundError rf) /\ w' = w) /\
  (is_Some (files w !! rf) ->
     o = Exit 1%Z /\ err_handler w' = err_handler w /\
     (forall p, is_Some (logs w' !! p) <-> is_Some (logs w !! p)) /\
     (forall p, is_Some (files w' !! p) ->
        (p <> rf /\ is_Some (files w !! p)) \/
        exists t, nonempty topic = Some t /\ notifier_file base t p) /\
     exists evs, trace w' = evs ++ trace w /\ Forall quiet evs /\
       (nonempty topic = None -> evs = []) /\
       (forall t, nonempty topic = Some t -> is_Some (logs w !! el) ->
          topic_region_known t ->
          exists cfg b ti r, In (EvPublish cfg t b ti r) evs)).
Proof.
  intros H. unfold release_notify_exit in H. mcbn.
  destruct (files w !! rf) as [txt|] eqn:Hrf.
  2:{ injection H as <- <-. split; [auto | intros [? ?]; discriminate]. }
  split; [discriminate | intros _].
  destruct (nonempty topic) as [t|] eqn:Ht; mcbn.
  - match type of H with context [send_notification E ?a ?b ?c ?d ?e ?v] =>
      destruct (send_notification E a b c d e v) as [o1 w1] eqn:Hs end.
    apply send_notification_post in Hs
      as (Ho & (evs & Htr & Hev & Hpub) & Hfiles & Hh & Hl & _).
    mcbn.
    assert (o = Exit 1%Z /\ w' = w1) as [-> ->].
    { destruct Ho as [-> | ->]; injection H as <- <-; auto. }
    clear H. split; [reflexivity|]. split; [assumption|]. split; [assumption|].
    split.
    + intros p Hp. apply Hfiles in Hp as [Hp | Hp]; [left | right; eauto].
      apply is_Some_delete_inv in Hp. exact Hp.
    + exists evs. split; [assumption|]. split.
      { eapply Forall_impl; [exact Hev|]. intros ev; apply notifier_event_quiet. }
      split; [discriminate|].
      intros t' [= <-]. exact Hpub.
  - injection H as <- <-. mcbn. split; [reflexivity|]. split; [reflexivity|].
    split; [reflexivity|]. split.
    + intros p Hp. left. apply is_Some_delete_inv in Hp. exact Hp.
    + exists []. split; [reflexivity|]. split; [constructor|].
      split; [reflexivity | discriminate].
Qed.

Lemma finalize_post topic el base rf name sid w o w' :
  finalize E topic el base rf name sid w = (o, w') ->
  (o = Ret tt \/ o = Exit 1%Z) /\
  (o = Exit 1%Z -> exists t, nonempty topic = Some t /\ ~ topic_region_known t) /\
  (o = Ret tt -> files w' !! rf = None) /\
  (forall p, is_Some (files w' !! p) ->
     is_Some (files w !! p) \/
     exists t, nonempty topic = Some t /\ notifier_file base t p) /\
  exists evs, trace w' = evs ++ trace w /\ Forall quiet evs.
Proof.
  intros H. unfold finalize in H. mcbn.
  assert (Hnotify : exists o1 w1,
    (o1 = Ret tt \/ o1 = Exit 1%Z) /\
    (o1 = Exit 1%Z -> exists t, nonempty topic = Some t /\ ~ topic_region_known t) /\
    (forall p, is_Some (files w1 !! p) ->
       is_Some (files w !! p) \/
       exists t, nonempty topic = Some t /\ notifier_file base t p) /\
    (exists evs, trace w1 = evs ++ trace w /\ Forall quiet evs) /\
    match o1 with
    | Ret _ =>
        bind (file_exists rf) (fun there =>
          bind (when there (unlink rf)) (fun _ =>
            bind (log_exists el) (fun still => when still (log_unlink el)))) w1
    | Raise e => (Raise e, w1)
    | Exit c => (Exit c, w1)
    end = (o, w')).
  { case_exists H (logs w) el Hl; mcbn; rewrite ?Hl in H; mcbn; cbn [andb] in H.
    all: destruct (nonempty topic) as [t|] eqn:Ht; mcbn.
    all: try match type of H with context [Nat.ltb 0 ?n] =>
           destruct (Nat.ltb 0 n); mcbn end.
    all: try solve [exists (Ret tt), w; split; [auto|]; split; [discriminate|];
                    split; [auto|]; split; [exists []; split; [reflexivity|constructor]|];
                    mcbn; exact H].
    match type of H with context [send_notification E ?a ?b ?c ?d ?e ?v] =>
      destruct (send_notification E a b c d e v) as [o1 w1] eqn:Hs end.
    apply send_notification_post in Hs
      as (Ho & (evs & Htr & Hev & _) & Hfiles & _ & _ & Hexit).
    exists o1, w1. split; [assumption|]. split; [eauto|].
    split; [intros p Hp; apply Hfiles in Hp as [Hp|Hp]; eauto|].
    split.
    { exists evs. split; [assumption|]. eapply Forall_impl; [exact Hev|].
      intros ev; apply notifier_event_quiet. }
    destruct Ho as [-> | ->]; mcbn; exact H. }
  destruct Hnotify as (o1 & w1 & Ho1 & Hexit & Hfiles & (evs & Htr & Hev) & Hrest).
  clear H. destruct Ho1 as [-> | ->].
  2:{ injection Hrest as <- <-. split; [auto|]. split; [auto|].
      split; [discriminate|]. split; [assumption|]. eauto. }
  mcbn.
  case_exists Hrest (files w1) rf Hrf; mcbn; rewrite ?Hrf in Hrest; mcbn.
  all: case_exists Hrest (logs w1) el Hl; mcbn; rewrite ?Hl in Hrest; mcbn.
  all: injection Hrest as <- <-; mcbn.
  all: split; [auto|]; split; [discriminate|].
  all: split; [intros _; rewrite ?lookup_delete_eq; auto|].
  all: split; [|exists evs; auto].
  all: intros p Hp; try (apply is_Some_delete_inv in Hp as [_ Hp]); auto.
Qed.


Lemma quiet_dr_event sid client ev : quiet ev -> dr_event sid client ev.
Proof. destruct ev; cbn; tauto. Qed.

Lemma loop_dr_event sid client ev : loop_event sid client ev -> dr_event sid client ev.
Proof. destruct ev; cbn; tauto. Qed.

Lemma quiet_not_listing evs cfg id lc r :
  Forall quiet evs -> ~ In (EvListPlans cfg id lc r) evs.
Proof. rewrite Forall_forall. intros H Hin. apply list_elem_of_In in Hin. exact (H _ Hin). Qed.

Lemma loop_not_listing sid client evs cfg id lc r :
  Forall (loop_event sid client) evs -> ~ In (EvListPlans cfg id lc r) evs.
Proof. rewrite Forall_forall. intros H Hin. apply list_elem_of_In in Hin. exact (H _ Hin). Qed.

Lemma loop_not_publish sid client evs :
  Forall (loop_event sid client) evs -> Forall (fun ev => is_publish ev = false) evs.
Proof. intros H. eapply Forall_impl; [exact H|]. intros []; cbn; tauto. Qed.

Lemma quiet_created evs : Forall quiet evs -> omap created_of (rev evs) = [].
Proof.
  induction 1 as [|ev evs Hev _ IH]; [reflexivity|].
  cbn [rev]. rewrite omap_app, IH. destruct ev; cbn in *; tauto.
Qed.


Ltac conj_split := repeat match goal with |- _ /\ _ => split end.

Ltac in_inv :=
  repeat match goal with
  | H : In _ (_ ++ _) |- _ => apply in_app_or in H as [H|H]
  | H : In _ (_ :: _) |- _ => destruct H as [H|H]
  | H : In _ [] |- _ => destruct H
  | H : In (EvListPlans _ _ _ _) ?evs, F : Forall quiet ?evs |- _ =>
      exfalso; exact (quiet_not_listing _ _ _ _ _ F H)
  | H : In (EvListPlans _ _ _ _) ?evs, F : Forall (loop_event _ _) ?evs |- _ =>
      exfalso; exact (loop_not_listing _ _ _ _ _ _ _ F H)
  | H : @eq event _ _ |- _ => simplify_eq
  end.

(** The release edge reached from a world that extends [w] by [pre]. *)
Lemma release_edge topic el base rf client standby name id w w2 pre (o : outcome unit) w' :
  release_notify_exit E rf name id topic el base w2 = (o, w') ->
  trace w2 = pre ++ trace w -> files w2 = files w ->
  (forall p, is_Some (logs w2 !! p) <-> is_Some (logs w !! p)) ->
  is_Some (files w !! rf) -> is_Some (logs w !! el) ->
  Forall (dr_event (drpg_id standby) client) pre ->
  Forall (fun ev => is_publish ev = false) pre ->
  (forall cfg id lc r, In (EvListPlans cfg id lc r) pre ->
     drpg_lifecycle_state standby = "ACTIVE" /\
     (exists items, r = inr items) /\
     (lc = Some "ACTIVE" -> r = inr [])) ->
  omap created_of (rev pre) = [] ->
  o = Exit 1%Z /\
  exists evs, trace w' = evs ++ trace w /\
    tail_post topic el base rf client standby w o w' evs.
Proof.
  intros H Htr Hf Hl Hrf Hel Hpre Hnp Hlist Hcr.
  apply release_notify_exit_post in H as [_ H].
  rewrite Hf in H. destruct (H Hrf) as (-> & _ & _ & Hfiles & evs & Ht & Hq & _ & Hpub).
  clear H. split; [reflexivity|]. exists (evs ++ pre). rewrite Ht, Htr, app_assoc. split; [reflexivity|].
  unfold tail_post. conj_split.
  - apply Forall_app. split; [|assumption].
    eapply Forall_impl; [exact Hq|]. intros ev. apply quiet_dr_event.
  - intros (cfg & i & lc & r & Hin). in_inv. apply Hlist in Hin. tauto.
  - intros cfg i lc e Hin. in_inv. apply Hlist in Hin as (_ & [items Hi] & _).
    discriminate.
  - intros cfg i pr p post Hin _. in_inv.
    apply Hlist in Hin as (_ & _ & Hi). specialize (Hi eq_refl).
    injection Hi as Hi. destruct pr; discriminate.
  - intros c [= <-]. split; [reflexivity|]. intros Hknown. split.
    + intros p Hp. apply Hfiles in Hp. exact Hp.
    + intros t Ht'. destruct (Hpub t Ht') as (cfg & b & ti & r & Hin); auto.
      { apply Hl. assumption. }
      exists cfg, b, ti, r. apply in_or_app. auto.
Qed.

Ltac trace_list :=
  match goal with
  | |- exists evs, ?tr = evs ++ ?t /\ _ =>
      let rec go l tr :=
        lazymatch tr with
        | t => exists (rev l)
        | ?a :: ?tr' => go (a :: l) tr'
        end in go (@nil event) tr
  end; cbn [rev app]; split; [reflexivity|].

Lemma precheck_standby_post topic el base rf client standby w o w' :
  precheck_standby E topic el base rf client standby w = (o, w') ->
  is_Some (files w !! rf) -> is_Some (logs w !! el) ->
  exists evs, trace w' = evs ++ trace w /\
    tail_post topic el base rf client standby w o w' evs.
Proof.
  intros H Hrf Hel. unfold precheck_standby in H. mcbn.
  destruct (String.eqb (drpg_lifecycle_state standby) "ACTIVE") eqn:Hst;
    cbn [negb] in H; mcbn.
  2:{ match type of H with context [release_notify_exit E ?a ?b ?c ?d ?e ?f ?v] =>
        destruct (@release_notify_exit E unit a b c d e f v) as [o1 w3] eqn:Hr end.
      eapply (release_edge _ _ _ _ client standby _ _ w _ [_; _]) in Hr
        as (-> & evs & Htr & Hpost); mcbn; try reflexivity; try assumption.
      - injection H as <- <-. eauto.
      - intros p. rewrite append_to_is_Some. reflexivity.
      - repeat constructor.
      - repeat constructor.
      - intros cfg i lc r Hin. in_inv. }
  apply String.eqb_eq in Hst.
  match type of H with context [list_active_dr_plans E ?a ?b ?v] =>
    destruct (list_active_dr_plans E a b v) as [o1 w2] eqn:Hlist end.
  apply list_active_dr_plans_post in Hlist
    as (Hf & Hh & Hl & res & evs & -> & Htr & Hcase).
  mcbn.
  destruct Hcase as [(e & -> & ->) | [(items & p & msg & -> & Hft & ->) |
    [(items & e & -> & Hft & ->) | (items & act & msg & -> & Hft & ->)]]]; mcbn.
  - (* the first listing request failed *)
    injection H as <- <-. rewrite Htr. mcbn. cbn [app]. trace_list.
    unfold tail_post. conj_split.
    + repeat constructor.
    + auto.
    + intros cfg i lc e' Hin. in_inv. conj_split; auto.
      all: try solve [repeat constructor | cbn; auto].
    + intros cfg i pr q post Hin. in_inv.
    + intros c [=].
  - (* a transitional plan *)
    assert (Hedge : forall w3 (pre : list event),
      trace w3 = pre ++ [EvLog ERROR msg; EvListPlans client (drpg_id standby) None (inr items);
                         EvLog INFO ("Standby DRPG: " +:+ drpg_display_name standby +:+ " ("
                           +:+ drpg_id standby +:+ ") is " +:+ drpg_lifecycle_state standby)]
                   ++ trace w ->
      Forall quiet pre -> Forall (fun ev => is_publish ev = false) pre ->
      files w3 = files w ->
      (forall q, is_Some (logs w3 !! q) <-> is_Some (logs w !! q)) ->
      @release_notify_exit E unit rf (drpg_display_name standby) (drpg_id standby) topic
        el base w3 = (o, w') ->
      exists evs, trace w' = evs ++ trace w /\
        tail_post topic el base rf client standby w o w' evs).
    { intros w3 pre Ht3 Hq3 Hp3 Hf3 Hl3 Hr. rewrite app_assoc in Ht3.
      eapply (release_edge _ _ _ _ client standby) in Hr as (_ & Hr);
        try eassumption; auto.
      - apply Forall_app. split.
        + eapply Forall_impl; [exact Hq3|]. intros ev; apply quiet_dr_event.
        + repeat constructor.
      - apply Forall_app. split; [assumption|repeat constructor].
      - intros cfg i lc r Hin. in_inv. split; [assumption|]. split; [eauto|discriminate].
      - rewrite rev_app_distr, omap_app, (quiet_created pre) by assumption. reflexivity. }
    destruct (Nat.eqb (String.length (plan_lifecycle_state p)) 0); mcbn.
    + match type of H with context [release_notify_exit E ?a ?b ?c ?d ?e ?f ?v] =>
        destruct (@release_notify_exit E unit a b c d e f v) as [o1 w3] eqn:Hr end.
      pose proof Hr as Hr'.
      apply release_notify_exit_post in Hr' as [_ Hr'].
      assert (o1 = Exit 1%Z) as ->.
      { apply Hr'. mcbn. rewrite Hf. mcbn. assumption. }
      injection H as <- <-.
      eapply (Hedge _ [_]); [| | | | |exact Hr]; mcbn.
      * rewrite Htr. reflexivity.
      * repeat constructor.
      * repeat constructor.
      * rewrite Hf. reflexivity.
      * intros q. rewrite ?append_to_is_Some, Hl. reflexivity.
    + unfold process_plans in H. mcbn.
      match type of H with context [release_notify_exit E ?a ?b ?c ?d ?e ?f ?v] =>
        destruct (@release_notify_exit E unit a b c d e f v) as [o1 w3] eqn:Hr end.
      pose proof Hr as Hr'.
      apply release_notify_exit_post in Hr' as [_ Hr'].
      assert (o1 = Exit 1%Z) as ->.
      { apply Hr'. mcbn. rewrite Hf. mcbn. assumption. }
      injection H as <- <-.
      eapply (Hedge _ [_]); [| | | | |exact Hr]; mcbn.
      * rewrite Htr. reflexivity.
      * repeat constructor.
      * repeat constructor.
      * rewrite Hf. reflexivity.
      * intros q. rewrite ?append_to_is_Some, Hl. reflexivity.
  - (* the second listing request failed *)
    injection H as <- <-. rewrite Htr. mcbn. cbn [app]. trace_list.
    unfold tail_post. conj_split.
    + repeat constructor.
    + auto.
    + intros cfg i lc e' Hin. in_inv. conj_split; auto.
      all: try solve [repeat constructor | cbn; auto].
    + intros cfg i pr q post Hin. in_inv.
    + intros c [=].
  - (* the list of the active plans *)
    destruct (Nat.eqb (length act) 0) eqn:Hn; mcbn.
    + apply Nat.eqb_eq in Hn. apply length_zero_iff_nil in Hn. subst act.
      match type of H with context [release_notify_exit E ?a ?b ?c ?d ?e ?f ?v] =>
        destruct (@release_notify_exit E unit a b c d e f v) as [o1 w3] eqn:Hr end.
      eapply (release_edge _ _ _ _ client standby _ _ w _ [_; _; _; _; _]) in Hr
        as (-> & evs & Htr' & Hpost); mcbn; try assumption.
      all: try solve [ injection H as <- <-; eauto
                     | rewrite Htr; reflexivity
                     | rewrite Hf; reflexivity
                     | intros q; rewrite ?append_to_is_Some, Hl; reflexivity
                     | repeat constructor ].
      intros cfg i lc r Hin. in_inv; (split; [assumption|]); split; eauto; discriminate.
    + apply Nat.eqb_neq in Hn. unfold process_plans in H. mcbn.
      match type of H with context [precheck_plans E ?a ?b ?c ?v] =>
        destruct (precheck_plans E a b c v) as [o1 w3] eqn:Hloop end.
      apply precheck_plans_post in Hloop
        as (Hx & Hf3 & Hh3 & Hl3 & evL & Ht3 & HeL & k & Hk & Hcr & Hun).
      assert (Hcreated : forall evF, Forall quiet evF ->
        omap created_of (rev (evF ++ evL ++
          [EvLog INFO msg; EvListPlans client (drpg_id standby) (Some "ACTIVE") (inr act);
           EvListPlans client (drpg_id standby) None (inr items); EvLog INFO
             ("Standby DRPG: " +:+ drpg_display_name standby +:+ " (" +:+ drpg_id standby
              +:+ ") is " +:+ drpg_lifecycle_state standby)])) = map plan_id (take k act)).
      { intros evF HF. rewrite !rev_app_distr, !omap_app, Hcr, (quiet_created evF) by assumption.
        cbn. rewrite app_nil_r. reflexivity. }
      assert (Hbad : forall pr q post, act = pr ++ q :: post ->
        DrPlanType_lookup (plan_type q) = None -> k <= length pr /\ o1 <> Ret tt).
      { intros pr q post -> Hq. apply (Hun (length pr) q); [|assumption].
        rewrite lookup_app_r, Nat.sub_diag by lia. reflexivity. }
      destruct o1 as [[]|e|c]; [| |exfalso; eapply Hx; reflexivity].
      * (* the loop completed *)
        apply finalize_post in H as (Ho & Hexit & _ & Hfiles & evF & HtF & HqF).
        exists (evF ++ evL ++ [EvLog INFO msg;
          EvListPlans client (drpg_id standby) (Some "ACTIVE") (inr act);
          EvListPlans client (drpg_id standby) None (inr items); EvLog INFO
             ("Standby DRPG: " +:+ drpg_display_name standby +:+ " (" +:+ drpg_id standby
              +:+ ") is " +:+ drpg_lifecycle_state standby)]).
        split. { rewrite HtF, Ht3, Htr. mcbn. rewrite <- !app_assoc. reflexivity. }
        unfold tail_post. conj_split.
        -- apply Forall_app. split.
           { eapply Forall_impl; [exact HqF|]. intros ev; apply quiet_dr_event. }
           apply Forall_app. split.
           { eapply Forall_impl; [exact HeL|]. intros ev; apply loop_dr_event. }
           repeat constructor.
        -- auto.
        -- intros cfg i lc e' Hin. in_inv.
        -- intros cfg i pr q post Hin Hq. in_inv.
           destruct (Hbad _ _ _ eq_refl Hq) as [_ Hne]. congruence.
        -- intros c ->. destruct Ho as [Ho|Ho]; [discriminate|]. injection Ho as ->.
           destruct (Hexit eq_refl) as (t & Ht & Hunk).
           split; [reflexivity|]. intros Hknown. exfalso. apply Hunk. auto.
      * (* the loop raised *)
        injection H as <- <-.
        exists (evL ++ [EvLog INFO msg;
          EvListPlans client (drpg_id standby) (Some "ACTIVE") (inr act);
          EvListPlans client (drpg_id standby) None (inr items); EvLog INFO
             ("Standby DRPG: " +:+ drpg_display_name standby +:+ " (" +:+ drpg_id standby
              +:+ ") is " +:+ drpg_lifecycle_state standby)]).
        split. { rewrite Ht3, Htr. mcbn. rewrite <- !app_assoc. reflexivity. }
        unfold tail_post. conj_split.
        -- apply Forall_app. split.
           { eapply Forall_impl; [exact HeL|]. intros ev; apply loop_dr_event. }
           repeat constructor.
        -- auto.
        -- intros cfg i lc e' Hin. in_inv.
        -- intros cfg i pr q post Hin Hq. in_inv.
           destruct (Hbad _ _ _ eq_refl Hq) as [Hle _].
           split; [eauto|]. exists k. split; [assumption|].
           pose proof (Hcreated [] (List.Forall_nil _)) as Hc0. cbn [app] in Hc0.
           rewrite Hc0. rewrite take_app_le; [reflexivity | lia].
        -- intros c [=].
Qed.

Ltac split_prim H :=
  let T := type of H in
  let x := scrutinee T in
  lazymatch x with
  | release_notify_exit _ _ _ _ _ _ _ _ => fail
  | precheck_standby _ _ _ _ _ _ _ _ => fail
  | send_notification _ _ _ _ _ _ _ => fail
  | _ => destruct x eqn:?
  end.

Ltac hsteps H :=
  repeat (mcbn; cbn [negb] in H;
          rewrite ?lookup_insert_eq, ?lookup_delete_eq in H; split_prim H);
  mcbn; rewrite ?lookup_insert_eq, ?lookup_delete_eq in H.






Lemma touch_is_Some p ls : is_Some (touch p ls !! p).
Proof.
  unfold touch. destruct (ls !! p) eqn:H; [rewrite H; eauto|].
  rewrite lookup_insert_eq. eauto.
Qed.

Lemma fetches_app evs pre : fetches (evs ++ pre) = fetches pre ++ fetches evs.
Proof. unfold fetches. rewrite rev_app_distr, omap_app. reflexivity. Qed.

Lemma quiet_fetches evs : Forall quiet evs -> fetches evs = [].
Proof.
  unfold fetches. induction 1 as [|ev evs Hev _ IH]; [reflexivity|].
  cbn [rev]. rewrite omap_app, IH. destruct ev; cbn in *; tauto.
Qed.

Lemma quiet_head_event ev : quiet ev -> head_event ev.
Proof. destruct ev; cbn; tauto. Qed.

Lemma head_release {A} topic base w0 rf name id el w2 (o : outcome A) w' :
  release_notify_exit E rf name id topic el base w2 = (o, w') ->
  is_Some (files w2 !! rf) -> is_Some (logs w2 !! el) ->
  (files w0 = ∅ -> forall p, is_Some (files w2 !! p) -> p = rf) ->
  Forall head_event (trace w2) ->
  Forall (fun ev => is_publish ev = false) (trace w2) ->
  fetches (trace w2) <> [] ->
  (forall cfg0 id0 group pr r,
     fetches (trace w2) !! 0 = Some (cfg0, id0, inr group) ->
     drpg_role group = "PRIMARY" -> drpg_peer_region group = Some pr ->
     normalize_region pr = Some r ->
     exists answer,
       fetches (trace w2) = [(cfg0, id0, inr group);
                             (region_config r, drpg_peer_id group, answer)]) ->
  o = Exit 1%Z /\ head_stop topic base w0 (Exit 1%Z) w'.
Proof.
  intros H Hrf Hel Honly Hhead Hnp Hfetch Hpeer.
  apply release_notify_exit_post in H as [_ H].
  destruct (H Hrf) as (-> & _ & _ & Hfiles & evs & Ht & Hq & _ & Hpub). clear H.
  split; [reflexivity|].
  assert (Hfe : fetches (trace w') = fetches (trace w2)).
  { rewrite Ht, fetches_app, (quiet_fetches evs), app_nil_r by assumption. reflexivity. }
  assert (Hall : Forall head_event (trace w')).
  { rewrite Ht. apply Forall_app. split; [|assumption].
    eapply Forall_impl; [exact Hq|]. intros ev; apply quiet_head_event. }
  unfold head_stop. rewrite Hfe. split; [assumption|]. split.
  - intros c [= <-]. split; [reflexivity|]. split; [intros; contradiction|].
    intros _ Hf0 Hknown. split.
    + intros p Hp. apply Hfiles in Hp as [[Hne Hp] | Hp]; [|assumption].
      exfalso. apply Hne. apply Honly; assumption.
    + intros t Ht'. destruct (Hpub t Ht' Hel (Hknown t Ht')) as (cfg & b & ti & r & Hin).
      exists cfg, b, ti, r. rewrite Ht. apply in_or_app. auto.
  - intros cfg0 id0 group pr r H0 Hrole Hpr Hnr.
    destruct (Hpeer _ _ _ _ _ H0 Hrole Hpr Hnr) as (answer & Hfs).
    exists answer. rewrite Hfe, Hfs. split; [reflexivity|]. split.
    + intros ev Hin. rewrite Forall_forall in Hall.
      apply list_elem_of_In in Hin. specialize (Hall _ Hin).
      destruct ev; cbn in Hall; tauto.
    + intros i f Hi Hf. destruct i as [|[|i]]; try lia. discriminate.
Qed.

Ltac fetch_cbn :=
  cbn [fetches rev app omap list_omap fetch_of lookup list_lookup] in *.

Lemma nonempty_normalize pr r :
  normalize_region pr = Some r -> nonempty (normalize_region pr) = Some r.
Proof. intros H. rewrite H. eapply normalize_region_nonempty. exact H. Qed.

(** Facts about the explicit worlds met at the leaves of the head. *)
Ltac head_side Ht0 :=
  mcbn; rewrite ?Ht0;
  first
    [ solve [rewrite ?lookup_insert_eq; eauto]
    | solve [rewrite ?append_to_is_Some; apply touch_is_Some]
    | solve [repeat constructor]
    | solve [fetch_cbn; discriminate]
    | solve [let Hf0 := fresh "Hf0" in let p := fresh "p" in let Hp := fresh "Hp" in
             intros Hf0 p Hp; rewrite Hf0 in Hp;
             repeat first
               [ apply is_Some_insert_inv in Hp as [Hp | Hp];
                 [first [assumption | congruence]|]
               | apply is_Some_delete_inv in Hp as [? Hp] ];
             rewrite lookup_empty in Hp; destruct Hp; discriminate] ].

Ltac peer_facts Ht0 :=
  let cfg0 := fresh "cfg0" in let id0 := fresh "id0" in let group := fresh "group" in
  let pr := fresh "pr" in let r := fresh "r" in
  let Hf0 := fresh "Hf0" in let Hrole := fresh "Hrole" in
  let Hpr := fresh "Hpr" in let Hnr := fresh "Hnr" in
  intros cfg0 id0 group pr r Hf0 Hrole Hpr Hnr; mcbn; rewrite ?Ht0 in *; fetch_cbn;
  try discriminate Hf0; simplify_eq;
  try (apply nonempty_normalize in Hnr);
  repeat match goal with
  | H : String.eqb _ _ = true |- _ => apply String.eqb_eq in H
  end;
  first [congruence | eexists; repeat f_equal; congruence].

Ltac leaf_explicit H Ht0 :=
  left; injection H as <- <-; unfold head_stop; mcbn; rewrite ?Ht0;
  split; [repeat constructor|]; split;
  [ let c := fresh "c" in let Hc := fresh "Hc" in
    intros c Hc;
    first
      [ discriminate Hc
      | injection Hc as <-; split; [reflexivity|]; split;
        [ intros _; split; [reflexivity | repeat constructor]
        | let Hn := fresh "Hn" in intros Hn; exfalso; apply Hn; reflexivity ] ]
  | peer_facts Ht0 ].

Ltac leaf_release H Ht0 :=
  left; eapply head_release in H;
  [ let Ho := fresh "Ho" in let Hs := fresh "Hs" in
    destruct H as [Ho Hs]; try subst; exact Hs
  | first [head_side Ht0 | peer_facts Ht0] .. ].

Lemma run_prechecks_head drpg_ocid topic base w0 o w' :
  run_prechecks E drpg_ocid topic base w0 = (o, w') -> trace w0 = [] ->
  head_stop topic base w0 o w' \/ tail_entered E drpg_ocid topic base w0 o w'.
Proof.
  intros H Ht0. unfold run_prechecks, switch_to_peer in H.
  hsteps H.
  (* release edges that are followed by code: the edge exits *)
  all: try match type of H with
    | context [@release_notify_exit E ?A ?a ?b ?c ?d ?e ?f ?v] =>
        lazymatch type of H with
        | release_notify_exit _ _ _ _ _ _ _ _ = _ => idtac
        | _ =>
          let Hr := fresh "Hr" in
          destruct (@release_notify_exit E A a b c d e f v) as [o1 w1] eqn:Hr;
          let Hx := fresh "Hx" in
          assert (Hx : o1 = Exit 1%Z);
          [ apply release_notify_exit_post in Hr as [_ Hr]; apply Hr; head_side Ht0
          | subst o1; injection H as <- <-; rename Hr into H ]
        end
    end.
  all: try solve [leaf_explicit H Ht0].
  all: try solve [leaf_release H Ht0].
  all: match type of H with
    | precheck_standby _ _ _ _ _ _ _ _ = _ =>
        right; unfold tail_entered; do 5 eexists; split; [exact H|];
        split; [head_side Ht0|]; split; [head_side Ht0|]; split; [head_side Ht0|]
    end.
  all: mcbn; rewrite ?Ht0.
  all: first
    [ left; eexists; split; [reflexivity|]; split; [reflexivity|];
      apply String.eqb_neq; assumption
    | right; do 4 eexists; split; [reflexivity|]; split; [reflexivity|];
      split; [apply String.eqb_eq; assumption|]; split; [eassumption|];
      assumption ].
Qed.
End Effects.

(** ** The claims *)

(** C10: a string is accepted by the identifier validator exactly when it is
    the fixed prefix followed by three dot-delimited segments, each of them
    not empty and free of dots; this holds for the protection-group pattern
    and for the topic pattern. *)
Theorem is_valid_ocid_iff_shape (s : string) :
  (is_valid_ocid s DRPG_OCID_PATTERN = true <->
   ocid_shape "ocid1.drprotectiongroup." s) /\
  (is_valid_ocid s TOPIC_OCID_PATTERN = true <->
   ocid_shape "ocid1.onstopic." s).
Proof. split; apply ocid_pattern_spec. Qed.

(** C9: [normalize_region] returns an input of the canonical region shape
    unchanged, returns the table's canonical form for every key of
    [REGION_MAPPING], returns the absent value for every other input, and is
    idempotent: a result it gives is returned unchanged when resolved again. *)
Theorem normalize_region_idempotent :
  (forall s, region_shape s -> normalize_region s = Some s) /\
  (forall k v, REGION_MAPPING !! k = Some v -> normalize_region k = Some v) /\
  (forall s, ~ region_shape s -> REGION_MAPPING !! s = None ->
     normalize_region s = None) /\
  (forall s r, normalize_region s = Some r -> normalize_region r = Some r).
Proof.
  assert (Hshape : forall s, region_shape s -> normalize_region s = Some s).
  { intros s Hs. apply region_pattern_spec in Hs. unfold normalize_region.
    rewrite Hs. reflexivity. }
  assert (Hkeys : forall k v, REGION_MAPPING !! k = Some v ->
            normalize_region k = Some v /\ region_shape v).
  { intros k v Hkv. pose proof Hkv as Hc.
    apply region_mapping_cases in Hc as [[-> ->] | [-> ->]];
      (split; [vm_compute; reflexivity | apply region_pattern_spec; vm_compute; reflexivity]). }
  split; [exact Hshape|]. split; [intros k v Hkv; apply Hkeys, Hkv|]. split.
  - intros s Hs Hnone. unfold normalize_region.
    destruct (Re.matches REGION_PATTERN s) eqn:Hm; [|exact Hnone].
    exfalso. apply Hs, region_pattern_spec, Hm.
  - intros s r Hr. apply Hshape. unfold normalize_region in Hr.
    destruct (Re.matches REGION_PATTERN s) eqn:Hm.
    + injection Hr as <-. apply region_pattern_spec, Hm.
    + apply (Hkeys s r Hr).
Qed.

Lemma normalize_region_idempotent_witness :
  normalize_region "eu-frankfurt-1" = Some "eu-frankfurt-1" /\
  normalize_region "iad" = Some "us-ashburn-1" /\
  normalize_region "fra" = None /\
  normalize_region "us-ashburn-1" = Some "us-ashburn-1".
Proof.
  destruct normalize_region_idempotent as (H1 & H2 & H3 & H4).
  split; [|split; [|split]].
  - apply H1. apply region_pattern_spec. vm_compute. reflexivity.
  - apply H2. vm_compute. reflexivity.
  - apply H3.
    + intros H. apply region_pattern_spec in H. vm_compute in H. discriminate H.
    + vm_compute. reflexivity.
  - apply (H4 "iad"). vm_compute. reflexivity.
Defined.

(** C3 (amended): [send_notification] never lets an exception escape: it
    returns normally or leaves through [sys.exit(1)].  Every exception raised
    inside its [try] block is logged as "Failed to send notification: ..." and
    the call returns normally.  It terminates the process exactly when the
    error log can be read and the region segment of the topic identifier does
    not resolve. *)
Theorem send_notification_outcome (E : env)
    (name id topic el base : string) (w : world) :
  let r := send_notification E name id topic el base w in
  (fst r = Ret tt \/ fst r = Exit 1%Z) /\
  (forall e w1,
     send_notification_try E name id topic el base w = (Raise e, w1) ->
     fst r = Ret tt /\
     trace (snd r) =
       EvLog ERROR ("Failed to send notification: " +:+ exn_str e) :: trace w1) /\
  (fst r = Exit 1%Z <->
   is_Some (logs w !! el) /\
   exists code, split "." topic !! 3 = Some code /\
     nonempty (normalize_region code) = None).
Proof.
  cbv zeta. split; [|split].
  - destruct (send_notification E name id topic el base w) as [o w'] eqn:H.
    apply send_notification_post in H. apply H.
  - intros e w1 H. unfold send_notification. cbn [try_except]. rewrite H.
    mcbn. auto.
  - destruct (send_notification E name id topic el base w) as [o w'] eqn:H.
    unfold send_notification, send_notification_try in H. msteps H.
    all: injection H as <- <-; cbn [fst]; split.
    all: try discriminate.
    all: try solve [intros _; split; [eauto | eauto] ].
    all: try solve [intros [[? ?] (code & ? & ?)]; congruence].
Qed.

Lemma send_notification_outcome_witness :
  fst (send_notification (Demo.standby_with [] (Some Demo.unavailable))
         "app" Demo.drpg_ocid Demo.topic_ocid "err.log" Demo.base_dir
         (Demo.with_error_log "err.log" "boom")) = Ret tt.
Proof.
  destruct (send_notification_outcome (Demo.standby_with [] (Some Demo.unavailable))
              "app" Demo.drpg_ocid Demo.topic_ocid "err.log" Demo.base_dir
              (Demo.with_error_log "err.log" "boom")) as (_ & H & _).
  eapply H. vm_compute. reflexivity.
Defined.

(** C3, as stated, fails: with a topic in a region whose short code is not in
    the table, the notifier terminates the process. *)
Lemma send_notification_exits :
  fst (send_notification (Demo.standby_with [] None)
         "app" Demo.drpg_ocid Demo.far_topic_ocid "err.log" Demo.base_dir
         (Demo.with_error_log "err.log" "boom")) = Exit 1%Z.
Proof. vm_compute. reflexivity. Qed.

(** C4 (amended): every message [send_notification] publishes goes to the
    topic it was given, has the body "<name>: <id>\n\n" followed by the full
    contents of the error log, and has the title
    "FSDR Precheck Failed for <name> - <id>"; and it does publish when the
    error log can be read and the region of the topic resolves. *)
Theorem notification_message (E : env)
    (name id topic el base : string) (w : world) :
  let w' := snd (send_notification E name id topic el base w) in
  (forall cfg t b ti r,
     In (EvPublish cfg t b ti r) (trace w') ->
     In (EvPublish cfg t b ti r) (trace w) \/
     (t = topic /\
      ti = "FSDR Precheck Failed for " +:+ name +:+ " - " +:+ id /\
      exists text, logs w !! el = Some text /\
        b = name +:+ ": " +:+ id +:+ nl +:+ nl +:+ text)) /\
  (is_Some (logs w !! el) -> topic_region_known topic ->
   exists cfg b ti r, In (EvPublish cfg topic b ti r) (trace w')).
Proof.
  cbv zeta.
  destruct (send_notification E name id topic el base w) as [o w'] eqn:H.
  apply send_notification_post in H
    as (_ & (evs & Htr & Hev & Hpub) & _). cbn [snd]. rewrite Htr. split.
  - intros cfg t b ti r Hin. apply in_app_or in Hin as [Hin | Hin]; [right | left; exact Hin].
    rewrite Forall_forall in Hev. apply list_elem_of_In in Hin.
    destruct (Hev _ Hin) as (-> & text & Htext & -> & ->).
    split; [reflexivity|]. split; [reflexivity|]. exists text. auto.
  - intros Hlog Hknown. destruct (Hpub Hlog Hknown) as (cfg & b & ti & r & Hin).
    exists cfg, b, ti, r. apply in_or_app. auto.
Qed.

Lemma notification_message_witness :
  exists cfg b ti r,
    In (EvPublish cfg Demo.topic_ocid b ti r)
      (trace (snd (send_notification (Demo.standby_with [] None)
                     "app" Demo.drpg_ocid Demo.topic_ocid "err.log" Demo.base_dir
                     (Demo.with_error_log "err.log" "boom")))).
Proof.
  apply (notification_message (Demo.standby_with [] None)
           "app" Demo.drpg_ocid Demo.topic_ocid "err.log" Demo.base_dir
           (Demo.with_error_log "err.log" "boom")).
  - vm_compute. eauto.
  - exists "phx", "us-phoenix-1". vm_compute. auto.
Defined.

(** C4, as stated, fails: the title that is published starts with "FSDR ". *)
Lemma notification_title_has_prefix :
  exists cfg body r,
    In (EvPublish cfg Demo.topic_ocid body
          ("FSDR Precheck Failed for app - " +:+ Demo.drpg_ocid) r)
      (trace (snd (send_notification (Demo.standby_with [] None)
                     "app" Demo.drpg_ocid Demo.topic_ocid "err.log" Demo.base_dir
                     (Demo.with_error_log "err.log" "boom")))) /\
    "FSDR Precheck Failed for app - " +:+ Demo.drpg_ocid
      <> "Precheck Failed for app - " +:+ Demo.drpg_ocid.
Proof.
  do 3 eexists. split.
  - vm_compute. left. reflexivity.
  - vm_compute. discriminate.
Qed.

Lemma is_transitional_spec (s : string) :
  is_transitional s = true <-> In s ["CREATING"; "UPDATING"; "DELETING"].
Proof.
  unfold is_transitional, transitional_states. rewrite bool_decide_eq_true.
  rewrite !elem_of_union, !elem_of_singleton. cbn [In]. intuition congruence.
Qed.

Lemma first_transitional_spec (items : list plan) (p : plan) :
  first_transitional items = Some p <->
  exists pre post, items = pre ++ p :: post /\
    In (plan_lifecycle_state p) ["CREATING"; "UPDATING"; "DELETING"] /\
    forall q, In q pre ->
      ~ In (plan_lifecycle_state q) ["CREATING"; "UPDATING"; "DELETING"].
Proof.
  unfold first_transitional. induction items as [|x items IH]; cbn [find].
  - split; [discriminate|]. intros (pre & post & H & _). destruct pre; discriminate.
  - destruct (is_transitional (plan_lifecycle_state x)) eqn:Hx.
    + split.
      * intros [= <-]. exists [], items. split; [reflexivity|].
        split; [apply is_transitional_spec, Hx | intros q []].
      * intros (pre & post & Heq & Hp & Hpre). destruct pre as [|y pre].
        -- injection Heq as -> _. reflexivity.
        -- injection Heq as -> _. exfalso. apply (Hpre y); [left; reflexivity|].
           apply is_transitional_spec, Hx.
    + rewrite IH. split.
      * intros (pre & post & -> & Hp & Hpre). exists (x :: pre), post.
        split; [reflexivity|]. split; [assumption|].
        intros q [<- | Hq]; [|auto].
        rewrite <- is_transitional_spec, Hx. discriminate.
      * intros (pre & post & Heq & Hp & Hpre). destruct pre as [|y pre].
        -- injection Heq as <- _. apply is_transitional_spec in Hp. congruence.
        -- injection Heq as <- ->. exists pre, post. split; [reflexivity|].
           split; [assumption|]. intros q Hq. apply Hpre. right. exact Hq.
Qed.

(** C7: [list_active_dr_plans] first lists all the plans of the group; if one
    of them is in a transitional state (CREATING, UPDATING, DELETING) it
    returns the state of the first such plan without a second request;
    otherwise it lists the plans again, filtered to the ACTIVE state, and
    returns that list; if either request raises, it returns the absent
    value. *)
Theorem list_active_dr_plans_spec (E : env) (id client : string) (w : world) :
  let first := list_dr_plans E (now w) client id None in
  let second := list_dr_plans E (S (now w)) client id (Some "ACTIVE") in
  let r := list_active_dr_plans E id client w in
  (forall items p, first = inr items -> first_transitional items = Some p ->
     fst r = Ret (PlansState (plan_lifecycle_state p)) /\
     exists msg, trace (snd r) =
       EvLog ERROR msg :: EvListPlans client id None first :: trace w) /\
  (forall items active, first = inr items -> first_transitional items = None ->
     second = inr active ->
     fst r = Ret (PlansList active) /\
     exists msg, trace (snd r) =
       EvLog INFO msg :: EvListPlans client id (Some "ACTIVE") second
       :: EvListPlans client id None first :: trace w) /\
  (forall e,
     first = inl e \/
     (exists items, first = inr items /\ first_transitional items = None /\
                    second = inl e) ->
     fst r = Ret PlansNone) /\
  (forall items p, first_transitional items = Some p <->
     exists pre post, items = pre ++ p :: post /\
       In (plan_lifecycle_state p) ["CREATING"; "UPDATING"; "DELETING"] /\
       forall q, In q pre ->
         ~ In (plan_lifecycle_state q) ["CREATING"; "UPDATING"; "DELETING"]).
Proof.
  cbv zeta. unfold list_active_dr_plans. mcbn.
  split; [|split; [|split]].
  - intros items p H1 Hp. rewrite H1. mcbn. rewrite scan_transitional_eq, Hp.
    mcbn. eauto.
  - intros items active H1 Hn H2. rewrite H1. mcbn.
    rewrite scan_transitional_eq, Hn. mcbn. rewrite H2. mcbn. eauto.
  - intros e [H1 | (items & H1 & Hn & H2)]; rewrite H1; mcbn; [reflexivity|].
    rewrite scan_transitional_eq, Hn. mcbn. rewrite H2. mcbn. reflexivity.
  - apply first_transitional_spec.
Qed.

Lemma list_active_dr_plans_spec_witness :
  fst (list_active_dr_plans
         (Demo.standby_with [Demo.switchover_plan; Demo.updating_plan] None)
         Demo.drpg_ocid "cfg" initial_world) = Ret (PlansState "UPDATING") /\
  fst (list_active_dr_plans
         (Demo.standby_with [Demo.switchover_plan; Demo.failover_plan] None)
         Demo.drpg_ocid "cfg" initial_world)
    = Ret (PlansList [Demo.switchover_plan; Demo.failover_plan]) /\
  fst (list_active_dr_plans Demo.listing_fails Demo.drpg_ocid "cfg" initial_world)
    = Ret PlansNone.
Proof.
  split; [|split].
  - pose proof (list_active_dr_plans_spec
             (Demo.standby_with [Demo.switchover_plan; Demo.updating_plan] None)
             Demo.drpg_ocid "cfg" initial_world) as H.
    cbv zeta in H. destruct H as (H & _).
    apply (H [Demo.switchover_plan; Demo.updating_plan] Demo.updating_plan);
      vm_compute; reflexivity.
  - pose proof (list_active_dr_plans_spec
             (Demo.standby_with [Demo.switchover_plan; Demo.failover_plan] None)
             Demo.drpg_ocid "cfg" initial_world) as H.
    cbv zeta in H. destruct H as (_ & H & _).
    apply (H [Demo.switchover_plan; Demo.failover_plan]);
      vm_compute; reflexivity.
  - pose proof (list_active_dr_plans_spec Demo.listing_fails Demo.drpg_ocid "cfg"
             initial_world) as H.
    cbv zeta in H. destruct H as (_ & _ & H & _).
    apply (H Demo.unavailable). left. vm_compute. reflexivity.
Defined.

(** *** Whole runs *)

(** Evaluate the left-hand side of an equation in place. *)
Ltac eval_lhs H :=
  match type of H with
  | ?l = _ =>
      let v := eval vm_compute in l in
      let Hv := fresh "Hv" in
      assert (Hv : l = v) by (vm_compute; reflexivity);
      rewrite Hv in H; clear Hv
  end.

Lemma run_eq {A} (m : M A) (w : world) : m w = (fst (m w), snd (m w)).
Proof. destruct (m w); reflexivity. Qed.

Lemma head_not_listing evs cfg id lc r :
  Forall head_event evs -> ~ In (EvListPlans cfg id lc r) evs.
Proof. rewrite Forall_forall. intros H Hin. apply list_elem_of_In in Hin. exact (H _ Hin). Qed.

Lemma head_created evs : Forall head_event evs -> omap created_of (rev evs) = [].
Proof.
  induction 1 as [|ev evs Hev _ IH]; [reflexivity|].
  cbn [rev]. rewrite omap_app, IH. destruct ev; cbn in *; tauto.
Qed.

(** The shape of the trace when the standby view is fixed. *)
Lemma tail_entry_trace E drpg_ocid topic base w0 o w' :
  tail_entered E drpg_ocid topic base w0 o w' ->
  exists el rf client standby w1,
    precheck_standby E topic el base rf client standby w1 = (o, w') /\
    is_Some (files w1 !! rf) /\ is_Some (logs w1 !! el) /\
    (files w0 = ∅ -> forall p, is_Some (files w1 !! p) -> p = rf) /\
    Forall head_event (trace w1) /\
    Forall (fun ev => is_publish ev = false) (trace w1) /\
    fetches (trace w1) <> [].
Proof.
  intros (el & rf & client & standby & w1 & H & Hrf & Hel & Honly & Hcase).
  exists el, rf, client, standby, w1. do 4 (split; [assumption|]).
  destruct Hcase as [(cfg0 & -> & _) | (cfg0 & group & pr & r & -> & _)];
    (split; [repeat constructor|]; split; [repeat constructor|]);
    cbn; discriminate.
Qed.

(** C5: if a plan-listing request raises, [list_active_dr_plans] logs the
    failure and returns the absent value; the orchestrator then takes the
    length of that value, which raises an unhandled [TypeError]: the process
    ends without a logged error-exit, the region file is still there and no
    notification has been published. *)
Theorem enumeration_failure_is_unhandled (E : env)
    (drpg_ocid : string) (topic_ocid : option string) (base_dir : string)
    (w0 : world) (o : outcome unit) (w' : world)
    (cfg id : string) (lifecycle : option string) (e : exn) :
  trace w0 = [] -> files w0 = ∅ ->
  run_prechecks E drpg_ocid topic_ocid base_dir w0 = (o, w') ->
  In (EvListPlans cfg id lifecycle (inl e)) (trace w') ->
  o = Raise (TypeError "object of type 'NoneType' has no len()") /\
  In (EvLog ERROR ("Failed to list DR plans: " +:+ exn_str e)) (trace w') /\
  (exists region_file, is_Some (files w' !! region_file) /\
     forall p, is_Some (files w' !! p) -> p = region_file) /\
  Forall (fun ev => is_publish ev = false) (trace w') /\
  (forall sid client w,
     list_dr_plans E (now w) client sid None = inl e \/
     (exists items,
        list_dr_plans E (now w) client sid None = inr items /\
        first_transitional items = None /\
        list_dr_plans E (S (now w)) client sid (Some "ACTIVE") = inl e) ->
     fst (list_active_dr_plans E sid client w) = Ret PlansNone).
Proof.
  intros Ht0 Hf0 Hrun Hin.
  assert (Hnone : forall sid client w,
    list_dr_plans E (now w) client sid None = inl e \/
    (exists items,
       list_dr_plans E (now w) client sid None = inr items /\
       first_transitional items = None /\
       list_dr_plans E (S (now w)) client sid (Some "ACTIVE") = inl e) ->
    fst (list_active_dr_plans E sid client w) = Ret PlansNone).
  { intros sid client w [H1 | (items & H1 & Hn & H2)];
      unfold list_active_dr_plans; mcbn; rewrite H1; mcbn; [reflexivity|].
    rewrite scan_transitional_eq, Hn. mcbn. rewrite H2. reflexivity. }
  apply run_prechecks_head in Hrun; [|assumption]. destruct Hrun as [Hstop | Htail].
  { destruct Hstop as (Hhead & _). exfalso. eapply head_not_listing; eassumption. }
  apply tail_entry_trace in Htail
    as (el & rf & client & standby & w1 & H & Hrf & Hel & Honly & Hhead & Hnp & _).
  apply precheck_standby_post in H as (evs & Htr & _ & _ & H3 & _); [|assumption..].
  rewrite Htr in Hin |- *. apply in_app_or in Hin as [Hin | Hin].
  2:{ exfalso. eapply head_not_listing; eassumption. }
  destruct (H3 _ _ _ _ Hin) as (-> & Hfiles & Hpub & Hlog).
  split; [reflexivity|]. split; [apply in_or_app; auto|]. split.
  - exists rf. rewrite Hfiles. auto.
  - split; [|exact Hnone]. apply Forall_app. auto.
Qed.

Lemma enumeration_failure_is_unhandled_witness :
  fst (run_prechecks Demo.listing_fails Demo.drpg_ocid (Some Demo.topic_ocid)
         Demo.base_dir initial_world)
    = Raise (TypeError "object of type 'NoneType' has no len()").
Proof.
  destruct (run_prechecks Demo.listing_fails Demo.drpg_ocid (Some Demo.topic_ocid)
              Demo.base_dir initial_world) as [o w'] eqn:Hrun.
  assert (Hw : trace (snd (run_prechecks Demo.listing_fails Demo.drpg_ocid
                 (Some Demo.topic_ocid) Demo.base_dir initial_world)) = trace w')
    by (rewrite Hrun; reflexivity).
  eval_lhs Hw.
  apply (enumeration_failure_is_unhandled Demo.listing_fails Demo.drpg_ocid
           (Some Demo.topic_ocid) Demo.base_dir initial_world o w'
           (region_config "us-ashburn-1") Demo.drpg_ocid None Demo.unavailable).
  - reflexivity.
  - reflexivity.
  - exact Hrun.
  - rewrite <- Hw. vm_compute. auto.
Defined.

Lemma DrPlanType_lookup_None (s : string) :
  DrPlanType_lookup s = None <->
  ~ In s ["SWITCHOVER"; "FAILOVER"; "START_DRILL"; "STOP_DRILL"].
Proof.
  unfold DrPlanType_lookup, DrPlanType_members. cbn [find DrPlanType_value].
  split.
  - intros H Hin. cbn [In] in Hin.
    destruct Hin as [<- | [<- | [<- | [<- | []]]]]; vm_compute in H; discriminate.
  - intros H.
    repeat match goal with
    | |- context [String.eqb ?a s] =>
        destruct (String.eqb_spec a s) as [Heq | _];
        [exfalso; apply H; rewrite <- Heq; cbn [In]; auto 10 |]
    end.
    reflexivity.
Qed.

(** C6: when the list of active plans holds a plan whose type is outside
    SWITCHOVER, FAILOVER, START_DRILL and STOP_DRILL, the run ends with an
    exception (the process terminates with a non-zero status), reaching that
    plan raises at once and changes nothing, and the executions requested in
    the whole run are those of some of the plans listed before it, in order:
    none for that plan, none for the plans after it. *)
Theorem unknown_plan_type_stops_the_run (E : env)
    (drpg_ocid : string) (topic_ocid : option string) (base_dir : string)
    (w0 : world) (o : outcome unit) (w' : world)
    (cfg id : string) (pre : list plan) (p : plan) (post : list plan) :
  trace w0 = [] ->
  run_prechecks E drpg_ocid topic_ocid base_dir w0 = (o, w') ->
  In (EvListPlans cfg id (Some "ACTIVE") (inr (pre ++ p :: post))) (trace w') ->
  ~ In (plan_type p) ["SWITCHOVER"; "FAILOVER"; "START_DRILL"; "STOP_DRILL"] ->
  (exists e, o = Raise e) /\ exit_status o = 1%Z /\
  (exists k, k <= length pre /\
     created (trace w') = map plan_id (take k pre)) /\
  (forall sid client w,
     precheck_plan E sid client p w =
     (Raise (ValueError ("'" +:+ plan_type p +:+ "' is not a valid DrPlanType")), w)).
Proof.
  intros Ht0 Hrun Hin Hp. apply DrPlanType_lookup_None in Hp.
  assert (Hnow : forall sid client w,
    precheck_plan E sid client p w =
    (Raise (ValueError ("'" +:+ plan_type p +:+ "' is not a valid DrPlanType")), w)).
  { intros sid client w. unfold precheck_plan. rewrite Hp. reflexivity. }
  apply run_prechecks_head in Hrun; [|assumption]. destruct Hrun as [Hstop | Htail].
  { destruct Hstop as (Hhead & _). exfalso. eapply head_not_listing; eassumption. }
  apply tail_entry_trace in Htail
    as (el & rf & client & standby & w1 & H & Hrf & Hel & Honly & Hhead & Hnp & _).
  apply precheck_standby_post in H as (evs & Htr & _ & _ & _ & H4 & _); [|assumption..].
  rewrite Htr in Hin. apply in_app_or in Hin as [Hin | Hin].
  2:{ exfalso. eapply head_not_listing; eassumption. }
  destruct (H4 _ _ _ _ _ Hin Hp) as ((e & ->) & k & Hk & Hcr).
  split; [eauto|]. split; [reflexivity|]. split; [|exact Hnow].
  exists k. split; [assumption|]. unfold created.
  rewrite Htr, rev_app_distr, omap_app, head_created by assumption. exact Hcr.
Qed.

Lemma unknown_plan_type_stops_the_run_witness :
  exists k, k <= 1 /\
    created (trace (snd (run_prechecks
       (Demo.standby_with [Demo.switchover_plan; Demo.odd_plan; Demo.failover_plan] None)
       Demo.drpg_ocid None Demo.base_dir initial_world)))
    = map plan_id (take k [Demo.switchover_plan]).
Proof.
  destruct (run_prechecks
       (Demo.standby_with [Demo.switchover_plan; Demo.odd_plan; Demo.failover_plan] None)
       Demo.drpg_ocid None Demo.base_dir initial_world) as [o w'] eqn:Hrun.
  assert (Hw : trace (snd (run_prechecks
       (Demo.standby_with [Demo.switchover_plan; Demo.odd_plan; Demo.failover_plan] None)
       Demo.drpg_ocid None Demo.base_dir initial_world)) = trace w')
    by (rewrite Hrun; reflexivity).
  eval_lhs Hw. cbn [snd].
  apply (unknown_plan_type_stops_the_run
           (Demo.standby_with [Demo.switchover_plan; Demo.odd_plan; Demo.failover_plan] None)
           Demo.drpg_ocid None Demo.base_dir initial_world o w'
           (region_config "us-ashburn-1") Demo.drpg_ocid
           [Demo.switchover_plan] Demo.odd_plan [Demo.failover_plan]).
  - reflexivity.
  - exact Hrun.
  - rewrite <- Hw. vm_compute. auto 20.
  - apply DrPlanType_lookup_None. reflexivity.
Defined.







(** C1 fails on the code: region files outlive the process.  A plan of a type
    outside the enumeration ends the run with a [ValueError] while the region
    file of the orchestrator is still there; a publish request that raises
    makes [send_notification] return normally while its own region file is
    still there; a failing plan listing does the same through the
    [TypeError] of [len(None)]. *)
Theorem region_file_leaks :
  (let r := run_prechecks (Demo.standby_with [Demo.switchover_plan; Demo.odd_plan] None)
              Demo.drpg_ocid None Demo.base_dir initial_world in
   fst r = Raise (ValueError "'MIGRATION' is not a valid DrPlanType") /\
   files (snd r) !! (Demo.base_dir +:+ "/" +:+ Demo.drpg_ocid +:+ ".20250101120000")
     = Some (region_config "us-ashburn-1")) /\
  (let r := run_prechecks (Demo.unconfigured (Some Demo.unavailable))
              Demo.drpg_ocid (Some Demo.topic_ocid) Demo.base_dir initial_world in
   fst r = Exit 1%Z /\
   files (snd r) !! (Demo.base_dir +:+ "/" +:+ Demo.topic_ocid +:+ ".20250101120000")
     = Some (region_config "us-phoenix-1")) /\
  (let r := run_prechecks Demo.listing_fails
              Demo.drpg_ocid None Demo.base_dir initial_world in
   fst r = Raise (TypeError "object of type 'NoneType' has no len()") /\
   files (snd r) !! (Demo.base_dir +:+ "/" +:+ Demo.drpg_ocid +:+ ".20250101120000")
     = Some (region_config "us-ashburn-1")).
Proof. vm_compute. repeat split. Qed.

(** * Further properties *)

(** ** Splitting identifiers *)

Lemma ascii_eqb_eq a b : Re.ascii_eqb a b = true <-> a = b.
Proof. unfold Re.ascii_eqb. apply Ascii.eqb_eq. Qed.

Lemma ascii_eqb_neq a b : Re.ascii_eqb a b = false <-> a <> b.
Proof. unfold Re.ascii_eqb. apply Ascii.eqb_neq. Qed.

Lemma split_free sep x : free_of sep x -> split sep x = [x].
Proof.
  induction x as [|c x IH]; intros Hx; [reflexivity|].
  cbn [split]. destruct (Re.ascii_eqb c sep) eqn:Hc.
  - exfalso. apply Hx. apply ascii_eqb_eq in Hc. left. exact Hc.
  - rewrite IH; [reflexivity|]. intros Hin. apply Hx. right. exact Hin.
Qed.

Lemma split_app sep x rest :
  free_of sep x -> split sep (x +:+ String sep rest) = x :: split sep rest.
Proof.
  induction x as [|c x IH]; intros Hx.
  - rewrite app_empty_l. cbn [split].
    replace (Re.ascii_eqb sep sep) with true; [reflexivity|].
    symmetry. apply ascii_eqb_eq. reflexivity.
  - rewrite app_cons. cbn [split]. destruct (Re.ascii_eqb c sep) eqn:Hc.
    + exfalso. apply Hx. apply ascii_eqb_eq in Hc. left. exact Hc.
    + rewrite IH; [reflexivity|]. intros Hin. apply Hx. right. exact Hin.
Qed.

(** X1: [split] and [join] are inverse to each other: joining the pieces of a
    string gives the string back, no piece holds the separator, and there is
    always at least one piece. *)
Theorem join_split (sep : ascii) (s : string) :
  join sep (split sep s) = s /\
  Forall (free_of sep) (split sep s) /\
  1 <= length (split sep s).
Proof.
  induction s as [|c s (IHj & IHf & IHl)].
  - cbn. split; [reflexivity|]. split; [|lia].
    constructor; [|constructor]. intros [].
  - cbn [split]. destruct (Re.ascii_eqb c sep) eqn:Hc.
    + apply ascii_eqb_eq in Hc. subst c. split; [|split].
      * cbn [join]. destruct (split sep s) eqn:Hs; [cbn in IHl; lia|].
        rewrite app_empty_l, IHj. reflexivity.
      * constructor; [intros []|assumption].
      * cbn [length]. lia.
    + apply ascii_eqb_neq in Hc.
      destruct (split sep s) as [|x xs] eqn:Hs; [cbn in IHl; lia|].
      split; [|split].
      * rewrite <- IHj. cbn [join]. destruct xs; [reflexivity|].
        rewrite app_cons. reflexivity.
      * apply Forall_cons in IHf as [Hx Hxs]. constructor; [|assumption].
        intros [Hin|Hin]; [congruence | exact (Hx Hin)].
      * cbn [length]. lia.
Qed.

(** X2: a non-empty list of pieces, none of which holds the separator, is
    what [split] finds in their [join]. *)
Theorem split_join (sep : ascii) (pieces : list string) :
  pieces <> [] -> Forall (free_of sep) pieces ->
  split sep (join sep pieces) = pieces.
Proof.
  induction pieces as [|x rest IH]; intros Hne Hfree; [congruence|].
  apply Forall_cons in Hfree as [Hx Hrest].
  destruct rest as [|y rest].
  - cbn [join]. apply split_free. exact Hx.
  - change (join sep (x :: y :: rest)) with (x +:+ String sep (join sep (y :: rest))).
    rewrite split_app by exact Hx. rewrite IH; [reflexivity|discriminate|assumption].
Qed.

Lemma split_join_witness :
  split "." (join "." ["ocid1"; "onstopic"; "oc1"; "phx"; "abc"]) =
  ["ocid1"; "onstopic"; "oc1"; "phx"; "abc"].
Proof.
  apply (split_join "." ["ocid1"; "onstopic"; "oc1"; "phx"; "abc"]).
  - discriminate.
  - repeat constructor; vm_compute; intuition discriminate.
Defined.

Lemma app_assoc_s a b c : (a +:+ b) +:+ c = a +:+ (b +:+ c).
Proof.
  induction a as [|x a IH]; [rewrite !app_empty_l; reflexivity|].
  rewrite !app_cons, IH. reflexivity.
Qed.

Lemma segment_free x : segment x -> free_of "." x.
Proof. intros [_ H]. exact H. Qed.

Lemma ocid_shape_split kind s :
  free_of "." kind ->
  ocid_shape ("ocid1." +:+ kind +:+ ".") s ->
  exists realm region unique,
    segment realm /\ segment region /\ segment unique /\
    s = join "." ["ocid1"; kind; realm; region; unique] /\
    split "." s = ["ocid1"; kind; realm; region; unique].
Proof.
  intros Hk (a & b & c & -> & Ha & Hb & Hc).
  exists a, b, c. do 3 (split; [assumption|]).
  assert (Heq : ("ocid1." +:+ kind +:+ ".") +:+ a +:+ "." +:+ b +:+ "." +:+ c =
                join "." ["ocid1"; kind; a; b; c]).
  { cbn [join]. rewrite !app_assoc_s, !app_cons, !app_empty_l. reflexivity. }
  split; [exact Heq|]. rewrite Heq. apply split_join; [discriminate|].
  repeat constructor; try (apply segment_free; assumption); try assumption.
  vm_compute. intuition discriminate.
Qed.

(** X3: the region code the orchestrator and the notifier read with
    [ocid.split('.')[3]] exists for every identifier the validator accepts,
    and it is the second of the three segments: an accepted identifier
    splits into exactly five pieces. *)
Theorem valid_ocid_region_code (s : string) :
  (is_valid_ocid s DRPG_OCID_PATTERN = true ->
   exists realm region unique,
     segment realm /\ segment region /\ segment unique /\
     s = join "." ["ocid1"; "drprotectiongroup"; realm; region; unique] /\
     split "." s = ["ocid1"; "drprotectiongroup"; realm; region; unique] /\
     split "." s !! 3 = Some region) /\
  (is_valid_ocid s TOPIC_OCID_PATTERN = true ->
   exists realm region unique,
     segment realm /\ segment region /\ segment unique /\
     s = join "." ["ocid1"; "onstopic"; realm; region; unique] /\
     split "." s = ["ocid1"; "onstopic"; realm; region; unique] /\
     split "." s !! 3 = Some region).
Proof.
  split; intros H; apply ocid_pattern_spec in H.
  - apply (ocid_shape_split "drprotectiongroup") in H
      as (a & b & c & Ha & Hb & Hc & Hs & Hsp);
      [|vm_compute; intuition discriminate].
    exists a, b, c. rewrite Hsp. auto 10.
  - apply (ocid_shape_split "onstopic") in H
      as (a & b & c & Ha & Hb & Hc & Hs & Hsp);
      [|vm_compute; intuition discriminate].
    exists a, b, c. rewrite Hsp. auto 10.
Qed.

Lemma valid_ocid_region_code_witness :
  exists realm region unique,
    segment realm /\ segment region /\ segment unique /\
    Demo.drpg_ocid = join "." ["ocid1"; "drprotectiongroup"; realm; region; unique] /\
    split "." Demo.drpg_ocid = ["ocid1"; "drprotectiongroup"; realm; region; unique] /\
    split "." Demo.drpg_ocid !! 3 = Some region.
Proof.
  apply (valid_ocid_region_code Demo.drpg_ocid). vm_compute. reflexivity.
Defined.

(** X4: no string is accepted both as a protection-group identifier and as a
    topic identifier, so the two arguments of the script cannot be swapped
    unnoticed. *)
Theorem ocid_patterns_disjoint (s : string) :
  is_valid_ocid s DRPG_OCID_PATTERN = true ->
  is_valid_ocid s TOPIC_OCID_PATTERN = false.
Proof.
  intros H. apply not_true_is_false. intros H'.
  apply ocid_pattern_spec in H as (a & b & c & -> & _).
  apply ocid_pattern_spec in H' as (a' & b' & c' & H' & _).
  rewrite !app_cons in H'. discriminate.
Qed.

Lemma ocid_patterns_disjoint_witness :
  is_valid_ocid Demo.drpg_ocid TOPIC_OCID_PATTERN = false.
Proof.
  apply (ocid_patterns_disjoint Demo.drpg_ocid). vm_compute. reflexivity.
Defined.

(** ** The logger *)

(** X5: of the three handlers [setup_logger] installs, the one of the error
    log emits a record exactly when its level is ERROR (a CRITICAL record
    passes the level of the handler and is stopped by [LevelFilter]); the
    persistent log and the console emit every record of level INFO or above;
    and [log] writes to the error log exactly the records that handler
    emits. *)
Theorem error_log_holds_only_errors (E : env) :
  (forall n, handler_emits fh_error n = true <-> n = 40%Z) /\
  (forall n, handler_emits fh_all n = true <-> (20 <= n)%Z) /\
  (forall n, handler_emits ch n = true <-> (20 <= n)%Z) /\
  (forall lvl, sinks_of (levelno lvl) =
     if handler_emits fh_error (levelno lvl) then [AllLog; ErrorLog; Console]
     else [AllLog; Console]) /\
  (forall lvl msg exc_info w,
     let w' := snd (log E lvl msg exc_info w) in
     fst (log E lvl msg exc_info w) = Ret tt /\
     trace w' = EvLog lvl msg :: trace w /\
     files w' = files w /\
     logs w' =
       if handler_emits fh_error (levelno lvl)
       then append_to (err_handler w) (render E (now w) lvl msg exc_info) (logs w)
       else logs w).
Proof.
  unfold handler_emits, LevelFilter_filter, logger_level. cbn.
  split; [|split; [|split; [|split]]].
  - intros n. rewrite !andb_true_iff, !Z.leb_le, Z.eqb_eq. lia.
  - intros n. rewrite !andb_true_iff, !Z.leb_le. lia.
  - intros n. rewrite !andb_true_iff, !Z.leb_le. lia.
  - intros []; reflexivity.
  - intros [] msg exc_info w; cbn; auto.
Qed.

(** ** Single calls *)

(** X6: [get_drpg_details] never raises and never exits: it returns the group
    the service answered, and the absent value when the request raised, in
    which case one ERROR record is logged, with the message of a
    [ServiceError] and the text of any other exception; no file is touched. *)
Theorem get_drpg_details_absorbs (E : env) (id : option string) (client : string)
    (w : world) :
  let answer := get_dr_protection_group E (now w) client id in
  exists w',
    get_drpg_details E id client w =
      (Ret (match answer with inr d => Some d | inl _ => None end), w') /\
    files w' = files w /\
    trace w' =
      match answer with
      | inr _ => [EvGetDrpg client id answer]
      | inl (ServiceError message _) =>
          [EvLog ERROR ("Service error: " +:+ message); EvGetDrpg client id answer]
      | inl (OtherError _ text) =>
          [EvLog ERROR ("Unexpected error: " +:+ text); EvGetDrpg client id answer]
      end ++ trace w.
Proof.
  cbv zeta. unfold get_drpg_details. mcbn.
  destruct (get_dr_protection_group E (now w) client id) as [[m t|c t]|d]; mcbn;
    eexists; (split; [reflexivity|]); split; reflexivity.
Qed.





(** X9: when the error log is missing, or the topic identifier has fewer than
    four dot-delimited pieces, [send_notification] returns normally without
    any publish request and without writing a file; the one thing it does is
    log the failure. *)
Theorem send_notification_nothing_to_send (E : env)
    (name id topic el base : string) (w : world) :
  logs w !! el = None \/ split "." topic !! 3 = None ->
  exists w' e,
    send_notification E name id topic el base w = (Ret tt, w') /\
    files w' = files w /\
    trace w' = EvLog ERROR ("Failed to send notification: " +:+ exn_str e) :: trace w.
Proof.
  intros H. unfold send_notification, send_notification_try. mcbn.
  destruct (logs w !! el) as [t|] eqn:Hlog; mcbn.
  - destruct H as [H|H]; [discriminate|]. rewrite H. mcbn.
    do 2 eexists. split; [reflexivity|]. mcbn. auto.
  - do 2 eexists. split; [reflexivity|]. mcbn. auto.
Qed.

Lemma send_notification_nothing_to_send_witness :
  exists w' e,
    send_notification (Demo.unconfigured None) "app-new" Demo.drpg_ocid
      Demo.topic_ocid "/opt/fsdr/logs/e.log" Demo.base_dir initial_world = (Ret tt, w') /\
    files w' = files initial_world /\
    trace w' = EvLog ERROR ("Failed to send notification: " +:+ exn_str e)
               :: trace initial_world.
Proof.
  apply (send_notification_nothing_to_send (Demo.unconfigured None) "app-new"
           Demo.drpg_ocid Demo.topic_ocid "/opt/fsdr/logs/e.log" Demo.base_dir
           initial_world).
  left. reflexivity.
Defined.

(** ** The error log and the messages *)






(** ** Tactics for the runs *)

Ltac conj_all := repeat match goal with |- _ /\ _ => split end.

(** The events a leaf adds to the trace, read off the goal. *)
Ltac events_of :=
  match goal with
  | |- exists evs, ?tr = evs ++ ?t /\ _ =>
      let rec go l tr :=
        lazymatch tr with
        | t => exists (rev l)
        | ?a :: ?tr' => go (a :: l) tr'
        end in go (@nil event) tr
  end; cbn [rev app]; split; [reflexivity|].

Ltac in_cases H :=
  repeat match type of H with
  | In _ (_ :: _) => destruct H as [H|H]
  | In _ [] => destruct H
  end.

Ltac eval_enum H :=
  repeat match type of H with
  | context [DrPlanType_eqb ?a ?b] =>
      let v := eval vm_compute in (DrPlanType_eqb a b) in
      change (DrPlanType_eqb a b) with v in H
  end.

Ltac case_lookup H m p Hl :=
  destruct (lookup_cases m p) as [[? Hl] | Hl];
  [ rewrite ?(exists_true _ _ _ Hl) in H | rewrite ?(exists_false _ _ Hl) in H ];
  rewrite ?Hl in H.

(** Case analysis on everything but the calls that have a summary. *)
Ltac split_call H :=
  let T := type of H in
  let x := scrutinee T in
  lazymatch x with
  | release_notify_exit _ _ _ _ _ _ _ _ => fail
  | precheck_standby _ _ _ _ _ _ _ _ => fail
  | send_notification _ _ _ _ _ _ _ => fail
  | _ => destruct x eqn:?
  end.

Ltac head_steps H :=
  repeat (mcbn; cbn [negb] in H;
          rewrite ?lookup_insert_eq, ?lookup_delete_eq in H; split_call H);
  mcbn; rewrite ?lookup_insert_eq, ?lookup_delete_eq in H.

Lemma appended_is_Some p text (ls : gmap string string) q :
  is_Some (alter (fun t => t +:+ text) p ls !! q) <-> is_Some (ls !! q).
Proof. exact (append_to_is_Some (Some p) text ls q). Qed.

Ltac file_there := mcbn; rewrite ?lookup_insert_eq; eauto.

Ltac log_there :=
  mcbn; rewrite ?append_to_is_Some, ?appended_is_Some; apply touch_is_Some.

Lemma quiet_not_signer evs r : Forall quiet evs -> ~ In (EvSigner r) evs.
Proof.
  rewrite Forall_forall. intros H Hin. apply list_elem_of_In in Hin. exact (H _ Hin).
Qed.

(** ** The plan loop *)

Section Loop.
Variable E : env.

Lemma precheck_plan_cases sid client p w o w' :
  precheck_plan E sid client p w = (o, w') ->
  exists evs, trace w' = evs ++ trace w /\
    (requests evs = [] \/ map Some (requests evs) = [request_of p]) /\
    (o = Ret tt ->
       map Some (requests evs) = [request_of p] /\
       Forall (fun ev => failure_of ev = None) evs /\
       exists ev, In ev evs /\ verdict p ev) /\
    (forall ev e, In ev evs -> failure_of ev = Some e ->
       o = Raise e /\ exists rest, evs = ev :: rest) /\
    (forall e, o = Raise e -> loop_breaker [p] evs e).
Proof.
  intros H. unfold precheck_plan in H.
  destruct (DrPlanType_lookup (plan_type p)) as [ty|] eqn:Hty.
  2:{ mcbn. injection H as <- <-. exists []. split; [reflexivity|].
      split; [left; reflexivity|]. split; [discriminate|].
      split; [intros ev e []|]. intros e _. left. exists p. split; [left|]; auto. }
  destruct ty; mcbn; eval_enum H; msteps H.
  all: injection H as <- <-; mcbn.
  all: events_of.
  all: unfold requests, request_of; rewrite Hty; cbn [rev app omap list_omap
         request_ev option_map map options_for].
  all: conj_all.
  all: try solve [left; reflexivity | right; reflexivity].
  all: try solve [intros [=]].
  all: try solve [intros _; conj_all;
         [ reflexivity | repeat constructor
         | eexists; split; [left; reflexivity|]; unfold verdict; auto ] ].
  all: try solve [
         let ev := fresh "ev" in let x := fresh "x" in
         let Hin := fresh "Hin" in let Hf := fresh "Hf" in
         intros ev x Hin Hf; in_cases Hin; subst ev; cbn in Hf; try discriminate Hf;
         injection Hf as <-; (split; [reflexivity | eexists; reflexivity]) ].
  all: let x := fresh "x" in let Hx := fresh "Hx" in
       intros x Hx; try discriminate Hx; injection Hx as <-; right;
       first
         [ eexists; split; [left; reflexivity|]; left; reflexivity
         | eexists; split; [right; left; reflexivity|]; left; reflexivity
         | eexists; split; [left; reflexivity|]; right; do 3 eexists; reflexivity
         | eexists; split; [right; left; reflexivity|]; right; do 3 eexists; reflexivity ].
Qed.

Lemma loop_breaker_cons p rest evs1 evs e :
  loop_breaker [p] evs1 e \/ loop_breaker rest evs e ->
  loop_breaker (p :: rest) (evs ++ evs1) e.
Proof.
  intros [[(q & Hq & Hty) | (ev & Hin & Hev)] | [(q & Hq & Hty) | (ev & Hin & Hev)]].
  - left. exists q. split; [|assumption]. destruct Hq as [<- | []]. left. reflexivity.
  - right. exists ev. split; [apply in_or_app; auto | assumption].
  - left. exists q. split; [right|]; assumption.
  - right. exists ev. split; [apply in_or_app; auto | assumption].
Qed.

Lemma requests_app evs1 evs2 :
  requests (evs2 ++ evs1) = requests evs1 ++ requests evs2.
Proof. unfold requests. rewrite rev_app_distr, omap_app. reflexivity. Qed.

Lemma precheck_plans_cases sid client plans : forall w o w',
  precheck_plans E sid client plans w = (o, w') ->
  exists evs, trace w' = evs ++ trace w /\
    (exists k, k <= length plans /\
       map Some (requests evs) = map request_of (take k plans) /\
       (o = Ret tt -> k = length plans)) /\
    (o = Ret tt ->
       Forall (fun ev => failure_of ev = None) evs /\
       Forall (fun p => exists ev, In ev evs /\ verdict p ev) plans) /\
    (forall ev e, In ev evs -> failure_of ev = Some e ->
       o = Raise e /\ exists rest, evs = ev :: rest) /\
    (forall e, o = Raise e -> loop_breaker plans evs e).
Proof.
  induction plans as [|p rest IH]; intros w o w' H; cbn [precheck_plans] in H.
  - mcbn. injection H as <- <-. exists []. split; [reflexivity|].
    split; [exists 0; cbn; auto|]. split; [auto|].
    split; [intros ev e []|]. intros e [=].
  - cbn [bind] in H.
    destruct (precheck_plan E sid client p w) as [o1 w1] eqn:H1.
    apply precheck_plan_cases in H1 as (evs1 & Ht1 & Hr1 & Hret1 & Hfail1 & Hwhy1).
    destruct o1 as [[]|e|c].
    + apply IH in H as (evs & Ht & (k & Hk & Hreq & Hall) & Hret & Hfail & Hwhy).
      destruct (Hret1 eq_refl) as (Hreq1 & Hok1 & ev1 & Hin1 & Hv1).
      exists (evs ++ evs1). rewrite Ht, Ht1, app_assoc. split; [reflexivity|].
      split; [|split; [|split]].
      4:{ intros e He. apply loop_breaker_cons. right. apply Hwhy. exact He. }
      * exists (S k). cbn [length take map]. rewrite requests_app, map_app, Hreq1, Hreq.
        split; [lia|]. split; [reflexivity|]. intros Ho. rewrite (Hall Ho). reflexivity.
      * intros Ho. destruct (Hret Ho) as [Hok Hv]. split.
        { apply Forall_app. auto. }
        constructor.
        { exists ev1. split; [apply in_or_app; auto | assumption]. }
        eapply Forall_impl; [exact Hv|]. intros q (ev & Hin & Hq).
        exists ev. split; [apply in_or_app; auto | assumption].
      * intros ev e Hin Hf. apply in_app_or in Hin as [Hin|Hin].
        { destruct (Hfail ev e Hin Hf) as (-> & rest' & ->).
          split; [reflexivity|]. eexists. reflexivity. }
        exfalso. rewrite Forall_forall in Hok1.
        apply list_elem_of_In in Hin. rewrite (Hok1 _ Hin) in Hf. discriminate.
    + injection H as <- <-. exists evs1. split; [assumption|]. split; [|split; [|split]].
      * destruct Hr1 as [Hr1|Hr1]; [exists 0 | exists 1]; cbn [length take map];
          rewrite Hr1; (split; [lia|]); (split; [reflexivity|]); intros [=].
      * intros [=].
      * exact Hfail1.
      * intros e' He. rewrite <- (app_nil_l evs1). apply loop_breaker_cons.
        left. apply Hwhy1. exact He.
    + injection H as <- <-. exists evs1. split; [assumption|]. split; [|split; [|split]].
      * destruct Hr1 as [Hr1|Hr1]; [exists 0 | exists 1]; cbn [length take map];
          rewrite Hr1; (split; [lia|]); (split; [reflexivity|]); intros [=].
      * intros [=].
      * exact Hfail1.
      * intros e' He. rewrite <- (app_nil_l evs1). apply loop_breaker_cons.
        left. apply Hwhy1. exact He.
Qed.

End Loop.

(** ** After the standby view is fixed *)

Section Tail.
Variable E : env.

Lemma finalize_logs topic el base rf name sid w o w' :
  finalize E topic el base rf name sid w = (o, w') ->
  (o = Ret tt -> logs w' !! el = None) /\
  (o <> Ret tt -> forall p, is_Some (logs w' !! p) <-> is_Some (logs w !! p)) /\
  (nonempty topic = None -> trace w' = trace w).
Proof.
  intros H. unfold finalize in H. mcbn.
  assert (Hnotify : exists o1 w1,
    (o1 = Ret tt \/ o1 = Exit 1%Z) /\
    (forall p, is_Some (logs w1 !! p) <-> is_Some (logs w !! p)) /\
    (nonempty topic = None -> o1 = Ret tt /\ trace w1 = trace w) /\
    match o1 with
    | Ret _ =>
        bind (file_exists rf) (fun there =>
          bind (when there (unlink rf)) (fun _ =>
            bind (log_exists el) (fun still => when still (log_unlink el)))) w1
    | Raise e => (Raise e, w1)
    | Exit c => (Exit c, w1)
    end = (o, w')).
  { case_lookup H (logs w) el Hl; mcbn; rewrite ?Hl in H; mcbn; cbn [andb] in H.
    all: destruct (nonempty topic) as [t|] eqn:Ht; mcbn.
    all: try match type of H with context [Nat.ltb 0 ?n] =>
           destruct (Nat.ltb 0 n); mcbn end.
    all: try solve [exists (Ret tt), w; split; [auto|]; split; [reflexivity|];
                    split; [auto|]; mcbn; exact H].
    match type of H with context [send_notification E ?a ?b ?c ?d ?e ?v] =>
      destruct (send_notification E a b c d e v) as [o1 w1] eqn:Hs end.
    apply send_notification_post in Hs as (Ho & _ & _ & _ & Hlogs & _).
    exists o1, w1. split; [assumption|]. split; [assumption|].
    split; [discriminate|].
    destruct Ho as [-> | ->]; mcbn; exact H. }
  destruct Hnotify as (o1 & w1 & Ho1 & Hlogs & Hnone & Hrest).
  clear H. destruct Ho1 as [-> | ->].
  2:{ injection Hrest as <- <-. split; [discriminate|]. split; [intros _; exact Hlogs|].
      intros Hn. destruct (Hnone Hn) as [[=] _]. }
  mcbn.
  case_lookup Hrest (files w1) rf Hrf; mcbn; rewrite ?Hrf in Hrest; mcbn.
  all: case_lookup Hrest (logs w1) el Hl; mcbn; rewrite ?Hl in Hrest; mcbn.
  all: injection Hrest as <- <-; mcbn.
  all: split; [intros _; rewrite ?lookup_delete_eq; auto|].
  all: split; [intros Hne; congruence|].
  all: intros Hn; apply Hnone; exact Hn.
Qed.


Lemma release_from topic el base rf name id w w2 (o : outcome unit) w' :
  release_notify_exit E rf name id topic el base w2 = (o, w') ->
  files w2 = files w ->
  (forall p, is_Some (logs w2 !! p) <-> is_Some (logs w !! p)) ->
  is_Some (files w !! rf) -> is_Some (logs w !! el) ->
  o = Exit 1%Z /\
  exists evN, trace w' = evN ++ trace w2 /\ released topic el base rf w w' evN.
Proof.
  intros H Hf Hl Hrf Hel.
  apply release_notify_exit_post in H as [_ H]. rewrite Hf in H.
  destruct (H Hrf) as (-> & _ & Hlogs & Hfiles & evN & Ht & Hq & Hnone & Hpub).
  split; [reflexivity|]. exists evN. split; [assumption|].
  unfold released. conj_all; try assumption.
  - intros p. rewrite Hlogs. apply Hl.
  - intros t Ht' Hk. apply (Hpub t Ht'); [apply Hl; assumption | assumption].
Qed.

Lemma transitional_nonempty items p :
  first_transitional items = Some p ->
  Nat.eqb (String.length (plan_lifecycle_state p)) 0 = false.
Proof.
  intros H. apply first_transitional_spec in H as (_ & _ & _ & H & _).
  cbn [In] in H. destruct H as [<- | [<- | [<- | []]]]; reflexivity.
Qed.

Lemma precheck_standby_cases topic el base rf client standby w o w' :
  precheck_standby E topic el base rf client standby w = (o, w') ->
  is_Some (files w !! rf) -> is_Some (logs w !! el) ->
  exists evs, trace w' = evs ++ trace w /\
    standby_case topic el base rf client standby w o w' evs.
Proof.
  intros H Hrf Hel. unfold precheck_standby in H. mcbn.
  destruct (String.eqb (drpg_lifecycle_state standby) "ACTIVE") eqn:Hst;
    cbn [negb] in H; mcbn.
  2:{ apply String.eqb_neq in Hst.
      match type of H with context [release_notify_exit E ?a ?b ?c ?d ?e ?f ?v] =>
        destruct (@release_notify_exit E unit a b c d e f v) as [o1 w3] eqn:Hr end.
      apply (release_from _ _ _ _ _ _ w) in Hr as (-> & evN & Htr & Hrel);
        mcbn; try reflexivity; try assumption.
      2:{ intros p. rewrite append_to_is_Some. reflexivity. }
      injection H as <- <-.
      exists (evN ++ [EvLog ERROR "Standby DRPG is not active."; standby_line standby]).
      split; [rewrite Htr, <- app_assoc; reflexivity|].
      left. split; [assumption|]. split; [reflexivity|].
      exists evN. split; [reflexivity | assumption]. }
  apply String.eqb_eq in Hst.
  match type of H with context [list_active_dr_plans E ?a ?b ?v] =>
    destruct (list_active_dr_plans E a b v) as [o1 w2] eqn:Hlist end.
  apply list_active_dr_plans_post in Hlist
    as (Hf & Hh & Hl & res & evs & -> & Htr & Hcase).
  mcbn.
  destruct Hcase as [(e & -> & ->) | [(items & p & msg & -> & Hft & ->) |
    [(items & e & -> & Hft & ->) | (items & act & msg & -> & Hft & ->)]]]; mcbn.
  - (* the first listing request raised *)
    injection H as <- <-. rewrite Htr. mcbn. cbn [app]. events_of.
    right; left. conj_all; try assumption; try reflexivity.
    exists e. left. reflexivity.
  - (* a plan in a transitional state *)
    rewrite (transitional_nonempty _ _ Hft) in H. mcbn.
    unfold process_plans in H. mcbn.
    match type of H with context [release_notify_exit E ?a ?b ?c ?d ?e ?f ?v] =>
      destruct (@release_notify_exit E unit a b c d e f v) as [o1 w3] eqn:Hr end.
    apply (release_from _ _ _ _ _ _ w) in Hr as (-> & evN & Htr' & Hrel);
      mcbn; try assumption.
    2:{ intros q. rewrite ?append_to_is_Some, Hl. reflexivity. }
    injection H as <- <-.
    exists (evN ++
       [EvLog ERROR ("First transitional state found: " +:+ plan_lifecycle_state p);
        EvLog ERROR msg; EvListPlans client (drpg_id standby) None (inr items);
        standby_line standby]).
    split. { rewrite Htr'. mcbn. rewrite Htr, <- app_assoc. reflexivity. }
    right; right; left. split; [assumption|]. split; [reflexivity|].
    exists items, p, msg, evN. split; [assumption|]. split; [reflexivity|assumption].
  - (* the second listing request raised *)
    injection H as <- <-. rewrite Htr. mcbn. cbn [app]. events_of.
    right; left. conj_all; try assumption; try reflexivity.
    exists e. right. exists items. split; [assumption|reflexivity].
  - (* the list of the active plans *)
    destruct (Nat.eqb (length act) 0) eqn:Hn; mcbn.
    + apply Nat.eqb_eq in Hn. apply length_zero_iff_nil in Hn. subst act.
      match type of H with context [release_notify_exit E ?a ?b ?c ?d ?e ?f ?v] =>
        destruct (@release_notify_exit E unit a b c d e f v) as [o1 w3] eqn:Hr end.
      apply (release_from _ _ _ _ _ _ w) in Hr as (-> & evN & Htr' & Hrel);
        mcbn; try assumption.
      2:{ intros q. rewrite ?append_to_is_Some, Hl. reflexivity. }
      injection H as <- <-.
      exists (evN ++
        EvLog ERROR ("No Active DR plans found in " +:+ drpg_display_name standby +:+ ".")
        :: listed client standby items [] msg).
      split. { rewrite Htr'. mcbn. rewrite Htr, <- app_assoc. reflexivity. }
      right; right; right; left. split; [assumption|]. split; [reflexivity|].
      exists items, msg, evN. split; [assumption|]. split; [reflexivity|assumption].
    + apply Nat.eqb_neq in Hn. unfold process_plans in H. mcbn.
      match type of H with context [precheck_plans E ?a ?b ?c ?v] =>
        destruct (precheck_plans E a b c v) as [o1 w3] eqn:Hloop end.
      pose proof Hloop as Hloop'.
      apply precheck_plans_post in Hloop'
        as (Hx & Hf3 & Hh3 & Hl3 & evL' & Ht3' & HeL & _).
      apply precheck_plans_cases in Hloop
        as (evL & Ht3 & (k & Hk & Hreq & Hall) & Hret & Hfail & Hwhy).
      assert (evL' = evL) as ->.
      { rewrite Ht3' in Ht3. apply app_inv_tail in Ht3. exact Ht3. }
      clear Ht3'.
      assert (Hact : act <> []) by (intros ->; apply Hn; reflexivity).
      assert (Hlogs3 : forall q, is_Some (logs w3 !! q) <-> is_Some (logs w !! q)).
      { intros q. rewrite Hl3, Hl. reflexivity. }
      destruct o1 as [[]|e|c]; [| |exfalso; eapply Hx; reflexivity].
      * (* the loop completed *)
        pose proof H as H'.
        apply finalize_post in H as (Ho & Hexit & Hgone & Hfiles & evF & HtF & HqF).
        apply finalize_logs in H' as (Hlr & Hle & Hquiet).
        exists (evF ++ evL ++ listed client standby items act msg).
        split. { rewrite HtF, Ht3, Htr. mcbn. rewrite <- !app_assoc. reflexivity. }
        right; right; right; right. split; [assumption|].
        exists items, act, msg, evL, evF, k.
        destruct (Hret eq_refl) as [Hok Hver].
        conj_all; try assumption; try reflexivity.
        -- intros ev e Hin Hfl. exfalso. rewrite Forall_forall in Hok.
           apply list_elem_of_In in Hin. rewrite (Hok _ Hin) in Hfl. discriminate.
        -- intros e ->. destruct Ho; discriminate.
        -- intros _. split; [auto|]. split; [assumption|]. split; [assumption|].
           split.
           { intros q Hq. apply Hfiles in Hq. rewrite Hf3, Hf in Hq. exact Hq. }
           destruct Ho as [-> | ->]; [left | right].
           ++ auto.
           ++ split; [reflexivity|]. split; [auto|].
              intros q. rewrite Hle by discriminate. apply Hlogs3.
        -- intros Hno. specialize (Hquiet Hno). rewrite HtF in Hquiet.
           rewrite <- (app_nil_l (trace w3)) in Hquiet at 2.
           apply app_inv_tail in Hquiet. exact Hquiet.
      * (* the loop raised *)
        injection H as <- <-.
        exists (evL ++ listed client standby items act msg).
        split. { rewrite Ht3, Htr. mcbn. rewrite <- !app_assoc. reflexivity. }
        right; right; right; right. split; [assumption|].
        exists items, act, msg, evL, [], k.
        conj_all; try assumption; try reflexivity.
        -- constructor.
        -- intros e0 He0. split; [reflexivity|]. split; [congruence|].
           split; [apply Hwhy; exact He0 | assumption].
        -- intros Hne. exfalso. eapply Hne. reflexivity.
Qed.

End Tail.

(** ** The orchestrator before the standby view is fixed *)

Ltac fetches_cbn H :=
  cbn [fetches rev app omap list_omap fetch_of lookup list_lookup] in H.

(** The first fetch of a leaf, and what the leaf knows about its answer. *)
Ltac first_fetch Hf :=
  fetches_cbn Hf; try discriminate Hf;
  (injection Hf as <- <- <-;
   first
     [ reflexivity
     | left; split; [apply String.eqb_eq; assumption | reflexivity]
     | right; apply String.eqb_eq; assumption ]).

Section Orchestrator.
Variable E : env.

Lemma run_prechecks_split drpg_ocid topic base w0 o w' :
  run_prechecks E drpg_ocid topic base w0 = (o, w') -> trace w0 = [] ->
  stopped_early E drpg_ocid topic base w0 o w' \/
  standby_entered E drpg_ocid topic base w0 o w'.
Proof.
  intros H Ht0. unfold run_prechecks, switch_to_peer in H.
  head_steps H.
  (* release edges that are followed by code: the edge exits *)
  all: try match type of H with
    | context [@release_notify_exit E ?A ?a ?b ?c ?d ?e ?f ?v] =>
        lazymatch type of H with
        | release_notify_exit _ _ _ _ _ _ _ _ = _ => idtac
        | _ =>
          let Hr := fresh "Hr" in
          destruct (@release_notify_exit E A a b c d e f v) as [o1 w1] eqn:Hr;
          let Hx := fresh "Hx" in
          assert (Hx : o1 = Exit 1%Z);
          [ apply release_notify_exit_post in Hr as [_ Hr]; apply Hr; file_there
          | subst o1; injection H as <- <-; rename Hr into H ]
        end
    end.
  (* leaves with an explicit world *)
  all: try solve
    [ left; injection H as <- <-; unfold stopped_early, error_log_of; mcbn;
      rewrite ?Ht0; conj_all;
      [ discriminate | log_there | repeat constructor
      | let e := fresh "e" in let Hin := fresh "Hin" in
        intros e Hin; in_cases Hin; try discriminate Hin;
        (injection Hin as <-; conj_all; try reflexivity;
         (do 2 eexists; (split; [eassumption | split; [eassumption | reflexivity]])))
      | let cfg := fresh "cfg" in let id := fresh "id" in let a := fresh "a" in
        let Hf := fresh "Hf" in
        intros cfg id a Hf; first_fetch Hf
      | intros _; repeat constructor ] ].
  (* release edges *)
  all: try solve
    [ left; apply release_notify_exit_post in H as [_ H];
      let Ho := fresh "Ho" in let Hlogs := fresh "Hlogs" in
      let evs := fresh "evs" in let Ht := fresh "Ht" in let Hq := fresh "Hq" in
      let Hnone := fresh "Hnone" in
      destruct H as (Ho & _ & Hlogs & _ & evs & Ht & Hq & Hnone & _); [file_there|];
      unfold stopped_early, error_log_of; conj_all;
      [ first [discriminate | rewrite Ho; discriminate]
      | apply Hlogs; log_there
      | rewrite Ht; apply Forall_app; split;
        [ eapply Forall_impl; [exact Hq|]; intros ev; apply quiet_head_event
        | mcbn; rewrite ?Ht0; repeat constructor ]
      | let e := fresh "e" in let Hin := fresh "Hin" in
        intros e Hin; rewrite Ht in Hin; apply in_app_or in Hin as [Hin|Hin];
        [ exfalso; exact (quiet_not_signer _ _ Hq Hin)
        | mcbn; rewrite ?Ht0 in Hin; in_cases Hin; discriminate Hin ]
      | let cfg := fresh "cfg" in let id := fresh "id" in let a := fresh "a" in
        let Hf := fresh "Hf" in
        intros cfg id a Hf;
        rewrite Ht, fetches_app, (quiet_fetches _ Hq), app_nil_r in Hf;
        mcbn; rewrite ?Ht0 in Hf; try rewrite Ho; first_fetch Hf
      | let Hn := fresh "Hn" in
        intros Hn; first
          [ discriminate Hn
          | rewrite Ht, (Hnone Hn); mcbn; rewrite ?Ht0; repeat constructor ] ] ].
  (* the standby view is fixed *)
  all: right; unfold standby_entered, error_log_of; do 4 eexists;
       (split; [exact H|]); (split; [file_there|]); (split; [log_there|]).
  all: split;
    [ let Hf0 := fresh "Hf0" in let p := fresh "p" in let Hp := fresh "Hp" in
      intros Hf0 p Hp; mcbn; rewrite Hf0 in Hp;
      repeat first
        [ apply is_Some_insert_inv in Hp as [Hp | Hp];
          [first [assumption | congruence]|]
        | apply is_Some_delete_inv in Hp as [? Hp] ];
      rewrite lookup_empty in Hp; destruct Hp; discriminate
    | mcbn; rewrite ?Ht0 ].
  all: repeat match goal with
       | H : String.eqb _ _ = false |- _ => apply String.eqb_neq in H
       | H : String.eqb _ _ = true |- _ => apply String.eqb_eq in H
       end.
  all: first
    [ left; eexists; split; [reflexivity|]; split; [reflexivity|];
      split; assumption
    | right; do 4 eexists; split; [reflexivity|]; split; [reflexivity|];
      split; [assumption|]; split; [eassumption|]; assumption ].
Qed.

End Orchestrator.

(** ** Whole runs, by cases *)

Lemma run_cases E drpg_ocid topic base w0 o w' :
  run_prechecks E drpg_ocid topic base w0 = (o, w') -> trace w0 = [] ->
  stopped_early E drpg_ocid topic base w0 o w' \/
  exists rf client standby w1 evs,
    trace w' = evs ++ trace w1 /\
    standby_case topic (error_log_of E drpg_ocid base w0) base rf client standby
      w1 o w' evs /\
    Forall (dr_event (drpg_id standby) client) evs /\
    is_Some (files w1 !! rf) /\
    is_Some (logs w1 !! error_log_of E drpg_ocid base w0) /\
    (files w0 = ∅ -> forall p, is_Some (files w1 !! p) -> p = rf) /\
    Forall head_event (trace w1) /\
    (exists idx, In (EvGetDrpg client idx (inr standby)) (trace w1)) /\
    (exists cfg0 id0 group,
       fetches (trace w1) !! 0 = Some (cfg0, id0, inr group) /\
       drpg_role group <> "UNCONFIGURED") /\
    Forall (fun ev => is_publish ev = false) (trace w1) /\
    (forall r, In (EvSigner r) (trace w1) -> r = None).
Proof.
  intros H Ht0. apply run_prechecks_split in H as [H | H]; [auto | | assumption].
  right. destruct H as (rf & client & standby & w1 & H & Hrf & Hel & Honly & Htr).
  pose proof H as H'.
  apply precheck_standby_cases in H as (evs & Hevs & Hcase); [|assumption..].
  apply precheck_standby_post in H' as (evs' & Hevs' & Hev & _); [|assumption..].
  assert (evs' = evs) as ->.
  { rewrite Hevs in Hevs'. apply app_inv_tail in Hevs'. congruence. }
  exists rf, client, standby, w1, evs. do 6 (split; [assumption|]).
  destruct Htr as [(cfg0 & -> & -> & Hp & Hu) | (cfg0 & group & pr & r & -> & -> & Hp & _)].
  - split; [repeat constructor|]. split; [eexists; left; reflexivity|].
    split; [do 3 eexists; split; [reflexivity | assumption]|].
    split; [repeat constructor|].
    intros ans Hr. in_cases Hr; congruence.
  - split; [repeat constructor|]. split; [eexists; left; reflexivity|].
    split; [do 3 eexists; split; [reflexivity|]; rewrite Hp; discriminate|].
    split; [repeat constructor|].
    intros ans Hr. in_cases Hr; congruence.
Qed.

Lemma head_no_failure evs :
  Forall head_event evs -> Forall (fun ev => failure_of ev = None) evs.
Proof. intros H. eapply Forall_impl; [exact H|]. intros []; cbn; tauto. Qed.

Lemma quiet_no_failure evs :
  Forall quiet evs -> Forall (fun ev => failure_of ev = None) evs.
Proof. intros H. eapply Forall_impl; [exact H|]. intros []; cbn; tauto. Qed.

Lemma head_requests evs : Forall head_event evs -> requests evs = [].
Proof.
  unfold requests. induction 1 as [|ev evs Hev _ IH]; [reflexivity|].
  cbn [rev]. rewrite omap_app, IH. destruct ev; cbn in *; tauto.
Qed.

Lemma quiet_requests evs : Forall quiet evs -> requests evs = [].
Proof.
  intros H. apply head_requests. eapply Forall_impl; [exact H|].
  intros ev. apply quiet_head_event.
Qed.

(** Membership in a trace given by its pieces. *)
Ltac in_pieces H :=
  repeat match type of H with
  | In _ (_ ++ _) => apply in_app_or in H as [H|H]
  | In _ (_ :: _) => destruct H as [H|H]
  | In _ [] => destruct H
  | In _ (listed _ _ _ _ _) => unfold listed in H
  end.

Ltac no_listing :=
  match goal with
  | H : In (EvListPlans _ _ _ _) ?evs, F : Forall quiet ?evs |- _ =>
      exfalso; exact (quiet_not_listing _ _ _ _ _ F H)
  | H : In (EvListPlans _ _ _ _) ?evs, F : Forall head_event ?evs |- _ =>
      exfalso; exact (head_not_listing _ _ _ _ _ F H)
  | H : In (EvListPlans _ _ _ _) ?evs, F : Forall (loop_event _ _) ?evs |- _ =>
      exfalso; exact (loop_not_listing _ _ _ _ _ _ _ F H)
  | H : standby_line _ = EvListPlans _ _ _ _ |- _ => discriminate H
  | H : @eq event _ _ |- _ => discriminate H
  end.



(** The execution requests of a run that reached [precheck_standby]. *)
Lemma requests_of_tail evs pre :
  Forall head_event pre -> requests (evs ++ pre) = requests evs.
Proof. intros H. rewrite requests_app, (head_requests pre H). reflexivity. Qed.

Lemma requests_release evN tl :
  Forall quiet evN -> requests tl = [] -> requests (evN ++ tl) = [].
Proof. intros H Ht. rewrite requests_app, Ht, (quiet_requests evN H). reflexivity. Qed.

Lemma requests_loop evF evL tl :
  Forall quiet evF -> requests tl = [] ->
  requests (evF ++ evL ++ tl) = requests evL.
Proof.
  intros H Ht. rewrite !requests_app, Ht, (quiet_requests evF H), app_nil_r. reflexivity.
Qed.

(** X13: the execution requests of a run follow the ACTIVE listing: they are
    made for a prefix of the listed plans, in the order of the listing, one
    per plan, each with the options of the type of its plan; when the run
    returns, for every listed plan; and no request is made in a run without
    an answered ACTIVE listing. *)
Theorem executions_follow_the_listing (E : env)
    (drpg_ocid : string) (topic_ocid : option string) (base_dir : string)
    (w0 : world) (o : outcome unit) (w' : world) :
  trace w0 = [] ->
  run_prechecks E drpg_ocid topic_ocid base_dir w0 = (o, w') ->
  (forall cfg gid active,
     In (EvListPlans cfg gid (Some "ACTIVE") (inr active)) (trace w') ->
     exists k, k <= length active /\
       map Some (requests (trace w')) = map request_of (take k active) /\
       (o = Ret tt -> k = length active)) /\
  ((forall cfg gid active,
      ~ In (EvListPlans cfg gid (Some "ACTIVE") (inr active)) (trace w')) ->
   requests (trace w') = []).
Proof.
  intros Ht0 Hrun. destruct (run_cases _ _ _ _ _ _ _ Hrun Ht0) as [Hstop | Hin].
  { destruct Hstop as (Hne & _ & Hhead & _). split.
    - intros cfg gid active Hl. exfalso.
      exact (head_not_listing _ _ _ _ _ Hhead Hl).
    - intros _. apply head_requests. exact Hhead. }
  destruct Hin as (rf & client & standby & w1 & evs & Htr & Hcase & _ & _ & _ & _ & Hh1 & _).
  rewrite Htr, (requests_of_tail _ _ Hh1).
  destruct Hcase as [(_ & -> & evN & -> & Hrel) | [(_ & -> & _ & _ & e & Hevs) |
    [(_ & -> & items & p & msg & evN & _ & -> & Hrel) |
    [(_ & -> & items & msg & evN & _ & -> & Hrel) |
     (_ & items & act & msg & evL & evF & k & _ & Hne & -> & HeL & HqF & Hk & Hreq & _ & Hraise
        & Hdone & _)]]]].
  - destruct Hrel as (_ & _ & Hq & _).
    rewrite requests_release by first [assumption | reflexivity]. split; [|reflexivity].
    intros cfg gid active Hl. in_pieces Hl; no_listing.
  - assert (Hreq : requests evs = [])
      by (destruct Hevs as [-> | (items & _ & ->)]; reflexivity).
    rewrite Hreq. split; [|reflexivity].
    intros cfg gid active Hl. in_pieces Hl; try no_listing.
    destruct Hevs as [-> | (items & _ & ->)]; in_pieces Hl; no_listing.
  - destruct Hrel as (_ & _ & Hq & _).
    rewrite requests_release by first [assumption | reflexivity]. split; [|reflexivity].
    intros cfg gid active Hl. in_pieces Hl; no_listing.
  - destruct Hrel as (_ & _ & Hq & _).
    rewrite requests_release by first [assumption | reflexivity]. split.
    + intros cfg gid active Hl. in_pieces Hl; try no_listing.
      injection Hl as <- <- <-. exists 0. cbn. auto with lia.
    + reflexivity.
  - rewrite requests_loop by first [assumption | reflexivity]. split.
    + intros cfg gid active Hl. in_pieces Hl; try no_listing.
      injection Hl as <- <- <-. exists k. split; [assumption|]. split; [assumption|].
      intros ->. apply Hdone. discriminate.
    + intros Hno. exfalso. apply (Hno client (drpg_id standby) act).
      apply in_or_app. left. apply in_or_app. right. apply in_or_app. right.
      right. left. reflexivity.
Qed.

Lemma executions_follow_the_listing_witness :
  exists o w',
    run_prechecks (Demo.standby_with [Demo.switchover_plan; Demo.failover_plan] None)
      Demo.drpg_ocid None Demo.base_dir initial_world = (o, w') /\
    (forall cfg gid active,
       In (EvListPlans cfg gid (Some "ACTIVE") (inr active)) (trace w') ->
       exists k, k <= length active /\
         map Some (requests (trace w')) = map request_of (take k active) /\
         (o = Ret tt -> k = length active)) /\
    ((forall cfg gid active,
        ~ In (EvListPlans cfg gid (Some "ACTIVE") (inr active)) (trace w')) ->
     requests (trace w') = []).
Proof.
  destruct (run_prechecks (Demo.standby_with [Demo.switchover_plan; Demo.failover_plan] None)
              Demo.drpg_ocid None Demo.base_dir initial_world) as [o w'] eqn:Hrun.
  exists o, w'. split; [reflexivity|].
  apply (executions_follow_the_listing
           (Demo.standby_with [Demo.switchover_plan; Demo.failover_plan] None)
           Demo.drpg_ocid None Demo.base_dir initial_world o w').
  - reflexivity.
  - exact Hrun.
Defined.

(** X14: when [run_prechecks] returns, the run listed at least one ACTIVE
    plan, no call of the loop raised, a pass or fail line was logged for
    every listed plan, and of the files the run wrote nothing is left but
    configurations of the notifier. *)
Theorem returned_run (E : env)
    (drpg_ocid : string) (topic_ocid : option string) (base_dir : string)
    (w0 w' : world) :
  trace w0 = [] -> files w0 = ∅ ->
  run_prechecks E drpg_ocid topic_ocid base_dir w0 = (Ret tt, w') ->
  only_notifier_files base_dir topic_ocid (files w') /\
  Forall (fun ev => failure_of ev = None) (trace w') /\
  exists cfg gid active,
    active <> [] /\
    In (EvListPlans cfg gid (Some "ACTIVE") (inr active)) (trace w') /\
    Forall (fun p => exists ev, In ev (trace w') /\ verdict p ev) active.
Proof.
  intros Ht0 Hf0 Hrun. destruct (run_cases _ _ _ _ _ _ _ Hrun Ht0) as [Hstop | Hin].
  { destruct Hstop as (Hne & _). congruence. }
  destruct Hin as (rf & client & standby & w1 & evs & Htr & Hcase & _ & Hrf & _ & Honly
                   & Hh1 & _).
  destruct Hcase as [(_ & [=] & _) | [(_ & [=] & _) | [(_ & [=] & _) | [(_ & [=] & _) |
     (_ & items & act & msg & evL & evF & k & _ & Hne & -> & HeL & HqF & _ & _ & _ & _
        & Hdone & _)]]]].
  destruct Hdone as (_ & Hok & Hver & Hfiles & [(_ & Hgone & _) | ([=] & _)]);
    [discriminate|].
  split; [|split].
  - intros p Hp. destruct (Hfiles p Hp) as [Hp1 | Hp1]; [|assumption].
    exfalso. rewrite (Honly Hf0 p Hp1) in Hp. rewrite Hgone in Hp.
    destruct Hp as [? [=]].
  - rewrite Htr. repeat (apply Forall_app; split).
    + apply quiet_no_failure. assumption.
    + assumption.
    + repeat constructor.
    + apply head_no_failure. assumption.
  - exists client, (drpg_id standby), act. split; [assumption|]. split.
    + rewrite Htr. apply in_or_app. left. apply in_or_app. right. apply in_or_app. right.
      right. left. reflexivity.
    + eapply Forall_impl; [exact Hver|]. intros p (ev & Hev & Hv). exists ev.
      split; [|assumption]. rewrite Htr. apply in_or_app. left. apply in_or_app. right.
      apply in_or_app. left. assumption.
Qed.

Lemma returned_run_witness :
  exists w',
    run_prechecks (Demo.standby_with [Demo.switchover_plan; Demo.failover_plan] None)
      Demo.drpg_ocid None Demo.base_dir initial_world = (Ret tt, w') /\
    only_notifier_files Demo.base_dir None (files w') /\
    Forall (fun ev => failure_of ev = None) (trace w').
Proof.
  destruct (run_prechecks (Demo.standby_with [Demo.switchover_plan; Demo.failover_plan] None)
              Demo.drpg_ocid None Demo.base_dir initial_world) as [o w'] eqn:Hrun.
  assert (Ho : fst (run_prechecks
                      (Demo.standby_with [Demo.switchover_plan; Demo.failover_plan] None)
                      Demo.drpg_ocid None Demo.base_dir initial_world) = o)
    by (rewrite Hrun; reflexivity).
  eval_lhs Ho. subst o. exists w'. split; [reflexivity|].
  destruct (returned_run
              (Demo.standby_with [Demo.switchover_plan; Demo.failover_plan] None)
              Demo.drpg_ocid None Demo.base_dir initial_world w') as (Hfiles & Hok & _).
  - reflexivity.
  - reflexivity.
  - exact Hrun.
  - split; assumption.
Defined.





Lemma dr_listing sid client evs cfg gid lc r :
  Forall (dr_event sid client) evs -> In (EvListPlans cfg gid lc r) evs ->
  cfg = client /\ gid = sid.
Proof.
  rewrite Forall_forall. intros H Hin. apply list_elem_of_In in Hin. exact (H _ Hin).
Qed.

Lemma dr_not_signer sid client evs r :
  Forall (dr_event sid client) evs -> ~ In (EvSigner r) evs.
Proof.
  rewrite Forall_forall. intros H Hin. apply list_elem_of_In in Hin. exact (H _ Hin).
Qed.

(** X17: plans are listed only for a group that a fetch of the same run
    answered in state ACTIVE, with the client that made that fetch, and only
    when the group fetched first is not UNCONFIGURED. *)
Theorem plans_listed_for_an_active_group (E : env)
    (drpg_ocid : string) (topic_ocid : option string) (base_dir : string)
    (w0 : world) (o : outcome unit) (w' : world)
    (cfg gid : string) (lifecycle : option string) (r : exn + list plan) :
  trace w0 = [] ->
  run_prechecks E drpg_ocid topic_ocid base_dir w0 = (o, w') ->
  In (EvListPlans cfg gid lifecycle r) (trace w') ->
  (exists idx standby,
     In (EvGetDrpg cfg idx (inr standby)) (trace w') /\
     gid = drpg_id standby /\ drpg_lifecycle_state standby = "ACTIVE") /\
  (exists cfg0 id0 group,
     fetches (trace w') !! 0 = Some (cfg0, id0, inr group) /\
     drpg_role group <> "UNCONFIGURED").
Proof.
  intros Ht0 Hrun Hl. destruct (run_cases _ _ _ _ _ _ _ Hrun Ht0) as [Hstop | Hin].
  { destruct Hstop as (_ & _ & Hhead & _). exfalso.
    exact (head_not_listing _ _ _ _ _ Hhead Hl). }
  destruct Hin as (rf & client & standby & w1 & evs & Htr & Hcase & Hdr & _ & _ & _ & Hh1
                   & (idx & Hfetch) & (cfg0 & id0 & group & Hf0 & Hrole) & _).
  rewrite Htr in *. apply in_app_or in Hl as [Hl | Hl].
  2:{ exfalso. exact (head_not_listing _ _ _ _ _ Hh1 Hl). }
  destruct (dr_listing _ _ _ _ _ _ _ Hdr Hl) as [-> ->]. split.
  - exists idx, standby. split; [apply in_or_app; auto|]. split; [reflexivity|].
    destruct Hcase as [(_ & _ & evN & -> & Hrel) | [(Hs & _) | [(Hs & _) | [(Hs & _) |
      (Hs & _)]]]]; try assumption.
    destruct Hrel as (_ & _ & Hq & _). in_pieces Hl; no_listing.
  - exists cfg0, id0, group. split; [|assumption].
    rewrite fetches_app. apply lookup_app_l_Some. assumption.
Qed.

Lemma plans_listed_for_an_active_group_witness :
  exists o w',
    run_prechecks (Demo.primary_with_peer [Demo.switchover_plan]) Demo.drpg_ocid None
      Demo.base_dir initial_world = (o, w') /\
    exists idx standby,
      In (EvGetDrpg (region_config "us-phoenix-1") idx (inr standby)) (trace w') /\
      Demo.peer_ocid = drpg_id standby /\ drpg_lifecycle_state standby = "ACTIVE".
Proof.
  destruct (run_prechecks (Demo.primary_with_peer [Demo.switchover_plan]) Demo.drpg_ocid
              None Demo.base_dir initial_world) as [o w'] eqn:Hrun.
  assert (Hw : trace (snd (run_prechecks (Demo.primary_with_peer [Demo.switchover_plan])
                             Demo.drpg_ocid None Demo.base_dir initial_world)) = trace w')
    by (rewrite Hrun; reflexivity).
  eval_lhs Hw.
  destruct (plans_listed_for_an_active_group (Demo.primary_with_peer [Demo.switchover_plan])
              Demo.drpg_ocid None Demo.base_dir initial_world o w'
              (region_config "us-phoenix-1") Demo.peer_ocid None
              (inr [Demo.switchover_plan])) as (Hact & _).
  - reflexivity.
  - exact Hrun.
  - rewrite <- Hw. vm_compute. auto 20.
  - exists o, w'. split; [reflexivity | exact Hact].
Defined.

(** X18: an exception raised by a request of the plan loop (create an
    execution, read an execution, wait) is not handled: the run ends with
    that exception right after the call, without any publish request, and
    the region file of the run is left behind. *)
Theorem loop_failure_is_unhandled (E : env)
    (drpg_ocid : string) (topic_ocid : option string) (base_dir : string)
    (w0 : world) (o : outcome unit) (w' : world) (ev : event) (e : exn) :
  trace w0 = [] ->
  run_prechecks E drpg_ocid topic_ocid base_dir w0 = (o, w') ->
  In ev (trace w') -> failure_of ev = Some e ->
  o = Raise e /\
  (exists rest, trace w' = ev :: rest) /\
  Forall (fun ev => is_publish ev = false) (trace w') /\
  exists p, is_Some (files w' !! p).
Proof.
  intros Ht0 Hrun Hin Hfail.
  assert (Hnone : forall evs, Forall (fun x => failure_of x = None) evs -> ~ In ev evs).
  { intros evs Hall Hx. rewrite Forall_forall in Hall. apply list_elem_of_In in Hx.
    rewrite (Hall _ Hx) in Hfail. discriminate. }
  destruct (run_cases _ _ _ _ _ _ _ Hrun Ht0) as [Hstop | Hent].
  { destruct Hstop as (_ & _ & Hhead & _). exfalso.
    exact (Hnone _ (head_no_failure _ Hhead) Hin). }
  destruct Hent as (rf & client & standby & w1 & evs & Htr & Hcase & _ & Hrf & _ & _ & Hh1
                   & _ & _ & Hnp1 & _).
  rewrite Htr in *. apply in_app_or in Hin as [Hin | Hin].
  2:{ exfalso. exact (Hnone _ (head_no_failure _ Hh1) Hin). }
  destruct Hcase as [(_ & _ & evN & -> & Hrel) | [(_ & _ & _ & _ & x & Hevs) |
    [(_ & _ & items & p & msg & evN & _ & -> & Hrel) |
    [(_ & _ & items & msg & evN & _ & -> & Hrel) |
     (_ & items & act & msg & evL & evF & k & _ & _ & -> & HeL & HqF & _ & _ & Hf & Hraise
        & _)]]]].
  - exfalso. destruct Hrel as (_ & _ & Hq & _). apply in_app_or in Hin as [Hin | Hin].
    + exact (Hnone _ (quiet_no_failure _ Hq) Hin).
    + in_cases Hin; subst ev; discriminate Hfail.
  - exfalso. destruct Hevs as [-> | (items & _ & ->)];
      in_cases Hin; subst ev; discriminate Hfail.
  - exfalso. destruct Hrel as (_ & _ & Hq & _). apply in_app_or in Hin as [Hin | Hin].
    + exact (Hnone _ (quiet_no_failure _ Hq) Hin).
    + in_cases Hin; subst ev; discriminate Hfail.
  - exfalso. destruct Hrel as (_ & _ & Hq & _). apply in_app_or in Hin as [Hin | Hin].
    + exact (Hnone _ (quiet_no_failure _ Hq) Hin).
    + unfold listed in Hin. in_cases Hin; subst ev; discriminate Hfail.
  - apply in_app_or in Hin as [Hin | Hin].
    { exfalso. exact (Hnone _ (quiet_no_failure _ HqF) Hin). }
    apply in_app_or in Hin as [Hin | Hin].
    2:{ exfalso. unfold listed in Hin. in_cases Hin; subst ev; discriminate Hfail. }
    destruct (Hf ev e Hin Hfail) as (-> & rest & ->).
    destruct (Hraise e eq_refl) as (-> & Hfiles & _).
    split; [reflexivity|]. split; [eexists; reflexivity|]. split.
    + rewrite app_nil_l. repeat (apply Forall_app; split).
      * apply (loop_not_publish _ _ _ HeL).
      * repeat constructor.
      * assumption.
    + exists rf. rewrite Hfiles. assumption.
Qed.

Lemma loop_failure_is_unhandled_witness :
  exists o w',
    run_prechecks
      (Scenario.with_create_error (Demo.standby_with [Demo.switchover_plan] None)
         Demo.unavailable)
      Demo.drpg_ocid (Some Demo.topic_ocid) Demo.base_dir initial_world = (o, w') /\
    o = Raise Demo.unavailable /\
    Forall (fun ev => is_publish ev = false) (trace w') /\
    exists p, is_Some (files w' !! p).
Proof.
  destruct (run_prechecks
              (Scenario.with_create_error (Demo.standby_with [Demo.switchover_plan] None)
                 Demo.unavailable)
              Demo.drpg_ocid (Some Demo.topic_ocid) Demo.base_dir initial_world)
    as [o w'] eqn:Hrun.
  assert (Hw : trace (snd (run_prechecks
                 (Scenario.with_create_error (Demo.standby_with [Demo.switchover_plan] None)
                    Demo.unavailable)
                 Demo.drpg_ocid (Some Demo.topic_ocid) Demo.base_dir initial_world))
               = trace w') by (rewrite Hrun; reflexivity).
  eval_lhs Hw.
  destruct (loop_failure_is_unhandled
              (Scenario.with_create_error (Demo.standby_with [Demo.switchover_plan] None)
                 Demo.unavailable)
              Demo.drpg_ocid (Some Demo.topic_ocid) Demo.base_dir initial_world o w'
              (EvCreateExecution (region_config "us-ashburn-1") "plan-1"
                 SwitchoverPrecheckExecutionOptionDetails (inl Demo.unavailable))
              Demo.unavailable) as (Ho & _ & Hnp & Hleft).
  - reflexivity.
  - exact Hrun.
  - rewrite <- Hw. vm_compute. auto 20.
  - reflexivity.
  - exists o, w'. auto.
Defined.

(** X19: a precheck that fails does not stop the loop: once a non-empty
    ACTIVE listing is answered, if every listed plan has a type of the
    enumeration, no request of the loop raised, every fetch was answered and
    the region of a supplied topic resolves, the run returns, and a pass or
    fail line was logged for every listed plan. *)
Theorem failed_precheck_does_not_stop_the_loop (E : env)
    (drpg_ocid : string) (topic_ocid : option string) (base_dir : string)
    (w0 : world) (o : outcome unit) (w' : world)
    (cfg gid : string) (active : list plan) :
  trace w0 = [] ->
  run_prechecks E drpg_ocid topic_ocid base_dir w0 = (o, w') ->
  In (EvListPlans cfg gid (Some "ACTIVE") (inr active)) (trace w') ->
  active <> [] ->
  Forall (fun p => In (plan_type p)
            ["SWITCHOVER"; "FAILOVER"; "START_DRILL"; "STOP_DRILL"]) active ->
  Forall (fun ev => failure_of ev = None /\ ~ failed_fetch ev) (trace w') ->
  (forall t, nonempty topic_ocid = Some t -> topic_region_known t) ->
  o = Ret tt /\
  Forall (fun p => exists ev, In ev (trace w') /\ verdict p ev) active.
Proof.
  intros Ht0 Hrun Hl Hne Hty Hok Htopic.
  destruct (run_cases _ _ _ _ _ _ _ Hrun Ht0) as [Hstop | Hent].
  { destruct Hstop as (_ & _ & Hhead & _). exfalso.
    exact (head_not_listing _ _ _ _ _ Hhead Hl). }
  destruct Hent as (rf & client & standby & w1 & evs & Htr & Hcase & _ & _ & _ & _ & Hh1 & _).
  rewrite Htr in *.
  destruct Hcase as [(_ & -> & evN & -> & Hrel) | [(_ & -> & _ & _ & e & Hevs) |
    [(_ & -> & items' & p' & msg & evN & Hft' & -> & Hrel) |
    [(_ & -> & items' & msg & evN & Hft' & -> & Hrel) |
     (_ & items' & act & msg & evL & evF & k & Hft' & _ & -> & HeL & HqF & _ & _ & _
        & Hraise & Hdone & _)]]]].
  - destruct Hrel as (_ & _ & Hq & _). in_pieces Hl; no_listing.
  - destruct Hevs as [-> | (items' & Hft' & ->)]; in_pieces Hl; no_listing.
  - destruct Hrel as (_ & _ & Hq & _). in_pieces Hl; no_listing.
  - destruct Hrel as (_ & _ & Hq & _). in_pieces Hl; try no_listing.
    injection Hl as _ _ <-. congruence.
  - in_pieces Hl; try no_listing. injection Hl as _ _ ->.
    assert (Hnr : forall e, o <> Raise e).
    { intros e ->. destruct (Hraise e eq_refl) as (_ & _ & Hwhy & _).
      pose proof (proj1 (Forall_forall _ _) Hok) as Hok'.
      pose proof (proj1 (Forall_forall _ _) Hty) as Hty'.
      destruct Hwhy as [(q & Hq & Hnone) | (ev & Hev & Hbad)].
      - apply DrPlanType_lookup_None in Hnone. apply Hnone. apply Hty'.
        apply list_elem_of_In. assumption.
      - assert (Hin : In ev ((evF ++ evL ++ listed client standby items' active msg)
                             ++ trace w1)).
        { apply in_or_app. left. apply in_or_app. right. apply in_or_app. auto. }
        apply list_elem_of_In in Hin. destruct (Hok' _ Hin) as [Hn Hnf].
        destruct Hbad as [Hbad | Hbad]; [congruence | contradiction]. }
    destruct (Hdone Hnr) as (_ & _ & Hver & _ & [(-> & _) | (_ & (t & Ht & Hunk) & _)]).
    2:{ exfalso. apply Hunk. apply Htopic. assumption. }
    split; [reflexivity|].
    eapply Forall_impl; [exact Hver|]. intros p (ev & Hev & Hv). exists ev.
    split; [|assumption]. apply in_or_app. left. apply in_or_app. right.
    apply in_or_app. left. assumption.
Qed.

Lemma failed_precheck_does_not_stop_the_loop_witness :
  exists o w',
    run_prechecks
      (Scenario.with_final_state
         (Demo.standby_with [Demo.switchover_plan; Demo.failover_plan] None) "FAILED")
      Demo.drpg_ocid None Demo.base_dir initial_world = (o, w') /\
    o = Ret tt /\
    In (EvLog ERROR "Precheck failed: switch") (trace w') /\
    In (EvLog ERROR "Precheck failed: fail") (trace w').
Proof.
  destruct (run_prechecks
              (Scenario.with_final_state
                 (Demo.standby_with [Demo.switchover_plan; Demo.failover_plan] None)
                 "FAILED")
              Demo.drpg_ocid None Demo.base_dir initial_world) as [o w'] eqn:Hrun.
  assert (Hw : trace (snd (run_prechecks
                 (Scenario.with_final_state
                    (Demo.standby_with [Demo.switchover_plan; Demo.failover_plan] None)
                    "FAILED")
                 Demo.drpg_ocid None Demo.base_dir initial_world)) = trace w')
    by (rewrite Hrun; reflexivity).
  eval_lhs Hw.
  destruct (failed_precheck_does_not_stop_the_loop
              (Scenario.with_final_state
                 (Demo.standby_with [Demo.switchover_plan; Demo.failover_plan] None)
                 "FAILED")
              Demo.drpg_ocid None Demo.base_dir initial_world o w'
              (region_config "us-ashburn-1") Demo.drpg_ocid
              [Demo.switchover_plan; Demo.failover_plan]) as (Ho & _).
  - reflexivity.
  - exact Hrun.
  - rewrite <- Hw. vm_compute. auto 20.
  - discriminate.
  - constructor; [cbn; auto|]. constructor; [cbn; auto|]. constructor.
  - rewrite <- Hw. repeat constructor; try reflexivity; intros (c & i & x & [=]).
  - intros t [=].
  - exists o, w'. split; [reflexivity|]. split; [exact Ho|].
    rewrite <- Hw. split; vm_compute; auto 20.
Defined.

(** X20: when the signer cannot be built, the run ends with that exception
    before any request to the disaster-recovery service; nothing is logged,
    and the region file written just before is left behind. *)
Theorem signer_failure_is_unhandled (E : env)
    (drpg_ocid : string) (topic_ocid : option string) (base_dir : string)
    (w0 : world) (o : outcome unit) (w' : world) (e : exn) :
  trace w0 = [] ->
  run_prechecks E drpg_ocid topic_ocid base_dir w0 = (o, w') ->
  In (EvSigner (Some e)) (trace w') ->
  o = Raise e /\ trace w' = [EvSigner (Some e)] /\
  exists code region,
    split "." drpg_ocid !! 3 = Some code /\
    nonempty (normalize_region code) = Some region /\
    files w' = <[path_join base_dir (drpg_ocid +:+ "." +:+ clock E (S (now w0)))
                 := region_config region]> (files w0).
Proof.
  intros Ht0 Hrun Hin. destruct (run_cases _ _ _ _ _ _ _ Hrun Ht0) as [Hstop | Hent].
  { destruct Hstop as (_ & _ & _ & Hs & _). exact (Hs e Hin). }
  exfalso.
  destruct Hent as (rf & client & standby & w1 & evs & Htr & _ & Hdr & _ & _ & _ & _
                   & _ & _ & _ & Hs1).
  rewrite Htr in Hin. apply in_app_or in Hin as [Hin | Hin].
  - exact (dr_not_signer _ _ _ _ Hdr Hin).
  - apply Hs1 in Hin. discriminate.
Qed.

Lemma signer_failure_is_unhandled_witness :
  exists o w',
    run_prechecks
      (Scenario.with_signer_error (Demo.standby_with [] None) Scenario.no_principal)
      Demo.drpg_ocid None Demo.base_dir initial_world = (o, w') /\
    o = Raise Scenario.no_principal /\ trace w' = [EvSigner (Some Scenario.no_principal)].
Proof.
  destruct (run_prechecks
              (Scenario.with_signer_error (Demo.standby_with [] None) Scenario.no_principal)
              Demo.drpg_ocid None Demo.base_dir initial_world) as [o w'] eqn:Hrun.
  assert (Hw : trace (snd (run_prechecks
                 (Scenario.with_signer_error (Demo.standby_with [] None)
                    Scenario.no_principal)
                 Demo.drpg_ocid None Demo.base_dir initial_world)) = trace w')
    by (rewrite Hrun; reflexivity).
  eval_lhs Hw.
  destruct (signer_failure_is_unhandled
              (Scenario.with_signer_error (Demo.standby_with [] None) Scenario.no_principal)
              Demo.drpg_ocid None Demo.base_dir initial_world o w' Scenario.no_principal)
    as (Ho & Htr & _).
  - reflexivity.
  - exact Hrun.
  - rewrite <- Hw. vm_compute. auto.
  - exists o, w'. auto.
Defined.

(** X21: when the first fetch of the protection group raises, or answers a
    group whose role is UNCONFIGURED, the run ends with [sys.exit(1)]
    without listing any plan and without any execution request. *)
Theorem missing_or_unconfigured_group_exits (E : env)
    (drpg_ocid : string) (topic_ocid : option string) (base_dir : string)
    (w0 : world) (o : outcome unit) (w' : world)
    (cfg : string) (id : option string) (answer : exn + drpg) :
  trace w0 = [] ->
  run_prechecks E drpg_ocid topic_ocid base_dir w0 = (o, w') ->
  fetches (trace w') !! 0 = Some (cfg, id, answer) ->
  match answer with
  | inl _ => True
  | inr group => drpg_role group = "UNCONFIGURED"
  end ->
  o = Exit 1%Z /\
  (forall cfg' gid lifecycle r, ~ In (EvListPlans cfg' gid lifecycle r) (trace w')) /\
  requests (trace w') = [].
Proof.
  intros Ht0 Hrun Hf Hans. destruct (run_cases _ _ _ _ _ _ _ Hrun Ht0) as [Hstop | Hent].
  - destruct Hstop as (_ & _ & Hhead & _ & Hfetch & _). split; [|split].
    + specialize (Hfetch _ _ _ Hf). destruct answer as [e|group]; [assumption|].
      destruct Hfetch as [[_ Ho] | Hp]; [assumption|].
      rewrite Hans in Hp. discriminate.
    + intros cfg' gid lc r Hl. exact (head_not_listing _ _ _ _ _ Hhead Hl).
    + apply head_requests. assumption.
  - exfalso.
    destruct Hent as (rf & client & standby & w1 & evs & Htr & _ & _ & _ & _ & _ & _
                     & _ & (cfg0 & id0 & group & Hf0 & Hrole) & _).
    rewrite Htr, fetches_app in Hf.
    rewrite (lookup_app_l_Some _ _ _ _ Hf0) in Hf. injection Hf as <- <- <-.
    contradiction.
Qed.

Lemma missing_or_unconfigured_group_exits_witness :
  exists o w',
    run_prechecks (Demo.unconfigured None) Demo.drpg_ocid None Demo.base_dir
      initial_world = (o, w') /\
    o = Exit 1%Z /\ requests (trace w') = [].
Proof.
  destruct (run_prechecks (Demo.unconfigured None) Demo.drpg_ocid None Demo.base_dir
              initial_world) as [o w'] eqn:Hrun.
  assert (Hw : trace (snd (run_prechecks (Demo.unconfigured None) Demo.drpg_ocid None
                             Demo.base_dir initial_world)) = trace w')
    by (rewrite Hrun; reflexivity).
  eval_lhs Hw.
  destruct (missing_or_unconfigured_group_exits (Demo.unconfigured None) Demo.drpg_ocid
              None Demo.base_dir initial_world o w' (region_config "us-ashburn-1")
              (Some Demo.drpg_ocid) (inr Demo.unconfigured_group)) as (Ho & _ & Hreq).
  - reflexivity.
  - exact Hrun.
  - rewrite <- Hw. vm_compute. reflexivity.
  - reflexivity.
  - exists o, w'. auto.
Defined.

(** X22: a precheck that runs to its end makes its requests in this order:
    create the execution with the options of the plan type, read the
    execution, wait for it to be IN_PROGRESS, fetch the standby group, wait
    for the group to be ACTIVE, read the execution again; then it logs
    "passed" exactly when the state read last is SUCCEEDED, and "failed", as
    an ERROR, otherwise.  It writes no file. *)
Theorem precheck_plan_sequence (E : env) (standby_ocid dr_client : string)
    (p : plan) (w w' : world) :
  precheck_plan E standby_ocid dr_client p w = (Ret tt, w') ->
  exists ty execution started group final,
    DrPlanType_lookup (plan_type p) = Some ty /\
    trace w' =
      [ (if String.eqb (execution_lifecycle_state final) "SUCCEEDED"
         then EvLog INFO ("Precheck passed: " +:+ plan_display_name p)
         else EvLog ERROR ("Precheck failed: " +:+ plan_display_name p));
        EvGetExecution dr_client (execution_id execution) (inr final);
        EvWaitUntil dr_client (WDrpg group) "lifecycle_state" "ACTIVE" None;
        EvGetDrpg dr_client (Some standby_ocid) (inr group);
        EvWaitUntil dr_client (WExecution started) "lifecycle_state" "IN_PROGRESS" None;
        EvGetExecution dr_client (execution_id execution) (inr started);
        EvCreateExecution dr_client (plan_id p) (options_for ty) (inr execution);
        EvLog INFO ("Running precheck for " +:+ DrPlanType_value ty +:+ " plan: "
                    +:+ plan_display_name p) ] ++ trace w /\
    files w' = files w.
Proof.
  intros H. unfold precheck_plan in H.
  destruct (DrPlanType_lookup (plan_type p)) as [ty|] eqn:Hty; [|discriminate H].
  destruct ty; mcbn; eval_enum H; msteps H.
  all: try discriminate H.
  all: injection H as <-; mcbn.
  all: do 5 eexists; (split; [reflexivity|]); split; [|reflexivity].
  all: match goal with Hs : String.eqb _ "SUCCEEDED" = _ |- _ => rewrite Hs end.
  all: reflexivity.
Qed.

Lemma precheck_plan_sequence_witness :
  exists w' ty execution started group final,
    precheck_plan (Demo.standby_with [Demo.failover_plan] None) Demo.drpg_ocid
      (region_config "us-ashburn-1") Demo.failover_plan initial_world = (Ret tt, w') /\
    DrPlanType_lookup (plan_type Demo.failover_plan) = Some ty /\
    In (EvCreateExecution (region_config "us-ashburn-1") "plan-2" (options_for ty)
          (inr execution)) (trace w') /\
    In (EvWaitUntil (region_config "us-ashburn-1") (WExecution started)
          "lifecycle_state" "IN_PROGRESS" None) (trace w') /\
    In (EvWaitUntil (region_config "us-ashburn-1") (WDrpg group)
          "lifecycle_state" "ACTIVE" None) (trace w') /\
    In (EvGetExecution (region_config "us-ashburn-1") (execution_id execution)
          (inr final)) (trace w').
Proof.
  destruct (precheck_plan (Demo.standby_with [Demo.failover_plan] None) Demo.drpg_ocid
              (region_config "us-ashburn-1") Demo.failover_plan initial_world)
    as [o w'] eqn:Hrun.
  assert (Ho : fst (precheck_plan (Demo.standby_with [Demo.failover_plan] None)
                      Demo.drpg_ocid (region_config "us-ashburn-1") Demo.failover_plan
                      initial_world) = o) by (rewrite Hrun; reflexivity).
  eval_lhs Ho. subst o.
  destruct (precheck_plan_sequence (Demo.standby_with [Demo.failover_plan] None)
              Demo.drpg_ocid (region_config "us-ashburn-1") Demo.failover_plan
              initial_world w' Hrun)
    as (ty & execution & started & group & final & Hty & Htr & _).
  exists w', ty, execution, started, group, final.
  split; [reflexivity|]. split; [exact Hty|]. rewrite Htr. cbn [app In]. auto 20.
Defined.

(** X23: the plan loop never ends the process with [sys.exit]: the branch
    "Unknown plan type" of lines 284-286 cannot be reached, because
    [DrPlanType(plan.type)] raises first.  The loop writes no file and makes
    no publish request. *)
Theorem plan_loop_never_exits (E : env) (standby_ocid dr_client : string)
    (dr_plans : list plan) (w : world) (o : outcome unit) (w' : world) :
  precheck_plans E standby_ocid dr_client dr_plans w = (o, w') ->
  (forall code, o <> Exit code) /\
  files w' = files w /\
  exists evs, trace w' = evs ++ trace w /\
    Forall (fun ev => is_publish ev = false) evs /\
    forall t, ~ In (EvLog ERROR ("Unknown plan type: " +:+ t)) evs.
Proof.
  revert w o w'. induction dr_plans as [|p rest IH]; intros w o w' H;
    cbn [precheck_plans] in H.
  - mcbn. injection H as <- <-. split; [discriminate|]. split; [reflexivity|].
    exists []. split; [reflexivity|]. split; [constructor|]. intros t [].
  - cbn [bind] in H.
    destruct (precheck_plan E standby_ocid dr_client p w) as [o1 w1] eqn:H1.
    assert (Hone : (forall code, o1 <> Exit code) /\ files w1 = files w /\
              exists evs, trace w1 = evs ++ trace w /\
                Forall (fun ev => is_publish ev = false) evs /\
                forall t, ~ In (EvLog ERROR ("Unknown plan type: " +:+ t)) evs).
    { clear H IH. unfold precheck_plan in H1.
      destruct (DrPlanType_lookup (plan_type p)) as [ty|] eqn:Hty.
      2:{ mcbn. injection H1 as <- <-. split; [discriminate|]. split; [reflexivity|].
          exists []. split; [reflexivity|]. split; [constructor|]. intros t []. }
      destruct ty; mcbn; eval_enum H1; msteps H1.
      all: injection H1 as <- <-; mcbn.
      all: split; [discriminate|]; split; [reflexivity|].
      all: events_of.
      all: split; [repeat constructor|].
      all: let t := fresh "t" in let Hin := fresh "Hin" in
           intros t Hin; in_cases Hin; try discriminate Hin;
           injection Hin as Hin; rewrite ?app_cons in Hin; discriminate Hin. }
    destruct Hone as (Hx1 & Hf1 & evs1 & Ht1 & Hp1 & Hu1).
    destruct o1 as [[]|e|c]; [| |exfalso; eapply Hx1; reflexivity].
    + apply IH in H as (Hx & Hf & evs & Ht & Hp & Hu).
      split; [assumption|]. split; [congruence|].
      exists (evs ++ evs1). rewrite Ht, Ht1, app_assoc. split; [reflexivity|].
      split; [apply Forall_app; auto|].
      intros t Hin. apply in_app_or in Hin as [Hin|Hin]; [exact (Hu t Hin) | exact (Hu1 t Hin)].
    + injection H as <- <-. split; [discriminate|]. split; [assumption|].
      exists evs1. auto.
Qed.

Lemma plan_loop_never_exits_witness :
  exists o w',
    precheck_plans (Demo.standby_with [] None) Demo.drpg_ocid
      (region_config "us-ashburn-1") [Demo.switchover_plan; Demo.odd_plan]
      initial_world = (o, w') /\
    (forall code, o <> Exit code) /\ files w' = files initial_world.
Proof.
  destruct (precheck_plans (Demo.standby_with [] None) Demo.drpg_ocid
              (region_config "us-ashburn-1") [Demo.switchover_plan; Demo.odd_plan]
              initial_world) as [o w'] eqn:Hrun.
  destruct (plan_loop_never_exits (Demo.standby_with [] None) Demo.drpg_ocid
              (region_config "us-ashburn-1") [Demo.switchover_plan; Demo.odd_plan]
              initial_world o w' Hrun) as (Hx & Hf & _).
  exists o, w'. auto.
Defined.



(** X25: without a topic nothing is published: when the optional topic
    identifier is absent or empty, the run is the run without topic, and it
    makes no publish request, however it ends. *)
Theorem no_topic_no_message (E : env)
    (drpg_ocid : string) (topic_ocid : option string) (base_dir : string)
    (w0 : world) (o : outcome unit) (w' : world) :
  trace w0 = [] ->
  nonempty topic_ocid = None ->
  run_prechecks E drpg_ocid topic_ocid base_dir w0 = (o, w') ->
  run_prechecks E drpg_ocid None base_dir w0 = (o, w') /\
  Forall (fun ev => is_publish ev = false) (trace w').
Proof.
  intros Ht0 Hno Hrun. split.
  { destruct topic_ocid as [t|]; [|exact Hrun]. cbn in Hno.
    destruct (String.eqb_spec t EmptyString) as [-> | _]; [exact Hrun | discriminate Hno]. }
  destruct (run_cases _ _ _ _ _ _ _ Hrun Ht0) as [Hstop | Hent].
  { destruct Hstop as (_ & _ & _ & _ & _ & Hquiet). exact (Hquiet Hno). }
  destruct Hent as (rf & client & standby & w1 & evs & Htr & Hcase & _ & _ & _ & _ & _
                   & _ & _ & Hnp1 & _).
  rewrite Htr. apply Forall_app. split; [|assumption].
  destruct Hcase as [(_ & _ & evN & -> & Hrel) | [(_ & _ & _ & _ & e & Hevs) |
    [(_ & _ & items & p & msg & evN & _ & -> & Hrel) |
    [(_ & _ & items & msg & evN & _ & -> & Hrel) |
     (_ & items & act & msg & evL & evF & k & _ & _ & -> & HeL & _ & _ & _ & _ & _ & _
        & HevF)]]]].
  - destruct Hrel as (_ & _ & _ & Hnone & _). rewrite (Hnone Hno). repeat constructor.
  - destruct Hevs as [-> | (items & _ & ->)]; repeat constructor.
  - destruct Hrel as (_ & _ & _ & Hnone & _). rewrite (Hnone Hno). repeat constructor.
  - destruct Hrel as (_ & _ & _ & Hnone & _). rewrite (Hnone Hno). repeat constructor.
  - rewrite (HevF Hno), app_nil_l. apply Forall_app. split.
    + apply (loop_not_publish _ _ _ HeL).
    + repeat constructor.
Qed.

Lemma no_topic_no_message_witness :
  exists o w',
    run_prechecks (Demo.unconfigured None) Demo.drpg_ocid (Some EmptyString)
      Demo.base_dir initial_world = (o, w') /\
    run_prechecks (Demo.unconfigured None) Demo.drpg_ocid None Demo.base_dir
      initial_world = (o, w') /\
    Forall (fun ev => is_publish ev = false) (trace w').
Proof.
  destruct (run_prechecks (Demo.unconfigured None) Demo.drpg_ocid (Some EmptyString)
              Demo.base_dir initial_world) as [o w'] eqn:Hrun.
  exists o, w'. split; [reflexivity|].
  apply (no_topic_no_message (Demo.unconfigured None) Demo.drpg_ocid (Some EmptyString)
           Demo.base_dir initial_world o w').
  - reflexivity.
  - reflexivity.
  - exact Hrun.
Defined.

(** ** Arguments the orchestrator rejects *)



(** ** The switch to the peer *)

(** X27: when the peer region of a PRIMARY group does not resolve,
    [switch_to_peer] does not reach its [sys.exit(1)]: the region file was
    already removed, the second [unlink] raises, and the call ends with that
    exception, without any fetch and without any notification; when the
    group has no peer region at all it ends with the exception of
    [normalize_region]. In both cases the region file is gone. *)
Theorem switch_to_peer_without_region (E : env)
    (topic_ocid : option string) (error_log base_dir region_file : string)
    (primary : drpg) (w : world) :
  is_Some (files w !! region_file) ->
  match drpg_peer_region primary with
  | Some pr => nonempty (normalize_region pr) = None
  | None => True
  end ->
  exists e w' evs,
    switch_to_peer E topic_ocid error_log base_dir region_file primary w
      = (Raise e, w') /\
    files w' = delete region_file (files w) /\
    trace w' = evs ++ trace w /\
    Forall (fun ev => exists lvl msg, ev = EvLog lvl msg) evs /\
    (is_Some (drpg_peer_region primary) ->
     e = FileNotFoundError region_file /\ In (EvLog ERROR "Unknown peer region.") evs).
Proof.
  intros [txt Hrf] Hpeer. unfold switch_to_peer. mcbn. rewrite Hrf. mcbn.
  destruct (drpg_peer_region primary) as [pr|]; mcbn.
  - rewrite Hpeer. mcbn. rewrite lookup_delete_eq. mcbn.
    eexists _, _, [_; _]. split; [reflexivity|]. mcbn. split; [reflexivity|].
    split; [reflexivity|]. split; [repeat constructor; eauto|].
    intros _. split; [reflexivity | left; reflexivity].
  - eexists _, _, [_]. split; [reflexivity|]. mcbn. split; [reflexivity|].
    split; [reflexivity|]. split; [repeat constructor; eauto|]. intros [? [=]].
Qed.

Lemma switch_to_peer_without_region_witness :
  exists e w' evs,
    switch_to_peer (Demo.standby_with [] None) None "/opt/fsdr/logs/e.log" Demo.base_dir
      "/opt/fsdr/region"
      (Demo.group Demo.drpg_ocid "app-primary" "PRIMARY" "ACTIVE"
         (Some (Demo.peer_ocid, "fra")))
      {| now := 0; files := {[ "/opt/fsdr/region" := region_config "us-ashburn-1" ]};
         logs := ∅; err_handler := None; trace := [] |}
      = (Raise e, w') /\
    e = FileNotFoundError "/opt/fsdr/region" /\
    In (EvLog ERROR "Unknown peer region.") evs.
Proof.
  destruct (switch_to_peer_without_region (Demo.standby_with [] None) None
           "/opt/fsdr/logs/e.log" Demo.base_dir "/opt/fsdr/region"
           (Demo.group Demo.drpg_ocid "app-primary" "PRIMARY" "ACTIVE"
              (Some (Demo.peer_ocid, "fra")))
           {| now := 0; files := {[ "/opt/fsdr/region" := region_config "us-ashburn-1" ]};
              logs := ∅; err_handler := None; trace := [] |})
    as (e & w' & evs & Hrun & _ & _ & _ & He).
  - cbn [files]. rewrite lookup_singleton_eq. eauto.
  - vm_compute. reflexivity.
  - exists e, w', evs. split; [exact Hrun|]. apply He. cbn. eauto.
Defined.
